(** * Status-bar manager: binding synchronisation engine

    A shallow embedding of [src/index.ts] (the binding registry, the
    dual-resource toggle, the live-state reconciler and the import merger)
    together with the properties its specification states.

    Conventions of the embedding:
    - a JavaScript string is the list of its UTF-16 code units ([jsstring]);
    - an [async] function is run to completion: every [await] is a
      sequencing point of the monad [M], which threads the host state and
      propagates a rejected promise as a thrown exception;
    - the host (SillyTavern / Tavern Helper) owns the worldbooks and the
      regex list; the calls the source makes into it are the primitives of
      [M] below;
    - JavaScript built-ins with no counterpart in the source ([JSON.parse],
      [String] on a non-string value, [importRawTavernRegex], [uuidv4]) are
      the fields of the class [HostApi];
    - the registry is the array [settings.bindings] of the open panel; what
      [saveSettings] stores is recorded by the event [SettingsSaved];
    - the panel itself is not part of the state: what a handler reads from
      it (the selections, the chosen files, the answer to a prompt) is an
      argument of the handler, and of rendering only the calls into the
      host are kept, those being what can make a handler fail. *)

From Stdlib Require Import ZArith NArith List Ascii String Bool Lia.
From stdpp Require Import base option list gmap.

Set Default Proof Using "Type".
Set Warnings "-register-all".
Open Scope list_scope.

(* ===================================================================== *)
(** ** Strings *)
(* ===================================================================== *)

(** A JavaScript string: its UTF-16 code units. *)
Definition jsstring : Type := list N.

(** ASCII literals, one code unit per character. *)
Definition lit (s : string) : jsstring :=
  List.map N_of_ascii (list_ascii_of_string s).
Arguments lit s%_string.

(** [String.prototype.startsWith]: [startsWith s p] is [s.startsWith(p)]. *)
Fixpoint startsWith (s p : jsstring) {struct p} : bool :=
  match p with
  | [] => true
  | c :: p' =>
      match s with
      | [] => false
      | d :: s' => N.eqb d c && startsWith s' p'
      end
  end.

(** White space and line terminators of ECMAScript, as removed by
    [String.prototype.trim]. *)
Definition isWhiteSpace (c : N) : bool :=
  (N.leb 0x0009 c && N.leb c 0x000D)
  || N.eqb c 0x0020 || N.eqb c 0x00A0 || N.eqb c 0x1680
  || (N.leb 0x2000 c && N.leb c 0x200A)
  || N.eqb c 0x2028 || N.eqb c 0x2029 || N.eqb c 0x202F
  || N.eqb c 0x205F || N.eqb c 0x3000 || N.eqb c 0xFEFF.

Fixpoint trimStart (s : jsstring) : jsstring :=
  match s with
  | [] => []
  | c :: s' => if isWhiteSpace c then trimStart s' else s
  end.

Definition trimEnd (s : jsstring) : jsstring := rev (trimStart (rev s)).

(** [String.prototype.trim]. *)
Definition trim (s : jsstring) : jsstring := trimEnd (trimStart s).

(* ===================================================================== *)
(** ** Data model (lines 1-18) *)
(* ===================================================================== *)

(** [StatusBarBinding].  [worldbook_entry_uid] is a JavaScript number; the
    engine only ever stores the uid of an entry it has found, and uids are
    integers. *)
Module Binding.
Record t : Type := mk {
    id : jsstring;
    label : jsstring;
    worldbook_name : jsstring;
    worldbook_entry_uid : Z;
    worldbook_entry_name : jsstring;
    regex_id : jsstring;
    regex_script_name : jsstring
}.
End Binding.

(** The fields of a worldbook entry the engine reads or writes. *)
Module Entry.
Record t : Type := mk {
    uid : Z;
    name : jsstring;
    enabled : bool
}.
End Entry.

(** The fields of a [TavernRegex] the engine reads or writes;
    [replace_string] is only read by the preview and is carried along
    untouched by every update. *)
Module Regex.
Record t : Type := mk {
    id : jsstring;
    script_name : jsstring;
    enabled : bool;
    replace_string : jsstring
}.
End Regex.

Abbreviation StatusBarBinding := Binding.t.
Abbreviation WorldbookEntry := Entry.t.
Abbreviation TavernRegex := Regex.t.

(** [const REGEX_PREFIX = '[状态栏] '], as code units:
    '[' U+72B6 U+6001 U+680F ']' ' '. *)
Definition REGEX_PREFIX : jsstring :=
  [0x5B; 0x72B6; 0x6001; 0x680F; 0x5D; 0x20]%N.

(** The literal '未命名条目-' of line 483. *)
Definition UNNAMED_ENTRY : jsstring :=
  [0x672A; 0x547D; 0x540D; 0x6761; 0x76EE; 0x2D]%N.

(** Lines 44-49 (the spec's [ensureManagedName]). *)
Definition ensureRegexPrefix (scriptName : jsstring) : jsstring :=
  if startsWith scriptName REGEX_PREFIX then scriptName
  else REGEX_PREFIX ++ scriptName.

(** Strict equality [===] on strings and on integral numbers. *)
Definition str_eq (a b : jsstring) : bool := bool_decide (a = b).
Definition num_eq (a b : Z) : bool := Z.eqb a b.

(* ===================================================================== *)
(** ** JSON values and the JavaScript operators used on them *)
(* ===================================================================== *)

(** What [JSON.parse] returns.  An object is the list of its properties;
    [alist_get] reads the first one with the given key. *)
Inductive JSON : Type :=
| JNull
| JBool (b : bool)
| JNum (n : Z)
| JStr (s : jsstring)
| JArr (items : list JSON)
| JObj (props : list (jsstring * JSON)).

Fixpoint alist_get (k : jsstring) (props : list (jsstring * JSON))
  : option JSON :=
  match props with
  | [] => None
  | (k', v) :: rest => if str_eq k' k then Some v else alist_get k rest
  end.

(** A JavaScript value that may be [undefined]: [None] is [undefined]. *)
Definition jsvalue : Type := option JSON.

(** [v?.k] for the property names the source uses, none of which is
    defined on a prototype: [undefined] on [undefined], [null], primitives
    and arrays; the own property on an object. *)
Definition optChain (v : jsvalue) (k : jsstring) : jsvalue :=
  match v with
  | Some (JObj props) => alist_get k props
  | _ => None
  end.

(** [Array.isArray(v)], returning the elements. *)
Definition asArray (v : jsvalue) : option (list JSON) :=
  match v with
  | Some (JArr items) => Some items
  | _ => None
  end.

(** Truthiness, and [typeof v === 'object']. *)
Definition truthy (v : JSON) : bool :=
  match v with
  | JNull => false
  | JBool b => b
  | JNum n => negb (Z.eqb n 0)
  | JStr s => negb (str_eq s [])
  | JArr _ | JObj _ => true
  end.

Definition typeofObject (v : JSON) : bool :=
  match v with
  | JNull | JArr _ | JObj _ => true
  | JBool _ | JNum _ | JStr _ => false
  end.

(** [a ?? b]. *)
Definition coalesce (a b : jsvalue) : jsvalue :=
  match a with
  | None | Some JNull => b
  | Some _ => a
  end.

(* ===================================================================== *)
(** ** The host *)
(* ===================================================================== *)

(** Exceptions.  [SyncError] is the [Error] thrown at line 206;
    [HostError nm] is the rejection of a worldbook call for a worldbook
    [nm] the host cannot read; [TypeError] is a property read on [null] or
    a failed conversion to a string. *)
Inductive Exn : Type :=
| SyncError
| HostError (worldbookName : jsstring)
| TypeError.

Inductive res (A : Type) : Type :=
| Ok (a : A)
| Throw (e : Exn).
Arguments Ok {A} a.
Arguments Throw {A} e.

(** The messages shown through [toastr]. *)
Inductive Toast : Type :=
| ReadFileFailed                 (* error, line 106 *)
| ImportFailed                   (* error, line 127 *)
| Imported (after : nat)         (* success, line 150 *)
| SelectionIncomplete            (* warning, line 448 *)
| NoBindingCreated               (* info, line 492 *)
| BindingsCreated (createdCount : nat)       (* success, line 497 *)
| Toggled (label : jsstring) (targetEnabled : bool)  (* success, line 608 *)
| ToggleFailed                   (* error, line 611 *)
| BindingDeleted                 (* success, line 622 *)
| LabelUpdated.                  (* success, line 640 *)

(** What the engine does to the outside, in order. *)
Inductive Event : Type :=
| Toasted (t : Toast)
| SettingsSaved (saved : list StatusBarBinding)
| WorldbookReplaced (worldbookName : jsstring)
| RegexesReplaced.

(** The state the engine runs against: the host's worldbooks (a name the
    map does not hold is a worldbook that cannot be read), the host's regex
    list, the panel's [settings.bindings], the number of identifiers
    generated so far and the trace of events, oldest first. *)
Record Host : Type := mkHost {
  worldbooks : gmap jsstring (list WorldbookEntry);
  tavern_regexes : list TavernRegex;
  bindings : list StatusBarBinding;
  uuid_counter : nat;
  events : list Event
}.

Definition set_worldbooks (f : gmap jsstring (list WorldbookEntry) ->
                               gmap jsstring (list WorldbookEntry))
  (h : Host) : Host :=
  mkHost (f (worldbooks h)) (tavern_regexes h) (bindings h)
         (uuid_counter h) (events h).

Definition set_tavern_regexes (rs : list TavernRegex) (h : Host) : Host :=
  mkHost (worldbooks h) rs (bindings h) (uuid_counter h) (events h).

Definition set_bindings (bs : list StatusBarBinding) (h : Host) : Host :=
  mkHost (worldbooks h) (tavern_regexes h) bs (uuid_counter h) (events h).

Definition emit (e : Event) (h : Host) : Host :=
  mkHost (worldbooks h) (tavern_regexes h) (bindings h) (uuid_counter h)
         (events h ++ [e]).

(** Built-ins and host routines whose code is not part of the repository. *)
Class HostApi : Type := {
  (** [JSON.parse]; [None] when it throws. *)
  JSON_parse : jsstring -> option JSON;
  (** The string [String(v)] makes of a value that is not a string, when
      it makes one. *)
  ToString : JSON -> jsstring;
  (** [importRawTavernRegex(filename, content)]: the flag it returns and
      the regex list it leaves behind. *)
  importRawTavernRegex :
    jsstring -> jsstring -> list TavernRegex -> bool * list TavernRegex;
  (** [SillyTavern.uuidv4()], by the number of earlier calls. *)
  uuidv4 : nat -> jsstring
}.

(** Whether [String(v)] throws.  An object is converted through its
    [toString]; one that [JSON.parse] made has no callable property of its
    own, so an own [toString] shadows the inherited method, the inherited
    [valueOf] gives back the object, and the conversion ends with a
    [TypeError].  An array is joined, which converts each element that is
    not [null] in the same way. *)
Fixpoint stringThrows (v : JSON) : bool :=
  match v with
  | JObj props =>
      match alist_get (lit "toString") props with
      | Some _ => true
      | None => false
      end
  | JArr items => existsb stringThrows items
  | JNull | JBool _ | JNum _ | JStr _ => false
  end.

(** [String(v)]. *)
Definition String_ `{HostApi} (v : JSON) : res jsstring :=
  match v with
  | JStr s => Ok s
  | _ => if stringThrows v then Throw TypeError else Ok (ToString v)
  end.

(* ===================================================================== *)
(** ** The monad of engine operations *)
(* ===================================================================== *)

Definition M (A : Type) : Type := Host -> res A * Host.

Definition ret {A} (a : A) : M A := fun h => (Ok a, h).

Definition throw {A} (e : Exn) : M A := fun h => (Throw e, h).

Definition bind {A B} (m : M A) (k : A -> M B) : M B :=
  fun h =>
    match m h with
    | (Ok a, h') => k a h'
    | (Throw e, h') => (Throw e, h')
    end.

(** [try { m } catch { handler }]. *)
Definition tryCatch {A} (m : M A) (handler : Exn -> M A) : M A :=
  fun h =>
    match m h with
    | (Ok a, h') => (Ok a, h')
    | (Throw e, h') => handler e h'
    end.

Notation "'let!' x ':=' m 'in' k" := (bind m (fun x => k))
  (at level 10, x binder, m at level 100, k at level 200).

(** [Array.prototype.map] with a callback that assigns to a variable [s]
    of the enclosing function. *)
Fixpoint map_st {A B S} (f : A -> S -> B * S) (l : list A) (s : S)
  : list B * S :=
  match l with
  | [] => ([], s)
  | a :: l' =>
      let '(b, s1) := f a s in
      let '(bs, s2) := map_st f l' s1 in
      (b :: bs, s2)
  end.

(** Host calls.  The two worldbook calls reject for a worldbook the host
    cannot read, which is what the [try] of lines 160-168 catches; the
    regex calls always go through. *)
Definition getTavernRegexes : M (list TavernRegex) :=
  fun h => (Ok (tavern_regexes h), h).

Definition updateTavernRegexesWith {S}
  (updater : list TavernRegex -> list TavernRegex * S) : M S :=
  fun h =>
    let '(rs, s) := updater (tavern_regexes h) in
    (Ok s, emit RegexesReplaced (set_tavern_regexes rs h)).

Definition getWorldbook (worldbookName : jsstring) : M (list WorldbookEntry) :=
  fun h =>
    match worldbooks h !! worldbookName with
    | Some worldbook => (Ok worldbook, h)
    | None => (Throw (HostError worldbookName), h)
    end.

Definition updateWorldbookWith {S} (worldbookName : jsstring)
  (updater : list WorldbookEntry -> list WorldbookEntry * S) : M S :=
  fun h =>
    match worldbooks h !! worldbookName with
    | Some worldbook =>
        let '(worldbook', s) := updater worldbook in
        (Ok s, emit (WorldbookReplaced worldbookName)
                 (set_worldbooks (insert worldbookName worldbook') h))
    | None => (Throw (HostError worldbookName), h)
    end.

Definition toastr (t : Toast) : M unit :=
  fun h => (Ok tt, emit (Toasted t) h).

Definition getBindings : M (list StatusBarBinding) :=
  fun h => (Ok (bindings h), h).

Definition putBindings (bs : list StatusBarBinding) : M unit :=
  fun h => (Ok tt, set_bindings bs h).

(** [saveSettings(settings)] (lines 39-42). *)
Definition saveSettings : M unit :=
  fun h => (Ok tt, emit (SettingsSaved (bindings h)) h).

(* ===================================================================== *)
(** ** The engine *)
(* ===================================================================== *)

Section Engine.
Context `{HostApi}.

(** Lines 51-65. *)
Definition parseImportedRegexList (payload : JSON) : list JSON :=
  match asArray (Some payload) with
  | Some items => items
  | None =>
  match asArray (optChain (Some payload) (lit "regex_scripts")) with
  | Some items => items
  | None =>
  match asArray (optChain (optChain (Some payload) (lit "data"))
                          (lit "regex_scripts")) with
  | Some items => items
  | None =>
      if truthy payload && typeofObject payload then [payload] else []
  end end end.

(** Lines 67-72.  Reading a property of [null] throws, and so does
    [String] on some objects. *)
Definition getRegexDisplayName (item : JSON) : res jsstring :=
  match item with
  | JNull => Throw TypeError
  | _ =>
      let prop k := optChain (Some item) k in
      let raw :=
        coalesce (prop (lit "script_name"))
          (coalesce (prop (lit "scriptName"))
             (coalesce (prop (lit "name"))
                (coalesce (prop (lit "title")) (Some (JStr []))))) in
      match String_ (default (JStr []) raw) with
      | Ok text => Ok (trim text)
      | Throw e => Throw e
      end
  end.

(** [list.map(getRegexDisplayName)]: the first exception aborts the map. *)
Fixpoint mapDisplayNames (items : list JSON) : res (list jsstring) :=
  match items with
  | [] => Ok []
  | item :: rest =>
      match getRegexDisplayName item with
      | Throw e => Throw e
      | Ok raw =>
          match mapDisplayNames rest with
          | Throw e => Throw e
          | Ok names => Ok (raw :: names)
          end
      end
  end.

(** Lines 112-123: the ordered list of inferred names; any exception of
    the [try] block leaves it empty. *)
Definition importedNamesOf (content : jsstring) : list jsstring :=
  match JSON_parse content with
  | None => []
  | Some parsed =>
      match mapDisplayNames (parseImportedRegexList parsed) with
      | Throw _ => []
      | Ok names => List.filter (fun name => negb (Nat.eqb (length name) 0)) names
      end
  end.

Definition isManaged (item : TavernRegex) : bool :=
  startsWith (Regex.script_name item) REGEX_PREFIX.

(** Lines 74-76. *)
Definition getManagedRegexes : M (list TavernRegex) :=
  let! regexes := getTavernRegexes in
  ret (List.filter isManaged regexes).

(** Lines 78-80. *)
Definition getRegexById (regexId : jsstring) : M (option TavernRegex) :=
  let! regexes := getTavernRegexes in
  ret (List.find (fun item => str_eq (Regex.id item) regexId) regexes).

(** A file of the input element: its name, and its text unless reading it
    fails. *)
Record File : Type := mkFile {
  file_name : jsstring;
  file_text : option jsstring
}.

(** [{ ...item, script_name: ensureRegexPrefix(importedName) }]. *)
Definition renamedRule (importedName : jsstring) (item : TavernRegex)
  : TavernRegex :=
  {| Regex.id := Regex.id item;
     Regex.script_name := ensureRegexPrefix importedName;
     Regex.enabled := Regex.enabled item;
     Regex.replace_string := Regex.replace_string item |}.

(** [!beforeIds.has(item.id)]. *)
Definition isNewById (beforeIds : gset jsstring) (item : TavernRegex) : bool :=
  negb (bool_decide (Regex.id item ∈ beforeIds)).

(** The callback of lines 133-146; [nameIndex] is the variable it bumps. *)
Definition retagNew (beforeIds : gset jsstring) (importedNames : list jsstring)
  (item : TavernRegex) (nameIndex : nat) : TavernRegex * nat :=
  if negb (isNewById beforeIds item) then (item, nameIndex)
  else
    let importedName :=
      default (Regex.script_name item) (importedNames !! nameIndex) in
    (renamedRule importedName item, nameIndex + 1).

(** [importRawTavernRegex(file.name, content)] run against the host. *)
Definition importRaw (fileName content : jsstring) : M bool :=
  fun h =>
    let '(imported, rs) :=
      importRawTavernRegex fileName content (tavern_regexes h) in
    (Ok imported, set_tavern_regexes rs h).

(** Lines 95-151; [files] is [input.files]. *)
Definition importRegexFromFile (files : list File) : M unit :=
  match files with
  | [] => ret tt
  | file :: _ =>
      match file_text file with
      | None => toastr ReadFileFailed
      | Some content =>
          let! before := getTavernRegexes in
          let beforeIds : gset jsstring :=
            list_to_set (List.map Regex.id before) in
          let importedNames := importedNamesOf content in
          let! imported := importRaw (file_name file) content in
          if negb imported then toastr ImportFailed
          else
            let! _ := updateTavernRegexesWith (fun regexes =>
                        map_st (retagNew beforeIds importedNames) regexes 0) in
            let! managed := getManagedRegexes in
            let after := length managed in
            toastr (Imported after)
      end
  end.

(** [entry.uid === binding.worldbook_entry_uid] and
    [regex.id === binding.regex_id]. *)
Definition entryMatches (binding : StatusBarBinding) (entry : WorldbookEntry)
  : bool :=
  num_eq (Entry.uid entry) (Binding.worldbook_entry_uid binding).

Definition regexMatches (binding : StatusBarBinding) (regex : TavernRegex)
  : bool :=
  str_eq (Regex.id regex) (Binding.regex_id binding).

(** The result of [getBindingLiveState]; [None] is [null]. *)
Record LiveState : Type := mkLive {
  worldbook_enabled : option bool;
  regex_enabled : option bool
}.

(** Lines 153-179. *)
Definition getBindingLiveState (binding : StatusBarBinding) : M LiveState :=
  let! worldbookEnabled :=
    tryCatch
      (let! worldbook := getWorldbook (Binding.worldbook_name binding) in
       match List.find (entryMatches binding) worldbook with
       | Some entry => ret (Some (Entry.enabled entry))
       | None => ret None
       end)
      (fun _ => ret None) in
  let! regex := getRegexById (Binding.regex_id binding) in
  let regexEnabled :=
    match regex with
    | Some regex => Some (Regex.enabled regex)
    | None => None
    end in
  ret {| worldbook_enabled := worldbookEnabled;
         regex_enabled := regexEnabled |}.

(** [{ ...entry, enabled }]. *)
Definition entryWith (enabled : bool) (entry : WorldbookEntry)
  : WorldbookEntry :=
  {| Entry.uid := Entry.uid entry;
     Entry.name := Entry.name entry;
     Entry.enabled := enabled |}.

(** [{ ...regex, enabled, script_name: ensureRegexPrefix(regex.script_name) }]. *)
Definition regexWith (enabled : bool) (regex : TavernRegex) : TavernRegex :=
  {| Regex.id := Regex.id regex;
     Regex.script_name := ensureRegexPrefix (Regex.script_name regex);
     Regex.enabled := enabled;
     Regex.replace_string := Regex.replace_string regex |}.

(** The callback of lines 186-192; [worldbookMatched] is the flag it sets. *)
Definition toggleEntry (binding : StatusBarBinding) (enabled : bool)
  (entry : WorldbookEntry) (worldbookMatched : bool) : WorldbookEntry * bool :=
  if entryMatches binding entry then (entryWith enabled entry, true)
  else (entry, worldbookMatched).

(** The callback of lines 196-202; [regexMatched] is the flag it sets. *)
Definition toggleRegex (binding : StatusBarBinding) (enabled : bool)
  (regex : TavernRegex) (regexMatched : bool) : TavernRegex * bool :=
  if regexMatches binding regex then (regexWith enabled regex, true)
  else (regex, regexMatched).

(** Lines 182-203: the two updates, returning
    [(worldbookMatched, regexMatched)]. *)
Definition setBindingEnabled_updates (binding : StatusBarBinding)
  (enabled : bool) : M (bool * bool) :=
  let! worldbookMatched :=
    updateWorldbookWith (Binding.worldbook_name binding)
      (fun worldbook => map_st (toggleEntry binding enabled) worldbook false) in
  let! regexMatched :=
    updateTavernRegexesWith
      (fun regexes => map_st (toggleRegex binding enabled) regexes false) in
  ret (worldbookMatched, regexMatched).

(** Lines 181-208. *)
Definition setBindingEnabled (binding : StatusBarBinding) (enabled : bool)
  : M unit :=
  let! matched := setBindingEnabled_updates binding enabled in
  if negb (fst matched) && negb (snd matched) then throw SyncError
  else ret tt.

(** What the two callbacks make of one element. *)
Definition toggledEntry (binding : StatusBarBinding) (enabled : bool)
  (entry : WorldbookEntry) : WorldbookEntry :=
  fst (toggleEntry binding enabled entry false).

Definition toggledRegex (binding : StatusBarBinding) (enabled : bool)
  (regex : TavernRegex) : TavernRegex :=
  fst (toggleRegex binding enabled regex false).

(** The host after both updates of [setBindingEnabled] went through. *)
Definition toggledHost (binding : StatusBarBinding) (enabled : bool)
  (worldbook : list WorldbookEntry) (h : Host) : Host :=
  mkHost
    (<[Binding.worldbook_name binding :=
         List.map (toggledEntry binding enabled) worldbook]> (worldbooks h))
    (List.map (toggledRegex binding enabled) (tavern_regexes h))
    (bindings h) (uuid_counter h)
    ((events h ++ [WorldbookReplaced (Binding.worldbook_name binding)])
       ++ [RegexesReplaced]).

(** A number read from a [select]: [Number.isInteger] holds of [Integer z]
    only. *)
Inductive jsnumber : Type :=
| Integer (z : Z)
| NonInteger.

Definition isInteger (n : jsnumber) : bool :=
  match n with
  | Integer _ => true
  | NonInteger => false
  end.

(** [uid === n] for an integral [uid]. *)
Definition num_eq_js (uid : Z) (n : jsnumber) : bool :=
  match n with
  | Integer z => num_eq uid z
  | NonInteger => false
  end.

Record WorldbookSelection : Type := mkSelection {
  worldbookName : jsstring;
  entryUid : jsnumber
}.

(** [SillyTavern.uuidv4()]. *)
Definition uuid : M jsstring :=
  fun h =>
    (Ok (uuidv4 (uuid_counter h)),
     mkHost (worldbooks h) (tavern_regexes h) (bindings h)
            (S (uuid_counter h)) (events h)).

(** The predicate of lines 469-472. *)
Definition isDuplicate (wbItem : WorldbookSelection) (regexIdItem : jsstring)
  (binding : StatusBarBinding) : bool :=
  str_eq (Binding.worldbook_name binding) (worldbookName wbItem)
  && num_eq_js (Binding.worldbook_entry_uid binding) (entryUid wbItem)
  && str_eq (Binding.regex_id binding) regexIdItem.

(** [entry.name || alt]. *)
Definition nameOr (entry : WorldbookEntry) (alt : jsstring) : jsstring :=
  if str_eq (Entry.name entry) [] then alt else Entry.name entry.

(** The object pushed at lines 478-486. *)
Definition newBinding (newId : jsstring) (wbItem : WorldbookSelection)
  (entry : WorldbookEntry) (regex : TavernRegex) : StatusBarBinding :=
  {| Binding.id := newId;
     Binding.label :=
       worldbookName wbItem ++ lit " / "
         ++ nameOr entry (ToString (JNum (Entry.uid entry)));
     Binding.worldbook_name := worldbookName wbItem;
     Binding.worldbook_entry_uid := Entry.uid entry;
     Binding.worldbook_entry_name :=
       nameOr entry (UNNAMED_ENTRY ++ ToString (JNum (Entry.uid entry)));
     Binding.regex_id := Regex.id regex;
     Binding.regex_script_name := Regex.script_name regex |}.

(** The host after [settings.bindings.push(b)] with a freshly generated
    id. *)
Definition pushed (b : StatusBarBinding) (h : Host) : Host :=
  mkHost (worldbooks h) (tavern_regexes h) (bindings h ++ [b])
         (S (uuid_counter h)) (events h).

(** The inner loop, lines 462-488. *)
Fixpoint createForRegexes (wbItem : WorldbookSelection) (entry : WorldbookEntry)
  (managedRegexes : list TavernRegex) (regexSelections : list jsstring)
  (createdCount : nat) : M nat :=
  match regexSelections with
  | [] => ret createdCount
  | regexIdItem :: rest =>
      match List.find (fun regexItem => str_eq (Regex.id regexItem) regexIdItem)
                      managedRegexes with
      | None => createForRegexes wbItem entry managedRegexes rest createdCount
      | Some regex =>
          let! current := getBindings in
          match List.find (isDuplicate wbItem regexIdItem) current with
          | Some _ =>
              createForRegexes wbItem entry managedRegexes rest createdCount
          | None =>
              let! newId := uuid in
              let! _ := putBindings
                          (current ++ [newBinding newId wbItem entry regex]) in
              createForRegexes wbItem entry managedRegexes rest
                               (createdCount + 1)
          end
      end
  end.

(** The outer loop, lines 455-489. *)
Fixpoint createForWorldbooks (managedRegexes : list TavernRegex)
  (regexSelections : list jsstring)
  (worldbookSelections : list WorldbookSelection) (createdCount : nat)
  : M nat :=
  match worldbookSelections with
  | [] => ret createdCount
  | wbItem :: rest =>
      let! entries := getWorldbook (worldbookName wbItem) in
      match List.find (fun entryItem =>
                         num_eq_js (Entry.uid entryItem) (entryUid wbItem))
                      entries with
      | None =>
          createForWorldbooks managedRegexes regexSelections rest createdCount
      | Some entry =>
          let! createdCount' :=
            createForRegexes wbItem entry managedRegexes regexSelections
                             createdCount in
          createForWorldbooks managedRegexes regexSelections rest createdCount'
      end
  end.

(** Lines 415-498; the two arguments are the selections read from the
    panel (lines 419-440). *)
Definition createBindingFromSelection
  (worldbookSelections : list WorldbookSelection)
  (regexSelections : list jsstring) : M unit :=
  let validWorldbookSelections :=
    List.filter (fun item => negb (str_eq (worldbookName item) [])
                             && isInteger (entryUid item))
                worldbookSelections in
  let validRegexSelections :=
    List.filter (fun item => negb (Nat.eqb (length item) 0)) regexSelections in
  if Nat.eqb (length validWorldbookSelections) 0
     || Nat.eqb (length validRegexSelections) 0
  then toastr SelectionIncomplete
  else
    let! managedRegexes := getManagedRegexes in
    let! createdCount :=
      createForWorldbooks managedRegexes validRegexSelections
                          validWorldbookSelections 0 in
    if Nat.eqb createdCount 0 then toastr NoBindingCreated
    else
      let! _ := saveSettings in
      toastr (BindingsCreated createdCount).

(** [settings.bindings.find(item => item.id === id)]. *)
Definition findBinding (id : jsstring) (bs : list StatusBarBinding)
  : option StatusBarBinding :=
  List.find (fun item => str_eq (Binding.id item) id) bs.

(** Lines 324-355: the entry options of the main worldbook select and of
    each extra row.  [selected] is the values of those selects, in that
    order; an empty value gets a placeholder, any other one has its
    worldbook read. *)
Fixpoint renderEntryOptions (selected : list jsstring) : M unit :=
  match selected with
  | [] => ret tt
  | worldbookName :: rest =>
      if str_eq worldbookName [] then renderEntryOptions rest
      else
        let! _ := getWorldbook worldbookName in
        renderEntryOptions rest
  end.

(** Lines 392-410: one row per binding, with its live state. *)
Fixpoint renderStyleList (items : list StatusBarBinding) : M unit :=
  match items with
  | [] => ret tt
  | item :: rest =>
      let! _ := getBindingLiveState item in
      renderStyleList rest
  end.

(** Lines 538-543.  [renderWorldbookOptions] (lines 304-322) lists the
    worldbook names and refills the worldbook selects, reading no
    worldbook; [selected] is the values the selects hold when
    [renderEntryOptions] reads them.  [renderRegexOptions] reads the
    managed rules. *)
Definition refreshManagerView (selected : list jsstring) : M unit :=
  let! _ := renderEntryOptions selected in
  let! _ := getManagedRegexes in
  let! current := getBindings in
  renderStyleList current.

(** The handler of [createBinding], lines 592-595. *)
Definition onCreateBinding (worldbookSelections : list WorldbookSelection)
  (regexSelections : list jsstring) (selected : list jsstring) : M unit :=
  let! _ := createBindingFromSelection worldbookSelections regexSelections in
  refreshManagerView selected.

(** The handler of the file input, lines 568-571. *)
Definition onRegexFile (files : list File) (selected : list jsstring)
  : M unit :=
  let! _ := importRegexFromFile files in
  refreshManagerView selected.

(** The handler of [toggleBinding], lines 597-615. *)
Definition onToggleBinding (id : jsstring) (selected : list jsstring)
  : M unit :=
  let! current := getBindings in
  match findBinding id current with
  | None => ret tt
  | Some binding =>
      let! live := getBindingLiveState binding in
      let targetEnabled :=
        negb (bool_decide (worldbook_enabled live = Some true)
              && bool_decide (regex_enabled live = Some true)) in
      let! _ :=
        tryCatch
          (let! _ := setBindingEnabled binding targetEnabled in
           toastr (Toggled (Binding.label binding) targetEnabled))
          (fun _ => toastr ToggleFailed) in
      refreshManagerView selected
  end.

(** The handler of [deleteBinding], lines 617-623. *)
Definition onDeleteBinding (id : jsstring) (selected : list jsstring)
  : M unit :=
  let! current := getBindings in
  let! _ := putBindings
              (List.filter (fun item => negb (str_eq (Binding.id item) id))
                           current) in
  let! _ := saveSettings in
  let! _ := refreshManagerView selected in
  toastr BindingDeleted.

(** [binding.label = renamed] on the binding [find] returned: the first
    one with that id. *)
Fixpoint relabel (id renamed : jsstring) (bs : list StatusBarBinding)
  : list StatusBarBinding :=
  match bs with
  | [] => []
  | b :: rest =>
      if str_eq (Binding.id b) id then
        {| Binding.id := Binding.id b;
           Binding.label := renamed;
           Binding.worldbook_name := Binding.worldbook_name b;
           Binding.worldbook_entry_uid := Binding.worldbook_entry_uid b;
           Binding.worldbook_entry_name := Binding.worldbook_entry_name b;
           Binding.regex_id := Binding.regex_id b;
           Binding.regex_script_name := Binding.regex_script_name b |} :: rest
      else b :: relabel id renamed rest
  end.

(** The handler of [renameStyle], lines 625-641; [renamed] is what
    [promptText] returned, [None] for [null]. *)
Definition onRenameStyle (id : jsstring) (renamed : option jsstring)
  (selected : list jsstring) : M unit :=
  let! current := getBindings in
  match findBinding id current with
  | None => ret tt
  | Some _ =>
      match renamed with
      | None | Some [] => ret tt
      | Some renamed =>
          let! _ := putBindings (relabel id renamed current) in
          let! _ := saveSettings in
          let! _ := refreshManagerView selected in
          toastr LabelUpdated
      end
  end.

(** The operations a user can trigger from the panel, each with the values
    the worldbook selects hold when the view is refreshed. *)
Inductive Operation : Type :=
| Create (worldbookSelections : list WorldbookSelection)
         (regexSelections : list jsstring) (selected : list jsstring)
| Toggle (id : jsstring) (selected : list jsstring)
| Delete (id : jsstring) (selected : list jsstring)
| Rename (id : jsstring) (renamed : option jsstring)
         (selected : list jsstring)
| Import (files : list File) (selected : list jsstring).

Definition perform (op : Operation) : M unit :=
  match op with
  | Create worldbookSelections regexSelections selected =>
      onCreateBinding worldbookSelections regexSelections selected
  | Toggle id selected => onToggleBinding id selected
  | Delete id selected => onDeleteBinding id selected
  | Rename id renamed selected => onRenameStyle id renamed selected
  | Import files selected => onRegexFile files selected
  end.

(** The identity a binding refers to, and the registry invariant of the
    data model: no two bindings refer to the same entry and rule. *)
Definition tupleOf (b : StatusBarBinding) : jsstring * Z * jsstring :=
  (Binding.worldbook_name b, Binding.worldbook_entry_uid b, Binding.regex_id b).

Definition tupleUnique (bs : list StatusBarBinding) : Prop :=
  NoDup (List.map tupleOf bs).

End Engine.

(* ===================================================================== *)
(** ** The specification's vocabulary *)
(* ===================================================================== *)

(** The shapes of an import payload and the descriptor list each one
    yields, in the order the specification tries them: a list; an object
    with a list field [regex_scripts]; an object with an object field
    [data] with a list field [regex_scripts]; any other object, wrapped;
    anything else, the empty list. *)
Inductive Shape : JSON -> list JSON -> Prop :=
| ShapeList (items : list JSON) :
    Shape (JArr items) items
| ShapeField (props : list (jsstring * JSON)) (items : list JSON) :
    alist_get (lit "regex_scripts") props = Some (JArr items) ->
    Shape (JObj props) items
| ShapeNested (props inner : list (jsstring * JSON)) (items : list JSON) :
    (forall l, alist_get (lit "regex_scripts") props <> Some (JArr l)) ->
    alist_get (lit "data") props = Some (JObj inner) ->
    alist_get (lit "regex_scripts") inner = Some (JArr items) ->
    Shape (JObj props) items
| ShapeSingle (props : list (jsstring * JSON)) :
    (forall l, alist_get (lit "regex_scripts") props <> Some (JArr l)) ->
    (forall inner l, alist_get (lit "data") props = Some (JObj inner) ->
                     alist_get (lit "regex_scripts") inner <> Some (JArr l)) ->
    Shape (JObj props) [JObj props]
| ShapeNull : Shape JNull []
| ShapeBool (b : bool) : Shape (JBool b) []
| ShapeNum (n : Z) : Shape (JNum n) []
| ShapeStr (s : jsstring) : Shape (JStr s) [].

(** The fields a descriptor's name is looked for in, in priority order. *)
Definition NAME_KEYS : list jsstring :=
  [lit "script_name"; lit "scriptName"; lit "name"; lit "title"].

(** A field that is there and is not [null]. *)
Definition present (v : jsvalue) : jsvalue :=
  match v with
  | None | Some JNull => None
  | Some _ => v
  end.

(** The value of the first of [keys] that is present in an object. *)
Fixpoint firstPresent (keys : list jsstring) (props : list (jsstring * JSON))
  : jsvalue :=
  match keys with
  | [] => None
  | k :: rest =>
      match present (alist_get k props) with
      | Some v => Some v
      | None => firstPresent rest props
      end
  end.

(** The value a descriptor is named after, if any: only an object has
    one. *)
Definition nameValue (item : JSON) : jsvalue :=
  match item with
  | JObj props => firstPresent NAME_KEYS props
  | _ => None
  end.

(** The best-effort display name of a descriptor: the text of the first
    name field that is present, trimmed, and the empty string when there is
    none. *)
Definition descriptorName `{HostApi} (item : JSON) : jsstring :=
  match nameValue item with
  | Some (JStr s) => trim s
  | Some v => trim (ToString v)
  | None => []
  end.

(** Whether the name of a descriptor can be read at all: the descriptor is
    not [null] and its name value converts to a string. *)
Definition nameReadable (item : JSON) : bool :=
  match item with
  | JNull => false
  | _ =>
      match nameValue item with
      | Some v => negb (stringThrows v)
      | None => true
      end
  end.

(** The ordered descriptor-name list: the display names of the
    descriptors, the empty ones discarded. *)
Definition descriptorNames `{HostApi} (items : list JSON) : list jsstring :=
  List.filter (fun name => negb (Nat.eqb (length name) 0))
              (List.map descriptorName items).

(** The first selected worldbook that cannot be read, if any, and what the
    refresh of the view ends with. *)
Fixpoint firstUnreadable (selected : list jsstring)
  (wbs : gmap jsstring (list WorldbookEntry)) : option jsstring :=
  match selected with
  | [] => None
  | worldbookName :: rest =>
      if str_eq worldbookName [] then firstUnreadable rest wbs
      else
        match wbs !! worldbookName with
        | Some _ => firstUnreadable rest wbs
        | None => Some worldbookName
        end
  end.

Definition refreshOutcome (selected : list jsstring) (h : Host) : res unit :=
  match firstUnreadable selected (worldbooks h) with
  | Some worldbookName => Throw (HostError worldbookName)
  | None => Ok tt
  end.

(** Every worldbook selected in the panel can be read. *)
Definition allReadable (selected : list jsstring) (h : Host) : Prop :=
  forall worldbookName : jsstring,
    worldbookName ∈ selected -> worldbookName <> [] ->
    is_Some (worldbooks h !! worldbookName).

(** A rule is new when its id is not among the ids of the snapshot. *)
Definition isNewRule (before : list TavernRegex) (item : TavernRegex) : bool :=
  negb (bool_decide (Regex.id item ∈ List.map Regex.id before)).

(** The number of new rules the store holds before position [i]. *)
Definition newRulesBefore (before : list TavernRegex) (i : nat)
  (store : list TavernRegex) : nat :=
  length (List.filter (isNewRule before) (take i store)).

(** [h'] is [h] with the bindings [added] appended to the registry, the
    host's worldbooks and rules being the same. *)
Definition extends (h h' : Host) (added : list StatusBarBinding) : Prop :=
  bindings h' = bindings h ++ added
  /\ worldbooks h' = worldbooks h
  /\ tavern_regexes h' = tavern_regexes h
  /\ events h' = events h.

(** The bindings [added] refer to pairwise different tuples, none of which
    a binding of [existing] refers to. *)
Definition freshTuples (existing added : list StatusBarBinding) : Prop :=
  NoDup (List.map tupleOf added)
  /\ forall b, b ∈ added -> tupleOf b ∉ List.map tupleOf existing.

(* ===================================================================== *)
(** ** Sample hosts *)
(* ===================================================================== *)

Module Sample.

(** A rule as an import file describes it. *)
Definition descriptor (id script_name : jsstring) : JSON :=
  JObj [(lit "id", JStr id); (lit "script_name", JStr script_name)].

(** The payload [{ "regex_scripts": [{ "id": "r1", "script_name": "Foo" }] }]. *)
Definition payload : JSON :=
  JObj [(lit "regex_scripts", JArr [descriptor (lit "r1") (lit "Foo")])].

Definition importedRule : TavernRegex :=
  Regex.mk (lit "r1") (lit "Foo") false (lit "<div/>").

(** A host whose parser yields [payload] and whose ingestion appends
    [importedRule], refusing the file named "bad.json". *)
Definition api : HostApi :=
  {| JSON_parse := fun _ => Some payload;
     ToString := fun _ => lit "7";
     importRawTavernRegex := fun fileName _ regexes =>
       if str_eq fileName (lit "bad.json") then (false, regexes)
       else (true, regexes ++ [importedRule]);
     uuidv4 := fun n => lit "id-" ++ [N.of_nat n] |}.

Definition goodFile : File := mkFile (lit "good.json") (Some (lit "{}")).
Definition badFile : File := mkFile (lit "bad.json") (Some (lit "{}")).

(** A managed rule whose prefix was stripped by an external rename, and an
    untouched managed rule. *)
Definition driftedRule : TavernRegex :=
  Regex.mk (lit "r0") (lit "Bar") true (lit "<b/>").

Definition managedRule : TavernRegex :=
  Regex.mk (lit "r9") (REGEX_PREFIX ++ lit "Hp") false [].

Definition entry : WorldbookEntry := Entry.mk 7 (lit "Mood") false.
Definition otherEntry : WorldbookEntry := Entry.mk 8 (lit "Weather") true.

Definition binding : StatusBarBinding :=
  Binding.mk (lit "b1") (lit "wb / Mood") (lit "wb") 7 (lit "Mood")
             (lit "r0") (lit "Bar").

(** The binding's worldbook and rule are both there. *)
Definition host : Host :=
  mkHost {[ lit "wb" := [otherEntry; entry] ]} [managedRule; driftedRule]
         [binding] 0 [].

(** The binding's worldbook has been deleted; its rule is still there. *)
Definition hostWithoutWorldbook : Host :=
  mkHost ∅ [managedRule; driftedRule] [binding] 0 [].

(** The binding's entry has been deleted from its worldbook; its rule is
    still there. *)
Definition hostWithoutEntry : Host :=
  mkHost {[ lit "wb" := [otherEntry] ]} [managedRule; driftedRule]
         [binding] 0 [].

(** Nothing bound yet. *)
Definition emptyRegistry : Host :=
  mkHost {[ lit "wb" := [otherEntry; entry] ]} [managedRule; driftedRule]
         [] 0 [].

End Sample.

(* ===================================================================== *)
(** ** The rest of the engine *)
(* ===================================================================== *)

(** A string that neither begins nor ends with white space. *)
Definition trimmedString (s : jsstring) : Prop :=
  (forall c rest, s = c :: rest -> isWhiteSpace c = false)
  /\ (forall c front, s = front ++ [c] -> isWhiteSpace c = false).

(** [String.prototype.endsWith]. *)
Definition endsWith (s p : jsstring) : bool := startsWith (rev s) (rev p).

(** The three backquotes of a code fence, and the characters
    [[a-zA-Z0-9_-]] of its language tag. *)
Definition FENCE : jsstring := [0x60; 0x60; 0x60]%N.

Definition isFenceTagChar (c : N) : bool :=
  (N.leb 0x61 c && N.leb c 0x7A)
  || (N.leb 0x41 c && N.leb c 0x5A)
  || (N.leb 0x30 c && N.leb c 0x39)
  || N.eqb c 0x5F || N.eqb c 0x2D.

(** The greedy [[a-zA-Z0-9_-]*]: what is left after the longest run of tag
    characters. *)
Fixpoint dropFenceTag (s : jsstring) : jsstring :=
  match s with
  | [] => []
  | c :: s' => if isFenceTagChar c then dropFenceTag s' else s
  end.

(** Lines 500-507.  The pattern [^```[a-zA-Z0-9_-]*\n([\s\S]*?)\n```$]
    has no flag: [^] and [$] are the two ends of the string.  The tag run
    must be followed by a line feed, which is no tag character, so only the
    longest run can match; the lazy group then grows until what is left is
    exactly a line feed and the closing fence, so the group is the rest
    without its last four code units. *)
Definition stripCodeFence (text : jsstring) : jsstring :=
  let trimmed := trim text in
  if startsWith trimmed FENCE then
    match dropFenceTag (drop 3 trimmed) with
    | 0x0A%N :: rest =>
        if endsWith rest (0x0A%N :: FENCE)
        then trim (take (length rest - 4) rest)
        else trimmed
    | _ => trimmed
    end
  else trimmed.

(** What [openRegexPreview] (lines 509-536) shows: the error message when
    the rule is gone, the placeholder text when there is nothing to
    preview, the HTML otherwise. *)
Inductive Preview : Type :=
| PreviewMissing
| PreviewEmpty
| PreviewHtml (html : jsstring).

Definition openRegexPreview (binding : StatusBarBinding) : M Preview :=
  let! regex := getRegexById (Binding.regex_id binding) in
  match regex with
  | None => ret PreviewMissing
  | Some regex =>
      let html := stripCodeFence (Regex.replace_string regex) in
      if Nat.eqb (length html) 0 then ret PreviewEmpty
      else ret (PreviewHtml html)
  end.

(** [live.worldbook_enabled === true && live.regex_enabled === true]
    (lines 394 and 605). *)
Definition bothEnabled (live : LiveState) : bool :=
  bool_decide (worldbook_enabled live = Some true)
  && bool_decide (regex_enabled live = Some true).

(** The record [getBindingLiveState] returns on a host. *)
Definition liveStateOf (binding : StatusBarBinding) (h : Host) : LiveState :=
  {| worldbook_enabled :=
       match worldbooks h !! Binding.worldbook_name binding with
       | Some worldbook =>
           option_map Entry.enabled
                      (List.find (entryMatches binding) worldbook)
       | None => None
       end;
     regex_enabled :=
       option_map Regex.enabled
                  (List.find (regexMatches binding) (tavern_regexes h)) |}.

(** [{ ...binding, label }]: what [binding.label = renamed] leaves. *)
Definition withLabel (renamed : jsstring) (b : StatusBarBinding)
  : StatusBarBinding :=
  {| Binding.id := Binding.id b;
     Binding.label := renamed;
     Binding.worldbook_name := Binding.worldbook_name b;
     Binding.worldbook_entry_uid := Binding.worldbook_entry_uid b;
     Binding.worldbook_entry_name := Binding.worldbook_entry_name b;
     Binding.regex_id := Binding.regex_id b;
     Binding.regex_script_name := Binding.regex_script_name b |}.

(** The settings object of lines 24-42.
    [SillyTavern.extensionSettings[SETTINGS_KEY]] is absent ([None]) or an
    object whose [bindings] is an array or something else. *)
Module Settings.

Inductive Root : Type :=
| BindingsArray (bs : list StatusBarBinding)
| BindingsOther.

Definition Store : Type := option Root.

(** Lines 24-29: the root, created when it is absent. *)
Definition getSettingsRoot (s : Store) : Root * Store :=
  match s with
  | None => (BindingsArray [], Some (BindingsArray []))
  | Some root => (root, s)
  end.

(** Lines 31-37: the bindings of the settings it returns, and the store. *)
Definition loadSettings (s : Store) : list StatusBarBinding * Store :=
  let '(root, s1) := getSettingsRoot s in
  match root with
  | BindingsArray bs => (bs, s1)
  | BindingsOther => ([], Some (BindingsArray []))
  end.

(** Line 40: [getSettingsRoot().bindings = settings.bindings]. *)
Definition saveSettings (settings : list StatusBarBinding) (s : Store)
  : Store :=
  let '(_, _) := getSettingsRoot s in
  Some (BindingsArray settings).

End Settings.

(** A sequence of operations, one after the other; an operation that
    throws ends like any other (the panel's handlers are independent). *)
Fixpoint performAll `{HostApi} (ops : list Operation) (h : Host) : Host :=
  match ops with
  | [] => h
  | op :: rest => performAll rest (snd (perform op h))
  end.

(** A binding refers to an entry the host has and to a managed rule the
    host has, and carries that rule's name. *)
Definition wellReferenced (h : Host) (b : StatusBarBinding) : Prop :=
  (exists entries entry,
      worldbooks h !! Binding.worldbook_name b = Some entries
      /\ entry ∈ entries
      /\ Entry.uid entry = Binding.worldbook_entry_uid b)
  /\ (exists regex,
        regex ∈ tavern_regexes h
        /\ isManaged regex = true
        /\ Regex.id regex = Binding.regex_id b
        /\ Regex.script_name regex = Binding.regex_script_name b).

(** The ids of the registry are pairwise different and were all produced
    by the generator. *)
Definition idsGenerated `{HostApi} (h : Host) : Prop :=
  NoDup (List.map Binding.id (bindings h))
  /\ Forall (fun id => exists k, k < uuid_counter h /\ id = uuidv4 k)
            (List.map Binding.id (bindings h)).

(** Further sample data. *)
Module Scenario.

(** A binding of the sample worldbook whose entry and rule are both gone. *)
Definition orphan : StatusBarBinding :=
  Binding.mk (lit "b2") (lit "wb / Gone") (lit "wb") 99 (lit "Gone")
             (lit "zz") (lit "Gone").

(** The sample host with the orphan bound after the sample binding. *)
Definition twoBindings : Host :=
  mkHost {[ lit "wb" := [Sample.otherEntry; Sample.entry] ]}
         [Sample.managedRule; Sample.driftedRule]
         [Sample.binding; orphan] 0 [].

(** A replace string wrapped in a code fence tagged [html]. *)
Definition fenced : jsstring :=
  FENCE ++ lit "html" ++ [0x0A%N] ++ lit "<b>hi</b>" ++ [0x0A%N] ++ FENCE.

(** The sample entry selected together with its worldbook. *)
Definition selection : WorldbookSelection :=
  mkSelection (lit "wb") (Integer 7).

(** The sample host after binding the sample entry to the managed rule. *)
Definition created : Host :=
  snd (createBindingFromSelection (H := Sample.api) [selection] [lit "r9"]
                                  Sample.emptyRegistry).

Definition createdBinding : StatusBarBinding :=
  newBinding (H := Sample.api) (uuidv4 (HostApi := Sample.api) 0) selection
             Sample.entry Sample.managedRule.

(** A host whose parser yields the sample payload and whose ingestion
    appends two rules under names of its own, the payload describing one
    rule only. *)
Definition untitledRule : TavernRegex :=
  Regex.mk (lit "r1") (lit "Untitled") false (lit "<div/>").

Definition secondRule : TavernRegex :=
  Regex.mk (lit "r2") (lit "Second") true [].

Definition api : HostApi :=
  {| JSON_parse := fun _ => Some Sample.payload;
     ToString := fun _ => lit "7";
     importRawTavernRegex := fun _ _ regexes =>
       (true, regexes ++ [untitledRule; secondRule]);
     uuidv4 := fun n => lit "id-" ++ [N.of_nat n] |}.

(** A descriptor whose [script_name] is [null] and whose [name] is padded. *)
Definition paddedDescriptor : JSON :=
  JObj [(lit "name", JStr (lit " Bar ")); (lit "script_name", JNull)].

(** A descriptor whose [name] is an object with a [toString] of its own,
    which [String] cannot convert. *)
Definition unprintableDescriptor : JSON :=
  JObj [(lit "name", JObj [(lit "toString", JNum 1)])].

End Scenario.

(* ===================================================================== *)
(** ** Naming policy: properties *)
(* ===================================================================== *)

Lemma startsWith_app (p t : jsstring) : startsWith (p ++ t) p = true.
Proof.
  induction p as [|c p IH]; simpl; [reflexivity|].
  rewrite N.eqb_refl. exact IH.
Qed.

Lemma startsWith_inv (s p : jsstring) :
  startsWith s p = true -> exists t, s = p ++ t.
Proof.
  revert s. induction p as [|c p IH]; intros s Hs; simpl in Hs.
  - exists s. reflexivity.
  - destruct s as [|d s]; [discriminate|].
    apply andb_prop in Hs as [Hd Hs].
    apply N.eqb_eq in Hd. subst d.
    destruct (IH _ Hs) as [t ->]. exists t. reflexivity.
Qed.

Lemma ensureRegexPrefix_managed (s : jsstring) :
  startsWith (ensureRegexPrefix s) REGEX_PREFIX = true.
Proof.
  unfold ensureRegexPrefix.
  destruct (startsWith s REGEX_PREFIX) eqn:E; [exact E|].
  apply startsWith_app.
Qed.

(** C6. For every string, [ensureRegexPrefix] (the spec's
    [ensureManagedName]) returns a name that already starts with the
    namespace prefix unchanged, returns prefix + name for every other name,
    and is idempotent. *)
Theorem ensureRegexPrefix_policy :
  (forall t : jsstring,
      ensureRegexPrefix (REGEX_PREFIX ++ t) = REGEX_PREFIX ++ t)
  /\ (forall s : jsstring,
        (forall t, s <> REGEX_PREFIX ++ t) ->
        ensureRegexPrefix s = REGEX_PREFIX ++ s)
  /\ (forall x : jsstring,
        ensureRegexPrefix (ensureRegexPrefix x) = ensureRegexPrefix x).
Proof.
  split; [|split].
  - intros t. unfold ensureRegexPrefix.
    rewrite startsWith_app. reflexivity.
  - intros s Hs. unfold ensureRegexPrefix.
    destruct (startsWith s REGEX_PREFIX) eqn:E; [|reflexivity].
    apply startsWith_inv in E as [t Ht]. destruct (Hs t Ht).
  - intros x. unfold ensureRegexPrefix at 1.
    rewrite ensureRegexPrefix_managed. reflexivity.
Qed.

(* ===================================================================== *)
(** ** Lists, [find] and [map_st] *)
(* ===================================================================== *)

Section ListFacts.
Context {A B S : Type}.

Lemma find_none_iff (f : A -> bool) (l : list A) :
  List.find f l = None <-> forall x, x ∈ l -> f x = false.
Proof.
  induction l as [|a l IH]; simpl.
  - split; [intros _ x Hx; inversion Hx | reflexivity].
  - destruct (f a) eqn:Ea.
    + split; [discriminate|].
      intros Hall. rewrite (Hall a) in Ea; [discriminate | left].
    + rewrite IH. split.
      * intros Hall x Hx. apply elem_of_cons in Hx as [->|Hx]; auto.
      * intros Hall x Hx. apply Hall. right. exact Hx.
Qed.

Lemma find_first (f : A -> bool) (pre post : list A) (x : A) :
  (forall y, y ∈ pre -> f y = false) -> f x = true ->
  List.find f (pre ++ x :: post) = Some x.
Proof.
  induction pre as [|a pre IH]; intros Hpre Hx; simpl.
  - rewrite Hx. reflexivity.
  - rewrite (Hpre a) by left. apply IH; [|exact Hx].
    intros y Hy. apply Hpre. right. exact Hy.
Qed.

Lemma find_some_elem (f : A -> bool) (l : list A) (x : A) :
  List.find f l = Some x -> x ∈ l /\ f x = true.
Proof.
  intros Hf. apply List.find_some in Hf as [Hin Hfx].
  split; [apply list_elem_of_In; exact Hin | exact Hfx].
Qed.

Lemma find_exists (f : A -> bool) (l : list A) (x : A) :
  x ∈ l -> f x = true -> exists y, List.find f l = Some y.
Proof.
  intros Hin Hfx. destruct (List.find f l) as [y|] eqn:E; [eauto|].
  rewrite find_none_iff in E. rewrite (E x Hin) in Hfx. discriminate.
Qed.

Lemma existsb_false_iff (f : A -> bool) (l : list A) :
  existsb f l = false <-> forall x, x ∈ l -> f x = false.
Proof.
  induction l as [|a l IH]; simpl.
  - split; [intros _ x Hx; inversion Hx | reflexivity].
  - rewrite orb_false_iff, IH. split.
    + intros [Ha Hl] x Hx. apply elem_of_cons in Hx as [->|Hx]; auto.
    + intros Hall. split; [apply Hall; left | intros x Hx; apply Hall; right; exact Hx].
Qed.

(** A callback whose result does not depend on the captured variable maps
    like a pure function. *)
Lemma map_st_fst (f : A -> S -> B * S) (g : A -> B) (l : list A) (s : S) :
  (forall a s', fst (f a s') = g a) ->
  fst (map_st f l s) = List.map g l.
Proof.
  intros Hg. revert s. induction l as [|a l IH]; intros s; simpl.
  - reflexivity.
  - specialize (Hg a s). destruct (f a s) as [b s1]. simpl in Hg.
    specialize (IH s1). destruct (map_st f l s1) as [bs s2].
    simpl in *. congruence.
Qed.

Lemma map_st_length (f : A -> S -> B * S) (l : list A) (s : S) :
  length (fst (map_st f l s)) = length l.
Proof.
  revert s. induction l as [|a l IH]; intros s; simpl; [reflexivity|].
  destruct (f a s) as [b s1]. specialize (IH s1).
  destruct (map_st f l s1) as [bs s2]. simpl in *. lia.
Qed.

End ListFacts.

(** A flag callback: the flag ends up set exactly when it was set before
    or some element matched. *)
Lemma map_st_flag {A : Type} (p : A -> bool) (g : A -> A) (l : list A)
  (m : bool) :
  snd (map_st (fun a matched => if p a then (g a, true) else (a, matched)) l m)
  = m || existsb p l.
Proof.
  revert m. induction l as [|a l IH]; intros m; simpl.
  - rewrite orb_false_r. reflexivity.
  - destruct (p a) eqn:Ea.
    + specialize (IH true).
      destruct (map_st _ l true) as [bs s2]. simpl in *.
      rewrite IH. rewrite orb_true_r. reflexivity.
    + specialize (IH m).
      destruct (map_st _ l m) as [bs s2]. simpl in *. exact IH.
Qed.

(* ===================================================================== *)
(** ** Dual-resource toggle and live state: properties *)
(* ===================================================================== *)

Lemma toggleEntry_fst (binding : StatusBarBinding) (enabled : bool)
  (entry : WorldbookEntry) (m : bool) :
  fst (toggleEntry binding enabled entry m) = toggledEntry binding enabled entry.
Proof.
  unfold toggledEntry, toggleEntry.
  destruct (entryMatches binding entry); reflexivity.
Qed.

Lemma toggleRegex_fst (binding : StatusBarBinding) (enabled : bool)
  (regex : TavernRegex) (m : bool) :
  fst (toggleRegex binding enabled regex m) = toggledRegex binding enabled regex.
Proof.
  unfold toggledRegex, toggleRegex.
  destruct (regexMatches binding regex); reflexivity.
Qed.

Lemma toggledEntry_other (binding : StatusBarBinding) (enabled : bool)
  (entry : WorldbookEntry) :
  Entry.uid entry <> Binding.worldbook_entry_uid binding ->
  toggledEntry binding enabled entry = entry.
Proof.
  intros Hne. unfold toggledEntry, toggleEntry, entryMatches, num_eq.
  destruct (Z.eqb_spec (Entry.uid entry) (Binding.worldbook_entry_uid binding));
    [contradiction | reflexivity].
Qed.

Lemma toggledRegex_other (binding : StatusBarBinding) (enabled : bool)
  (regex : TavernRegex) :
  Regex.id regex <> Binding.regex_id binding ->
  toggledRegex binding enabled regex = regex.
Proof.
  intros Hne. unfold toggledRegex, toggleRegex, regexMatches, str_eq.
  rewrite bool_decide_eq_false_2 by exact Hne. reflexivity.
Qed.

Lemma toggledRegex_match (binding : StatusBarBinding) (enabled : bool)
  (regex : TavernRegex) :
  Regex.id regex = Binding.regex_id binding ->
  toggledRegex binding enabled regex = regexWith enabled regex.
Proof.
  intros Heq. unfold toggledRegex, toggleRegex, regexMatches, str_eq.
  rewrite bool_decide_eq_true_2 by exact Heq. reflexivity.
Qed.

(** The two updates, run: an unreadable worldbook rejects the first one
    and nothing else happens; otherwise both lists are mapped and the two
    flags tell whether some element matched. *)
Lemma setBindingEnabled_updates_unreadable (binding : StatusBarBinding)
  (enabled : bool) (h : Host) :
  worldbooks h !! Binding.worldbook_name binding = None ->
  setBindingEnabled_updates binding enabled h
  = (Throw (HostError (Binding.worldbook_name binding)), h).
Proof.
  intros Hwb. unfold setBindingEnabled_updates, bind, updateWorldbookWith.
  rewrite Hwb. reflexivity.
Qed.

Lemma setBindingEnabled_updates_readable (binding : StatusBarBinding)
  (enabled : bool) (h : Host) (worldbook : list WorldbookEntry) :
  worldbooks h !! Binding.worldbook_name binding = Some worldbook ->
  setBindingEnabled_updates binding enabled h
  = (Ok (existsb (entryMatches binding) worldbook,
         existsb (regexMatches binding) (tavern_regexes h)),
     toggledHost binding enabled worldbook h).
Proof.
  intros Hwb.
  unfold setBindingEnabled_updates, bind, updateWorldbookWith,
    updateTavernRegexesWith.
  rewrite Hwb.
  pose proof (map_st_fst (toggleEntry binding enabled)
                (toggledEntry binding enabled) worldbook false
                (fun a s' => toggleEntry_fst binding enabled a s')) as He.
  pose proof (map_st_flag (entryMatches binding) (entryWith enabled)
                worldbook false) as Hef.
  change (fun a matched => if entryMatches binding a
                           then (entryWith enabled a, true) else (a, matched))
    with (toggleEntry binding enabled) in Hef.
  destruct (map_st (toggleEntry binding enabled) worldbook false)
    as [worldbook' wm].
  simpl in He, Hef. subst worldbook' wm. simpl.
  pose proof (map_st_fst (toggleRegex binding enabled)
                (toggledRegex binding enabled) (tavern_regexes h) false
                (fun a s' => toggleRegex_fst binding enabled a s')) as Hr.
  pose proof (map_st_flag (regexMatches binding) (regexWith enabled)
                (tavern_regexes h) false) as Hrf.
  change (fun a matched => if regexMatches binding a
                           then (regexWith enabled a, true) else (a, matched))
    with (toggleRegex binding enabled) in Hrf.
  destruct (map_st (toggleRegex binding enabled) (tavern_regexes h) false)
    as [regexes' rm].
  simpl in Hr, Hrf. subst regexes' rm. reflexivity.
Qed.

Lemma setBindingEnabled_unreadable (binding : StatusBarBinding)
  (enabled : bool) (h : Host) :
  worldbooks h !! Binding.worldbook_name binding = None ->
  setBindingEnabled binding enabled h
  = (Throw (HostError (Binding.worldbook_name binding)), h).
Proof.
  intros Hwb. unfold setBindingEnabled, bind.
  rewrite setBindingEnabled_updates_unreadable by exact Hwb. reflexivity.
Qed.

Lemma setBindingEnabled_readable (binding : StatusBarBinding)
  (enabled : bool) (h : Host) (worldbook : list WorldbookEntry) :
  worldbooks h !! Binding.worldbook_name binding = Some worldbook ->
  setBindingEnabled binding enabled h
  = (if negb (existsb (entryMatches binding) worldbook)
        && negb (existsb (regexMatches binding) (tavern_regexes h))
     then Throw SyncError else Ok tt,
     toggledHost binding enabled worldbook h).
Proof.
  intros Hwb. unfold setBindingEnabled, bind.
  rewrite (setBindingEnabled_updates_readable _ _ _ _ Hwb). simpl.
  destruct (negb _ && negb _); reflexivity.
Qed.

(** While the binding's worldbook can be read, the toggle fails, with
    [SyncError], exactly when no entry has the binding's uid and no rule
    has the binding's id; in every other case it completes. *)
Lemma setBindingEnabled_syncError_iff (binding : StatusBarBinding)
  (enabled : bool) (h : Host) (worldbook : list WorldbookEntry) :
  worldbooks h !! Binding.worldbook_name binding = Some worldbook ->
  (fst (setBindingEnabled binding enabled h) = Throw SyncError <->
   (forall entry, entry ∈ worldbook ->
                  Entry.uid entry <> Binding.worldbook_entry_uid binding)
   /\ (forall regex, regex ∈ tavern_regexes h ->
                     Regex.id regex <> Binding.regex_id binding))
  /\ (fst (setBindingEnabled binding enabled h) = Throw SyncError
      \/ fst (setBindingEnabled binding enabled h) = Ok tt).
Proof.
  intros Hwb. rewrite (setBindingEnabled_readable _ _ _ _ Hwb). simpl.
  destruct (existsb (entryMatches binding) worldbook) eqn:Ee;
    destruct (existsb (regexMatches binding) (tavern_regexes h)) eqn:Er;
    simpl; (split; [split|]); try discriminate; auto.
  all: try (intros [He Hr]).
  - apply existsb_exists in Ee as [e [Hin Hm]].
    apply list_elem_of_In in Hin. destruct (He e Hin).
    apply Z.eqb_eq. exact Hm.
  - apply existsb_exists in Ee as [e [Hin Hm]].
    apply list_elem_of_In in Hin. destruct (He e Hin).
    apply Z.eqb_eq. exact Hm.
  - apply existsb_exists in Er as [r [Hin Hm]].
    apply list_elem_of_In in Hin. destruct (Hr r Hin).
    apply bool_decide_eq_true_1 in Hm. exact Hm.
  - intros _. rewrite existsb_false_iff in Ee.
    rewrite existsb_false_iff in Er. split.
    + intros e Hin Heq. specialize (Ee e Hin).
      unfold entryMatches, num_eq in Ee. apply Z.eqb_neq in Ee. auto.
    + intros r Hin Heq. specialize (Er r Hin).
      unfold regexMatches, str_eq in Er.
      apply bool_decide_eq_false_1 in Er. auto.
Qed.

(** C1. A binding whose worldbook has been deleted while its rule is
    alive: the rule side would match, yet [setBindingEnabled] does not
    complete; the rejected worldbook update escapes before the rule update
    runs and the host is left as it was.  When only the entry has been
    deleted from a readable worldbook the same call completes. *)
Theorem setBindingEnabled_unreadable_worldbook_escapes :
  Sample.driftedRule ∈ tavern_regexes Sample.hostWithoutWorldbook
  /\ Regex.id Sample.driftedRule = Binding.regex_id Sample.binding
  /\ setBindingEnabled Sample.binding true Sample.hostWithoutWorldbook
     = (Throw (HostError (lit "wb")), Sample.hostWithoutWorldbook)
  /\ fst (setBindingEnabled Sample.binding true Sample.hostWithoutEntry)
     = Ok tt.
Proof.
  split; [|split; [|split]].
  - right. left.
  - reflexivity.
  - apply setBindingEnabled_unreadable. reflexivity.
  - rewrite (setBindingEnabled_readable _ _ _ [Sample.otherEntry]);
      reflexivity.
Qed.

(** The live state, run. *)
Lemma getBindingLiveState_run (binding : StatusBarBinding) (h : Host) :
  getBindingLiveState binding h
  = (Ok {| worldbook_enabled :=
             match worldbooks h !! Binding.worldbook_name binding with
             | Some worldbook =>
                 option_map Entry.enabled
                            (List.find (entryMatches binding) worldbook)
             | None => None
             end;
           regex_enabled :=
             option_map Regex.enabled
                        (List.find (regexMatches binding) (tavern_regexes h)) |},
     h).
Proof.
  unfold getBindingLiveState, bind, tryCatch, getWorldbook, getRegexById,
    getTavernRegexes, bind, ret.
  change (fun item => str_eq (Regex.id item) (Binding.regex_id binding))
    with (regexMatches binding).
  destruct (worldbooks h !! Binding.worldbook_name binding) as [worldbook|].
  - destruct (List.find (entryMatches binding) worldbook);
      destruct (List.find (regexMatches binding) (tavern_regexes h));
      reflexivity.
  - destruct (List.find (regexMatches binding) (tavern_regexes h));
      reflexivity.
Qed.

Lemma entryMatches_false (binding : StatusBarBinding) (entry : WorldbookEntry) :
  Entry.uid entry <> Binding.worldbook_entry_uid binding ->
  entryMatches binding entry = false.
Proof. intros Hne. apply Z.eqb_neq. exact Hne. Qed.

Lemma regexMatches_false (binding : StatusBarBinding) (regex : TavernRegex) :
  Regex.id regex <> Binding.regex_id binding ->
  regexMatches binding regex = false.
Proof. intros Hne. apply bool_decide_eq_false_2. exact Hne. Qed.

(** C2. [getBindingLiveState] always returns, leaving the host as it was:
    [worldbook_enabled] is [null] when the worldbook cannot be read or holds
    no entry with the binding's uid, and the [enabled] of the first such
    entry otherwise; [regex_enabled] is [null] when no rule has the
    binding's [regex_id], and the [enabled] of the first such rule
    otherwise. *)
Theorem getBindingLiveState_never_throws (binding : StatusBarBinding)
  (h : Host) :
  exists live : LiveState,
    getBindingLiveState binding h = (Ok live, h)
    /\ (worldbooks h !! Binding.worldbook_name binding = None ->
        worldbook_enabled live = None)
    /\ (forall worldbook,
          worldbooks h !! Binding.worldbook_name binding = Some worldbook ->
          (forall entry, entry ∈ worldbook ->
             Entry.uid entry <> Binding.worldbook_entry_uid binding) ->
          worldbook_enabled live = None)
    /\ (forall pre entry post,
          worldbooks h !! Binding.worldbook_name binding
            = Some (pre ++ entry :: post) ->
          (forall earlier, earlier ∈ pre ->
             Entry.uid earlier <> Binding.worldbook_entry_uid binding) ->
          Entry.uid entry = Binding.worldbook_entry_uid binding ->
          worldbook_enabled live = Some (Entry.enabled entry))
    /\ ((forall regex, regex ∈ tavern_regexes h ->
           Regex.id regex <> Binding.regex_id binding) ->
        regex_enabled live = None)
    /\ (forall pre regex post,
          tavern_regexes h = pre ++ regex :: post ->
          (forall earlier, earlier ∈ pre ->
             Regex.id earlier <> Binding.regex_id binding) ->
          Regex.id regex = Binding.regex_id binding ->
          regex_enabled live = Some (Regex.enabled regex)).
Proof.
  eexists. split; [apply getBindingLiveState_run|]. simpl.
  split; [|split; [|split; [|split]]].
  - intros ->. reflexivity.
  - intros worldbook -> Hnone.
    assert (List.find (entryMatches binding) worldbook = None) as ->;
      [|reflexivity].
    apply find_none_iff. intros e He. apply entryMatches_false. auto.
  - intros pre entry post -> Hpre Hentry.
    rewrite (find_first (entryMatches binding) pre post entry);
      [reflexivity| |].
    + intros e He. apply entryMatches_false. auto.
    + apply Z.eqb_eq. exact Hentry.
  - intros Hnone.
    assert (List.find (regexMatches binding) (tavern_regexes h) = None) as ->;
      [|reflexivity].
    apply find_none_iff. intros r Hr. apply regexMatches_false. auto.
  - intros pre regex post -> Hpre Hregex.
    rewrite (find_first (regexMatches binding) pre post regex);
      [reflexivity| |].
    + intros r Hr. apply regexMatches_false. auto.
    + apply bool_decide_eq_true_2. exact Hregex.
Qed.

(** The flag [regexMatched] is set exactly when the call got past the
    worldbook update and some rule has the binding's id. *)
Lemma regexMatched_iff (binding : StatusBarBinding) (enabled : bool)
  (h : Host) (worldbookMatched : bool) :
  fst (setBindingEnabled_updates binding enabled h)
    = Ok (worldbookMatched, true)
  <-> exists worldbook,
        worldbooks h !! Binding.worldbook_name binding = Some worldbook
        /\ worldbookMatched = existsb (entryMatches binding) worldbook
        /\ exists regex, regex ∈ tavern_regexes h
                         /\ Regex.id regex = Binding.regex_id binding.
Proof.
  destruct (worldbooks h !! Binding.worldbook_name binding) as [worldbook|]
    eqn:Hwb.
  - rewrite (setBindingEnabled_updates_readable _ _ _ _ Hwb). simpl. split.
    + intros Hok. injection Hok as Hwm Hrm. exists worldbook.
      split; [reflexivity|]. split; [symmetry; exact Hwm|].
      apply existsb_exists in Hrm as [r [Hin Hm]].
      exists r. split; [apply list_elem_of_In; exact Hin|].
      apply bool_decide_eq_true_1 in Hm. exact Hm.
    + intros (worldbook' & Heq & -> & r & Hin & Hid).
      injection Heq as <-.
      assert (existsb (regexMatches binding) (tavern_regexes h) = true) as ->;
        [|reflexivity].
      apply existsb_exists. exists r.
      split; [apply list_elem_of_In; exact Hin|].
      apply bool_decide_eq_true_2. exact Hid.
  - rewrite (setBindingEnabled_updates_unreadable _ _ _ Hwb). simpl. split.
    + discriminate.
    + intros (worldbook' & Heq & _). discriminate.
Qed.

(** C9. Whenever a call of [setBindingEnabled] matches the transform rule
    (its flag [regexMatched] is set), the call completes, the rule list is
    written back, and every rule with the binding's id carries
    [ensureRegexPrefix] of its former name and the requested [enabled]
    value, whatever its [enabled] value was before. *)
Theorem setBindingEnabled_repairs_matched_rule (binding : StatusBarBinding)
  (enabled : bool) (h : Host) (worldbookMatched : bool) :
  fst (setBindingEnabled_updates binding enabled h)
    = Ok (worldbookMatched, true) ->
  let h' := snd (setBindingEnabled binding enabled h) in
  fst (setBindingEnabled binding enabled h) = Ok tt
  /\ (exists regex, regex ∈ tavern_regexes h
                    /\ Regex.id regex = Binding.regex_id binding)
  /\ (forall (i : nat) regex,
        tavern_regexes h !! i = Some regex ->
        Regex.id regex = Binding.regex_id binding ->
        tavern_regexes h' !! i
        = Some (Regex.mk (Regex.id regex)
                         (ensureRegexPrefix (Regex.script_name regex))
                         enabled
                         (Regex.replace_string regex)))
  /\ last (events h') = Some RegexesReplaced.
Proof.
  intros Hflag h'.
  pose proof Hflag as Hsaved.
  apply regexMatched_iff in Hflag as (worldbook & Hwb & _ & Hrule).
  subst h'. rewrite (setBindingEnabled_readable _ _ _ _ Hwb).
  rewrite (setBindingEnabled_updates_readable _ _ _ _ Hwb) in Hsaved.
  simpl in Hsaved. injection Hsaved as _ Hrm. rewrite Hrm.
  rewrite andb_false_r. simpl.
  split; [reflexivity|]. split; [exact Hrule|]. split.
  - intros i regex Hi Hid.
    rewrite list_lookup_fmap, Hi. simpl.
    rewrite (toggledRegex_match _ _ _ Hid). reflexivity.
  - apply last_snoc.
Qed.

(** C10. [setBindingEnabled] leaves alone everything but the matched
    resources: the binding registry, every other worldbook, every entry of
    the binding's worldbook with another uid, and every rule with another
    id (its name included) are the same afterwards, whether the call
    completes or throws. *)
Theorem setBindingEnabled_frame (binding : StatusBarBinding) (enabled : bool)
  (h : Host) :
  let h' := snd (setBindingEnabled binding enabled h) in
  bindings h' = bindings h
  /\ (forall nm, nm <> Binding.worldbook_name binding ->
                 worldbooks h' !! nm = worldbooks h !! nm)
  /\ (forall nm, worldbooks h !! nm = None -> worldbooks h' !! nm = None)
  /\ (forall nm worldbook,
        worldbooks h !! nm = Some worldbook ->
        exists worldbook',
          worldbooks h' !! nm = Some worldbook'
          /\ length worldbook' = length worldbook
          /\ forall (i : nat) entry,
               worldbook !! i = Some entry ->
               Entry.uid entry <> Binding.worldbook_entry_uid binding ->
               worldbook' !! i = Some entry)
  /\ length (tavern_regexes h') = length (tavern_regexes h)
  /\ (forall (i : nat) regex,
        tavern_regexes h !! i = Some regex ->
        Regex.id regex <> Binding.regex_id binding ->
        tavern_regexes h' !! i = Some regex).
Proof.
  intros h'. subst h'.
  destruct (worldbooks h !! Binding.worldbook_name binding) as [worldbook|]
    eqn:Hwb.
  - rewrite (setBindingEnabled_readable _ _ _ _ Hwb). simpl.
    split; [reflexivity|]. split; [|split; [|split; [|split]]].
    + intros nm Hne. apply lookup_insert_ne. auto.
    + intros nm Hnone. rewrite lookup_insert_ne; [exact Hnone|].
      intros <-. congruence.
    + intros nm worldbook0 Hnm.
      destruct (decide (nm = Binding.worldbook_name binding)) as [->|Hne].
      * assert (worldbook0 = worldbook) as -> by congruence.
        eexists. split; [apply lookup_insert_eq|].
        split; [apply length_map|].
        intros i entry Hi Huid. rewrite list_lookup_fmap, Hi. simpl.
        rewrite toggledEntry_other by exact Huid. reflexivity.
      * exists worldbook0. rewrite lookup_insert_ne by auto. auto.
    + apply length_map.
    + intros i regex Hi Hid. rewrite list_lookup_fmap, Hi. simpl.
      rewrite toggledRegex_other by exact Hid. reflexivity.
  - rewrite (setBindingEnabled_unreadable _ _ _ Hwb). simpl.
    repeat split; auto.
    intros nm worldbook0 Hnm. exists worldbook0. auto.
Qed.

(* ===================================================================== *)
(** ** Import merger: properties *)
(* ===================================================================== *)

Section ImportProperties.
Context `{HostApi}.

Lemma asArray_Some (v : jsvalue) (items : list JSON) :
  asArray v = Some items -> v = Some (JArr items).
Proof.
  destruct v as [[ | b | n | s | l | props ]|]; simpl; congruence.
Qed.

Lemma asArray_None (v : jsvalue) :
  asArray v = None -> forall items, v <> Some (JArr items).
Proof.
  destruct v as [[ | b | n | s | l | props ]|]; simpl; congruence.
Qed.

Lemma optChain_Some (v : jsvalue) (k : jsstring) (x : JSON) :
  optChain v k = Some x ->
  exists props, v = Some (JObj props) /\ alist_get k props = Some x.
Proof.
  destruct v as [[ | b | n | s | l | props ]|]; simpl; try discriminate.
  intros Hget. exists props. auto.
Qed.

Lemma parseImportedRegexList_shape (payload : JSON) :
  Shape payload (parseImportedRegexList payload).
Proof.
  destruct payload as [ | b | n | s | items | props ].
  - constructor.
  - unfold parseImportedRegexList, truthy, typeofObject.
    cbn [asArray optChain]. rewrite andb_false_r. constructor.
  - unfold parseImportedRegexList, truthy, typeofObject.
    cbn [asArray optChain]. rewrite andb_false_r. constructor.
  - unfold parseImportedRegexList, truthy, typeofObject.
    cbn [asArray optChain]. rewrite andb_false_r. constructor.
  - constructor.
  - unfold parseImportedRegexList.
    change (asArray (Some (JObj props))) with (@None (list JSON)).
    change (optChain (Some (JObj props)) (lit "regex_scripts"))
      with (alist_get (lit "regex_scripts") props).
    change (optChain (Some (JObj props)) (lit "data"))
      with (alist_get (lit "data") props).
    destruct (asArray (alist_get (lit "regex_scripts") props))
      as [items|] eqn:Hfield.
    { apply ShapeField. apply asArray_Some. exact Hfield. }
    destruct (asArray (optChain (alist_get (lit "data") props)
                                (lit "regex_scripts")))
      as [items|] eqn:Hnested.
    { apply asArray_Some in Hnested.
      apply optChain_Some in Hnested as (inner & Hdata & Hinner).
      eapply ShapeNested; [apply asArray_None; exact Hfield
                          | exact Hdata | exact Hinner]. }
    simpl. apply ShapeSingle; [apply asArray_None; exact Hfield|].
    intros inner l Hdata Hinner. rewrite Hdata in Hnested. simpl in Hnested.
    rewrite Hinner in Hnested. discriminate.
Qed.

Lemma Shape_functional (payload : JSON) (l1 l2 : list JSON) :
  Shape payload l1 -> Shape payload l2 -> l1 = l2.
Proof.
  intros H1 H2.
  inversion H1; subst; inversion H2; subst; try reflexivity;
    try congruence.
  all: try match goal with
    | Hn : forall l, alist_get _ ?p <> Some (JArr l),
      Hs : alist_get _ ?p = Some (JArr ?x) |- _ => destruct (Hn x Hs)
    end.
  all: try match goal with
    | Hn : forall inner l, alist_get _ ?p = Some (JObj inner) -> _ <> _,
      Hd : alist_get _ ?p = Some (JObj ?i),
      Hs : alist_get _ ?i = Some (JArr ?x) |- _ => destruct (Hn i x Hd Hs)
    end.
Qed.

(** C7. For every payload the descriptor list is the one of the first
    shape, in the order list, [regex_scripts] list, [data.regex_scripts]
    list, single object, that the payload has, and the empty list when it
    has none. *)
Theorem parseImportedRegexList_first_shape (payload : JSON)
  (items : list JSON) :
  parseImportedRegexList payload = items <-> Shape payload items.
Proof.
  split.
  - intros <-. apply parseImportedRegexList_shape.
  - intros Hshape. symmetry.
    exact (Shape_functional _ _ _ Hshape (parseImportedRegexList_shape payload)).
Qed.

Lemma trimStart_head (s : jsstring) (c : N) (rest : jsstring) :
  trimStart s = c :: rest -> isWhiteSpace c = false.
Proof.
  induction s as [|a s IH]; simpl; [discriminate|].
  destruct (isWhiteSpace a) eqn:Ea; [exact IH|].
  intros Heq. injection Heq as <- _. exact Ea.
Qed.

Lemma coalesce_present (a b : jsvalue) :
  coalesce a b = match present a with Some v => Some v | None => b end.
Proof. destruct a as [[ | ? | ? | ? | ? | ? ]|]; reflexivity. Qed.

Lemma String_text (v : JSON) :
  match String_ v with
  | Ok text => Ok (trim text)
  | Throw e => Throw e
  end
  = if negb (stringThrows v)
    then Ok match v with
            | JStr s => trim s
            | _ => trim (ToString v)
            end
    else Throw TypeError.
Proof.
  destruct v; unfold String_; try reflexivity;
    destruct (stringThrows _); reflexivity.
Qed.

(** [getRegexDisplayName] against the specification's words: the display
    name when the name can be read, a [TypeError] when it cannot. *)
Lemma getRegexDisplayName_spec (item : JSON) :
  getRegexDisplayName item
  = if nameReadable item then Ok (descriptorName item) else Throw TypeError.
Proof.
  destruct item as [ | b | n | s | items | props ]; try reflexivity.
  unfold getRegexDisplayName. cbn [optChain].
  rewrite !coalesce_present.
  unfold nameReadable, descriptorName, nameValue, NAME_KEYS.
  cbn [firstPresent].
  destruct (present (alist_get (lit "script_name") props)) as [v|];
    [cbn [default]; apply String_text|].
  destruct (present (alist_get (lit "scriptName") props)) as [v|];
    [cbn [default]; apply String_text|].
  destruct (present (alist_get (lit "name") props)) as [v|];
    [cbn [default]; apply String_text|].
  destruct (present (alist_get (lit "title") props)) as [v|];
    [cbn [default]; apply String_text|].
  reflexivity.
Qed.

Lemma mapDisplayNames_spec (items : list JSON) :
  mapDisplayNames items
  = if forallb nameReadable items
    then Ok (List.map descriptorName items) else Throw TypeError.
Proof.
  induction items as [|item items IH]; [reflexivity|].
  cbn [mapDisplayNames forallb List.map].
  rewrite getRegexDisplayName_spec, IH.
  destruct (nameReadable item); [|reflexivity].
  destruct (forallb nameReadable items); reflexivity.
Qed.

(** The inferred names against the specification's words: the ordered
    descriptor-name list, unless the content is not JSON or a name cannot
    be read, in which case there is none. *)
Lemma importedNamesOf_spec (content : jsstring) :
  importedNamesOf content
  = match JSON_parse content with
    | None => []
    | Some parsed =>
        if forallb nameReadable (parseImportedRegexList parsed)
        then descriptorNames (parseImportedRegexList parsed)
        else []
    end.
Proof.
  unfold importedNamesOf.
  destruct (JSON_parse content) as [parsed|]; [|reflexivity].
  rewrite mapDisplayNames_spec.
  destruct (forallb nameReadable (parseImportedRegexList parsed));
    reflexivity.
Qed.

Lemma isNewById_snapshot (before : list TavernRegex) (item : TavernRegex) :
  isNewById (list_to_set (List.map Regex.id before)) item
  = isNewRule before item.
Proof.
  unfold isNewById, isNewRule. f_equal.
  apply bool_decide_ext. apply elem_of_list_to_set.
Qed.

(** The renaming pass, position by position. *)
Lemma retagNew_lookup (before : list TavernRegex) (names : list jsstring)
  (store : list TavernRegex) (k i : nat) (item : TavernRegex) :
  store !! i = Some item ->
  fst (map_st (retagNew (list_to_set (List.map Regex.id before)) names)
              store k) !! i
  = Some (if isNewRule before item
          then renamedRule
                 (default (Regex.script_name item)
                          (names !! (k + newRulesBefore before i store)))
                 item
          else item).
Proof.
  revert k i. induction store as [|a store IH]; intros k i Hi.
  - destruct i; discriminate.
  - simpl. unfold retagNew at 1. rewrite isNewById_snapshot.
    destruct i as [|i].
    + injection Hi as ->. unfold newRulesBefore. simpl.
      rewrite Nat.add_0_r.
      destruct (isNewRule before item); simpl;
        destruct (map_st _ store _); reflexivity.
    + simpl in Hi. unfold newRulesBefore. simpl.
      destruct (isNewRule before a) eqn:Ea; simpl.
      * specialize (IH (k + 1) i Hi).
        destruct (map_st _ store (k + 1)) as [out k'] eqn:Eout. simpl in *.
        rewrite IH. unfold newRulesBefore.
        replace (k + 1 + length (List.filter (isNewRule before) (take i store)))
          with (k + S (length (List.filter (isNewRule before) (take i store))))
          by lia.
        reflexivity.
      * specialize (IH k i Hi).
        destruct (map_st _ store k) as [out k'] eqn:Eout. simpl in *.
        exact IH.
Qed.

(** After the renaming pass the managed rules are the new rules and the
    rules that were managed already. *)
Lemma retagNew_managed (before : list TavernRegex) (names : list jsstring)
  (store : list TavernRegex) (k : nat) :
  length (List.filter isManaged
            (fst (map_st (retagNew (list_to_set (List.map Regex.id before))
                                   names) store k)))
  = length (List.filter (fun item => isNewRule before item || isManaged item)
                        store).
Proof.
  revert k. induction store as [|a store IH]; intros k; [reflexivity|].
  simpl. unfold retagNew at 1. rewrite isNewById_snapshot.
  destruct (isNewRule before a) eqn:Ea; simpl.
  - specialize (IH (k + 1)).
    destruct (map_st _ store (k + 1)) as [out k']. simpl in *.
    unfold isManaged at 1. unfold renamedRule at 1.
    cbn [Regex.script_name].
    rewrite ensureRegexPrefix_managed. simpl. rewrite IH. reflexivity.
  - specialize (IH k).
    destruct (map_st _ store k) as [out k']. simpl in *.
    destruct (isManaged a); simpl; rewrite IH; reflexivity.
Qed.

(** The import, run on a readable file: what happens when the host's
    ingestion refuses the file, and when it accepts it. *)
Lemma importRegexFromFile_refused (file : File) (rest : list File)
  (content : jsstring) (store : list TavernRegex) (h : Host) :
  file_text file = Some content ->
  importRawTavernRegex (file_name file) content (tavern_regexes h)
    = (false, store) ->
  importRegexFromFile (file :: rest) h
  = (Ok tt, emit (Toasted ImportFailed) (set_tavern_regexes store h)).
Proof.
  intros Htext Hraw.
  unfold importRegexFromFile. rewrite Htext.
  unfold bind, getTavernRegexes, importRaw. rewrite Hraw. reflexivity.
Qed.

Lemma importRegexFromFile_accepted (file : File) (rest : list File)
  (content : jsstring) (store : list TavernRegex) (h : Host) :
  file_text file = Some content ->
  importRawTavernRegex (file_name file) content (tavern_regexes h)
    = (true, store) ->
  let retagged :=
    fst (map_st (retagNew (list_to_set (List.map Regex.id (tavern_regexes h)))
                          (importedNamesOf content)) store 0) in
  importRegexFromFile (file :: rest) h
  = (Ok tt,
     emit (Toasted (Imported (length (List.filter isManaged retagged))))
       (emit RegexesReplaced (set_tavern_regexes retagged h))).
Proof.
  intros Htext Hraw retagged. subst retagged.
  unfold importRegexFromFile. rewrite Htext.
  unfold bind, getTavernRegexes, importRaw. rewrite Hraw. simpl.
  unfold updateTavernRegexesWith. simpl.
  destruct (map_st _ store 0) as [out k]. reflexivity.
Qed.

(** C4. When the host's ingestion refuses the file, the import ends with
    the import-failure message and nothing else: no renaming pass runs (the
    rule list is as the host left it), the binding registry is unchanged,
    the worldbooks are unchanged and nothing is saved. *)
Theorem importRegexFromFile_refused_changes_nothing (file : File)
  (rest : list File) (content : jsstring) (store : list TavernRegex)
  (h : Host) :
  file_text file = Some content ->
  importRawTavernRegex (file_name file) content (tavern_regexes h)
    = (false, store) ->
  let h' := snd (importRegexFromFile (file :: rest) h) in
  events h' = events h ++ [Toasted ImportFailed]
  /\ tavern_regexes h' = store
  /\ bindings h' = bindings h
  /\ worldbooks h' = worldbooks h
  /\ (RegexesReplaced ∉ drop (length (events h)) (events h'))
  /\ (forall saved,
        SettingsSaved saved ∉ drop (length (events h)) (events h')).
Proof.
  intros Htext Hraw h'. subst h'.
  rewrite (importRegexFromFile_refused _ _ _ _ _ Htext Hraw). simpl.
  rewrite drop_app_length.
  repeat split; try reflexivity.
  - intros Hin. apply list_elem_of_singleton in Hin. discriminate.
  - intros saved Hin. apply list_elem_of_singleton in Hin. discriminate.
Qed.

(** C5. After the host's ingestion accepted the file, the rule list has
    the store's length and order; a rule whose id was in the snapshot taken
    before the ingestion is unmodified; the new rule with [k] new rules
    before it is renamed to [ensureRegexPrefix] of the [k]-th inferred
    name, or of its own name when fewer than [k+1] names were inferred.
    The inferred names are the ordered descriptor-name list of the payload
    (the display name of each descriptor, in order, the empty ones
    discarded); there is none when the content is not JSON or when the name
    of some descriptor cannot be read, every new rule then keeping its own
    name under the prefix.  With the payload [{ "regex_scripts": [{ "id":
    "r1", "script_name": "Foo" }] }] the first new rule is named
    ['[状态栏] Foo']. *)
Theorem importRegexFromFile_retags_new_rules (file : File)
  (rest : list File) (content : jsstring) (store : list TavernRegex)
  (h : Host) :
  file_text file = Some content ->
  importRawTavernRegex (file_name file) content (tavern_regexes h)
    = (true, store) ->
  let before := tavern_regexes h in
  let h' := snd (importRegexFromFile (file :: rest) h) in
  length (tavern_regexes h') = length store
  /\ (forall (i : nat) item,
        store !! i = Some item ->
        Regex.id item ∈ List.map Regex.id before ->
        tavern_regexes h' !! i = Some item)
  /\ (forall (i : nat) item,
        store !! i = Some item ->
        Regex.id item ∉ List.map Regex.id before ->
        tavern_regexes h' !! i
        = Some (Regex.mk
                  (Regex.id item)
                  (ensureRegexPrefix
                     (default (Regex.script_name item)
                        (importedNamesOf content
                           !! newRulesBefore before i store)))
                  (Regex.enabled item)
                  (Regex.replace_string item)))
  /\ (forall parsed,
        JSON_parse content = Some parsed ->
        (forall descriptor,
            descriptor ∈ parseImportedRegexList parsed ->
            nameReadable descriptor = true) ->
        importedNamesOf content
        = descriptorNames (parseImportedRegexList parsed))
  /\ (JSON_parse content = None
      \/ (exists parsed descriptor,
             JSON_parse content = Some parsed
             /\ descriptor ∈ parseImportedRegexList parsed
             /\ nameReadable descriptor = false) ->
      importedNamesOf content = [])
  /\ (JSON_parse content = Some Sample.payload ->
      forall (i : nat) item,
        store !! i = Some item ->
        Regex.id item ∉ List.map Regex.id before ->
        newRulesBefore before i store = 0 ->
        Regex.script_name <$> tavern_regexes h' !! i
        = Some (REGEX_PREFIX ++ lit "Foo")).
Proof.
  intros Htext Hraw before h'. subst before h'.
  rewrite (importRegexFromFile_accepted _ _ _ _ _ Htext Hraw). simpl.
  split; [apply map_st_length|].
  assert (forall (i : nat) item,
             store !! i = Some item ->
             Regex.id item ∉ List.map Regex.id (tavern_regexes h) ->
             fst (map_st (retagNew (list_to_set
                                      (List.map Regex.id (tavern_regexes h)))
                                   (importedNamesOf content)) store 0) !! i
             = Some (renamedRule
                       (default (Regex.script_name item)
                          (importedNamesOf content
                             !! newRulesBefore (tavern_regexes h) i store))
                       item)) as Hnew.
  { intros i item Hi Hid.
    rewrite (retagNew_lookup _ _ _ _ _ _ Hi). unfold isNewRule.
    rewrite bool_decide_eq_false_2 by exact Hid. reflexivity. }
  split; [|split; [|split; [|split]]].
  - intros i item Hi Hid.
    rewrite (retagNew_lookup _ _ _ _ _ _ Hi). unfold isNewRule.
    rewrite bool_decide_eq_true_2 by exact Hid. reflexivity.
  - exact Hnew.
  - intros parsed Hparse Hreadable.
    rewrite importedNamesOf_spec, Hparse.
    assert (forallb nameReadable (parseImportedRegexList parsed) = true)
      as ->; [|reflexivity].
    apply forallb_forall. intros d Hd. apply Hreadable.
    apply list_elem_of_In. exact Hd.
  - intros Hcase. rewrite importedNamesOf_spec.
    destruct Hcase as [-> | (parsed & d & -> & Hd & Hunreadable)];
      [reflexivity|].
    destruct (forallb nameReadable (parseImportedRegexList parsed)) eqn:Hall;
      [|reflexivity].
    rewrite forallb_forall in Hall.
    rewrite (Hall d) in Hunreadable; [discriminate|].
    apply list_elem_of_In. exact Hd.
  - intros Hparse i item Hi Hid Hfirst.
    rewrite (Hnew i item Hi Hid), Hfirst. simpl.
    unfold importedNamesOf. rewrite Hparse. reflexivity.
Qed.

(** C8. The number a successful import shows is the number of managed
    rules the store holds after the import: the new rules together with
    the rules that were managed before, not the new rules alone. *)
Theorem importRegexFromFile_reports_managed_count (file : File)
  (rest : list File) (content : jsstring) (store : list TavernRegex)
  (h : Host) :
  file_text file = Some content ->
  importRawTavernRegex (file_name file) content (tavern_regexes h)
    = (true, store) ->
  let before := tavern_regexes h in
  let h' := snd (importRegexFromFile (file :: rest) h) in
  let after := length (List.filter isManaged (tavern_regexes h')) in
  fst (importRegexFromFile (file :: rest) h) = Ok tt
  /\ last (events h') = Some (Toasted (Imported after))
  /\ fst (getManagedRegexes h') = Ok (List.filter isManaged (tavern_regexes h'))
  /\ after
     = length (List.filter
                 (fun item => isNewRule before item || isManaged item) store).
Proof.
  intros Htext Hraw before h' after. subst before h' after.
  rewrite (importRegexFromFile_accepted _ _ _ _ _ Htext Hraw). simpl.
  split; [reflexivity|]. split; [apply last_snoc|].
  split; [reflexivity|]. apply retagNew_managed.
Qed.

End ImportProperties.

(* ===================================================================== *)
(** ** Binding registry: properties *)
(* ===================================================================== *)

Lemma elem_of_map_tupleOf (t : jsstring * Z * jsstring)
  (bs : list StatusBarBinding) :
  t ∈ List.map tupleOf bs <-> exists b, b ∈ bs /\ tupleOf b = t.
Proof.
  rewrite list_elem_of_In, in_map_iff. split.
  - intros (b & Hb & Hin). exists b. rewrite list_elem_of_In. auto.
  - intros (b & Hin & Hb). exists b. rewrite <- list_elem_of_In. auto.
Qed.

Lemma freshTuples_nil (existing : list StatusBarBinding) :
  freshTuples existing [].
Proof.
  split; [constructor|]. intros b Hb. inversion Hb.
Qed.

Lemma freshTuples_cons (existing added : list StatusBarBinding)
  (b : StatusBarBinding) :
  tupleOf b ∉ List.map tupleOf existing ->
  freshTuples (existing ++ [b]) added ->
  freshTuples existing (b :: added).
Proof.
  intros Hb [Hnodup Hfresh]. split.
  - simpl. apply NoDup_cons. split; [|exact Hnodup].
    intros Hin. apply elem_of_map_tupleOf in Hin as (b' & Hin & Heq).
    apply (Hfresh b' Hin). rewrite Heq.
    apply elem_of_map_tupleOf. exists b.
    split; [apply elem_of_app; right; left | reflexivity].
  - intros b' Hin. apply elem_of_cons in Hin as [->|Hin]; [exact Hb|].
    intros Hex. apply (Hfresh b' Hin).
    apply elem_of_map_tupleOf in Hex as (b0 & Hin0 & Heq).
    apply elem_of_map_tupleOf. exists b0.
    split; [apply elem_of_app; left; exact Hin0 | exact Heq].
Qed.

Lemma freshTuples_app (existing added1 added2 : list StatusBarBinding) :
  freshTuples existing added1 ->
  freshTuples (existing ++ added1) added2 ->
  freshTuples existing (added1 ++ added2).
Proof.
  revert existing. induction added1 as [|b added1 IH];
    intros existing H1 H2; simpl.
  - rewrite app_nil_r in H2. exact H2.
  - destruct H1 as [Hnodup Hfresh].
    apply freshTuples_cons; [apply Hfresh; left|].
    apply IH.
    + split.
      * simpl in Hnodup. apply NoDup_cons in Hnodup as [_ Hnodup].
        exact Hnodup.
      * intros b' Hin Hex.
        apply elem_of_map_tupleOf in Hex as (b0 & Hin0 & Heq).
        apply elem_of_app in Hin0 as [Hin0|Hin0].
        -- apply (Hfresh b'); [right; exact Hin|].
           apply elem_of_map_tupleOf. eauto.
        -- apply list_elem_of_singleton in Hin0. subst b0.
           simpl in Hnodup. apply NoDup_cons in Hnodup as [Hnotin _].
           apply Hnotin. rewrite Heq.
           apply elem_of_map_tupleOf. eauto.
    + rewrite <- app_assoc. exact H2.
Qed.

Lemma freshTuples_unique (existing added : list StatusBarBinding) :
  tupleUnique existing -> freshTuples existing added ->
  tupleUnique (existing ++ added).
Proof.
  unfold tupleUnique. intros Hex [Hnodup Hfresh].
  rewrite map_app. apply NoDup_app. split; [exact Hex|].
  split; [|exact Hnodup].
  intros t Hin Hin'. apply elem_of_map_tupleOf in Hin' as (b & Hb & <-).
  exact (Hfresh b Hb Hin).
Qed.

Lemma extends_refl (h : Host) : extends h h [].
Proof.
  unfold extends. rewrite app_nil_r. auto.
Qed.

(** The duplicate test of the creation loop compares tuples. *)
Lemma isDuplicate_tuple (wbItem : WorldbookSelection) (z : Z)
  (regexIdItem : jsstring) (b : StatusBarBinding) :
  entryUid wbItem = Integer z ->
  isDuplicate wbItem regexIdItem b = true
  <-> tupleOf b = (worldbookName wbItem, z, regexIdItem).
Proof.
  intros Huid. unfold isDuplicate, tupleOf, str_eq. rewrite Huid. simpl.
  unfold num_eq.
  rewrite !andb_true_iff, !bool_decide_eq_true, Z.eqb_eq.
  split.
  - intros [[-> ->] ->]. reflexivity.
  - intros Heq. injection Heq as -> -> ->. auto.
Qed.

Lemma num_eq_js_Integer (uid : Z) (n : jsnumber) :
  num_eq_js uid n = true -> n = Integer uid.
Proof.
  destruct n as [z|]; simpl; [|discriminate].
  unfold num_eq. intros Heq. apply Z.eqb_eq in Heq. congruence.
Qed.

Section RegistryProperties.
Context `{HostApi}.

(** One turn of the inner loop and of the outer loop. *)
Lemma createForRegexes_cons (wbItem : WorldbookSelection)
  (entry : WorldbookEntry) (managedRegexes : list TavernRegex)
  (regexIdItem : jsstring) (rest : list jsstring) (createdCount : nat)
  (h : Host) :
  createForRegexes wbItem entry managedRegexes (regexIdItem :: rest)
                   createdCount h
  = match List.find (fun regexItem => str_eq (Regex.id regexItem) regexIdItem)
                    managedRegexes with
    | None => createForRegexes wbItem entry managedRegexes rest createdCount h
    | Some regex =>
        match List.find (isDuplicate wbItem regexIdItem) (bindings h) with
        | Some _ =>
            createForRegexes wbItem entry managedRegexes rest createdCount h
        | None =>
            createForRegexes wbItem entry managedRegexes rest
              (createdCount + 1)
              (pushed (newBinding (uuidv4 (uuid_counter h)) wbItem entry regex)
                      h)
        end
    end.
Proof.
  simpl. destruct (List.find _ managedRegexes); [|reflexivity].
  unfold bind at 1. unfold getBindings at 1. cbv beta iota.
  destruct (List.find _ (bindings h)); reflexivity.
Qed.

Lemma createForWorldbooks_cons (managedRegexes : list TavernRegex)
  (regexSelections : list jsstring) (wbItem : WorldbookSelection)
  (rest : list WorldbookSelection) (createdCount : nat) (h : Host) :
  createForWorldbooks managedRegexes regexSelections (wbItem :: rest)
                      createdCount h
  = match worldbooks h !! worldbookName wbItem with
    | None => (Throw (HostError (worldbookName wbItem)), h)
    | Some entries =>
        match List.find (fun entryItem =>
                           num_eq_js (Entry.uid entryItem) (entryUid wbItem))
                        entries with
        | None =>
            createForWorldbooks managedRegexes regexSelections rest
                                createdCount h
        | Some entry =>
            match createForRegexes wbItem entry managedRegexes regexSelections
                                   createdCount h with
            | (Ok createdCount', h1) =>
                createForWorldbooks managedRegexes regexSelections rest
                                    createdCount' h1
            | (Throw e, h1) => (Throw e, h1)
            end
        end
    end.
Proof.
  simpl. unfold bind at 1. unfold getWorldbook at 1.
  destruct (worldbooks h !! worldbookName wbItem) as [entries|];
    [|reflexivity].
  destruct (List.find _ entries); reflexivity.
Qed.

(** The inner loop appends bindings with fresh tuples and counts them. *)
Lemma createForRegexes_appends (wbItem : WorldbookSelection)
  (entry : WorldbookEntry) (managedRegexes : list TavernRegex)
  (regexSelections : list jsstring) (createdCount : nat) (h : Host) :
  entryUid wbItem = Integer (Entry.uid entry) ->
  exists added,
    fst (createForRegexes wbItem entry managedRegexes regexSelections
                          createdCount h)
      = Ok (createdCount + length added)
    /\ extends h (snd (createForRegexes wbItem entry managedRegexes
                                        regexSelections createdCount h))
               added
    /\ freshTuples (bindings h) added.
Proof.
  intros Huid. revert createdCount h.
  induction regexSelections as [|regexIdItem rest IH]; intros createdCount h.
  - exists []. simpl. rewrite Nat.add_0_r.
    split; [reflexivity|]. split; [apply extends_refl|apply freshTuples_nil].
  - rewrite createForRegexes_cons.
    destruct (List.find (fun regexItem => str_eq (Regex.id regexItem)
                                            regexIdItem) managedRegexes)
      as [regex|] eqn:Hregex; [|apply IH].
    destruct (List.find (isDuplicate wbItem regexIdItem) (bindings h))
      as [dup|] eqn:Hdup; [apply IH|].
    set (b := newBinding (uuidv4 (uuid_counter h)) wbItem entry regex).
    destruct (IH (createdCount + 1) (pushed b h))
      as (added & Hcount & Hext & Hfresh).
    exists (b :: added). split; [|split].
    + rewrite Hcount. simpl. f_equal. lia.
    + destruct Hext as (Hb & Hw & Hr & He).
      unfold extends. rewrite Hb, Hw, Hr, He. simpl.
      rewrite <- app_assoc. auto.
    + apply freshTuples_cons; [|exact Hfresh].
      intros Hin. apply elem_of_map_tupleOf in Hin as (b' & Hin & Heq).
      rewrite find_none_iff in Hdup. specialize (Hdup b' Hin).
      apply find_some_elem in Hregex as [_ Hid].
      apply bool_decide_eq_true_1 in Hid.
      assert (isDuplicate wbItem regexIdItem b' = true) as Htrue;
        [|congruence].
      apply (isDuplicate_tuple _ _ _ _ Huid).
      rewrite Heq. subst b. unfold tupleOf, newBinding. simpl.
      rewrite Hid. reflexivity.
Qed.

(** The outer loop appends bindings with fresh tuples, also when a
    worldbook read throws on the way. *)
Lemma createForWorldbooks_appends (managedRegexes : list TavernRegex)
  (regexSelections : list jsstring)
  (worldbookSelections : list WorldbookSelection) (createdCount : nat)
  (h : Host) :
  exists added,
    (forall n, fst (createForWorldbooks managedRegexes regexSelections
                                        worldbookSelections createdCount h)
               = Ok n -> n = createdCount + length added)
    /\ extends h (snd (createForWorldbooks managedRegexes regexSelections
                                           worldbookSelections createdCount h))
               added
    /\ freshTuples (bindings h) added.
Proof.
  revert createdCount h.
  induction worldbookSelections as [|wbItem rest IH]; intros createdCount h.
  - exists []. simpl. split; [|split].
    + intros n Hn. injection Hn as <-. lia.
    + apply extends_refl.
    + apply freshTuples_nil.
  - rewrite createForWorldbooks_cons.
    destruct (worldbooks h !! worldbookName wbItem) as [entries|].
    2:{ exists []. simpl. split; [discriminate|].
        split; [apply extends_refl|apply freshTuples_nil]. }
    destruct (List.find (fun entryItem => num_eq_js (Entry.uid entryItem)
                                            (entryUid wbItem)) entries)
      as [entry|] eqn:Hentry; [|apply IH].
    apply find_some_elem in Hentry as [_ Huid].
    apply num_eq_js_Integer in Huid.
    destruct (createForRegexes_appends wbItem entry managedRegexes
                regexSelections createdCount h Huid)
      as (added1 & Hcount1 & Hext1 & Hfresh1).
    destruct (createForRegexes wbItem entry managedRegexes regexSelections
                               createdCount h) as [r1 h1].
    simpl in Hcount1, Hext1. subst r1.
    destruct (IH (createdCount + length added1) h1)
      as (added2 & Hcount2 & Hext2 & Hfresh2).
    destruct Hext1 as (Hb1 & Hw1 & Hr1 & He1).
    destruct Hext2 as (Hb2 & Hw2 & Hr2 & He2).
    exists (added1 ++ added2). split; [|split].
    + intros n Hn. rewrite (Hcount2 n Hn), length_app. lia.
    + unfold extends. rewrite Hb2, Hb1, Hw2, Hw1, Hr2, Hr1, He2, He1.
      rewrite <- app_assoc. auto.
    + apply freshTuples_app; [exact Hfresh1|].
      rewrite <- Hb1. exact Hfresh2.
Qed.

(** A creation, run. *)
Lemma createBindingFromSelection_run
  (worldbookSelections : list WorldbookSelection)
  (regexSelections : list jsstring) (h : Host) :
  let validWorldbookSelections :=
    List.filter (fun item => negb (str_eq (worldbookName item) [])
                             && isInteger (entryUid item))
                worldbookSelections in
  let validRegexSelections :=
    List.filter (fun item => negb (Nat.eqb (length item) 0)) regexSelections in
  createBindingFromSelection worldbookSelections regexSelections h
  = if Nat.eqb (length validWorldbookSelections) 0
       || Nat.eqb (length validRegexSelections) 0
    then (Ok tt, emit (Toasted SelectionIncomplete) h)
    else
      match createForWorldbooks (List.filter isManaged (tavern_regexes h))
                                validRegexSelections validWorldbookSelections
                                0 h with
      | (Ok createdCount, h1) =>
          if Nat.eqb createdCount 0
          then (Ok tt, emit (Toasted NoBindingCreated) h1)
          else (Ok tt, emit (Toasted (BindingsCreated createdCount))
                         (emit (SettingsSaved (bindings h1)) h1))
      | (Throw e, h1) => (Throw e, h1)
      end.
Proof.
  intros validW validR. subst validW validR.
  unfold createBindingFromSelection.
  destruct (Nat.eqb _ 0 || Nat.eqb _ 0); [reflexivity|].
  unfold getManagedRegexes, getTavernRegexes, saveSettings, toastr, bind, ret.
  cbv beta iota.
  destruct (createForWorldbooks _ _ _ 0 h) as [[n|e] h1]; [|reflexivity].
  destruct (Nat.eqb n 0); reflexivity.
Qed.

(** A creation appends bindings with fresh tuples to the registry and
    leaves the host's worldbooks and rules alone, however it ends. *)
Lemma createBindingFromSelection_appends
  (worldbookSelections : list WorldbookSelection)
  (regexSelections : list jsstring) (h : Host) :
  let h' := snd (createBindingFromSelection worldbookSelections
                                            regexSelections h) in
  exists added,
    bindings h' = bindings h ++ added
    /\ worldbooks h' = worldbooks h
    /\ tavern_regexes h' = tavern_regexes h
    /\ freshTuples (bindings h) added.
Proof.
  intros h'. subst h'. rewrite createBindingFromSelection_run.
  destruct (Nat.eqb _ 0 || Nat.eqb _ 0).
  { exists []. simpl. rewrite app_nil_r.
    split; [reflexivity|]. split; [reflexivity|]. split; [reflexivity|].
    apply freshTuples_nil. }
  match goal with
  | |- context [createForWorldbooks ?m ?r ?w 0 h] =>
      destruct (createForWorldbooks_appends m r w 0 h)
        as (added & _ & (Hb & Hw & Hr & _) & Hfresh);
      destruct (createForWorldbooks m r w 0 h) as [[n|e] h1]
  end; simpl in Hb, Hw, Hr; exists added.
  - destruct (Nat.eqb n 0); simpl; auto.
  - simpl. auto.
Qed.

(** Deleting keeps a sublist of the registry; renaming keeps every tuple. *)
Lemma tupleUnique_filter (p : StatusBarBinding -> bool)
  (bs : list StatusBarBinding) :
  tupleUnique bs -> tupleUnique (List.filter p bs).
Proof.
  unfold tupleUnique. induction bs as [|b bs IH]; simpl; intros Hnodup.
  - constructor.
  - apply NoDup_cons in Hnodup as [Hnotin Hnodup].
    destruct (p b); simpl; [|auto].
    apply NoDup_cons. split; [|auto].
    intros Hin. apply Hnotin.
    apply elem_of_map_tupleOf in Hin as (b' & Hin & Heq).
    apply elem_of_map_tupleOf. exists b'. split; [|exact Heq].
    apply list_elem_of_In. apply list_elem_of_In in Hin.
    apply filter_In in Hin as [Hin _]. exact Hin.
Qed.

Lemma relabel_tuples (id renamed : jsstring) (bs : list StatusBarBinding) :
  List.map tupleOf (relabel id renamed bs) = List.map tupleOf bs.
Proof.
  induction bs as [|b bs IH]; simpl; [reflexivity|].
  destruct (str_eq (Binding.id b) id); simpl; [reflexivity|].
  rewrite IH. reflexivity.
Qed.

Lemma setBindingEnabled_bindings (binding : StatusBarBinding) (enabled : bool)
  (h : Host) :
  bindings (snd (setBindingEnabled binding enabled h)) = bindings h.
Proof.
  destruct (worldbooks h !! Binding.worldbook_name binding) as [worldbook|]
    eqn:Hwb.
  - rewrite (setBindingEnabled_readable _ _ _ _ Hwb). reflexivity.
  - rewrite (setBindingEnabled_unreadable _ _ _ Hwb). reflexivity.
Qed.

Lemma getBindingLiveState_liveStateOf (binding : StatusBarBinding) (h : Host) :
  getBindingLiveState binding h = (Ok (liveStateOf binding h), h).
Proof. apply getBindingLiveState_run. Qed.

(** The refresh of the view, run: it leaves the host as it is, and it
    rejects exactly when a selected worldbook cannot be read. *)
Lemma renderEntryOptions_run (selected : list jsstring) (h : Host) :
  renderEntryOptions selected h = (refreshOutcome selected h, h).
Proof.
  unfold refreshOutcome.
  induction selected as [|worldbookName rest IH]; [reflexivity|].
  cbn [renderEntryOptions firstUnreadable].
  destruct (str_eq worldbookName []); [exact IH|].
  unfold bind at 1. unfold getWorldbook at 1.
  destruct (worldbooks h !! worldbookName); [exact IH | reflexivity].
Qed.

Lemma renderStyleList_run (items : list StatusBarBinding) (h : Host) :
  renderStyleList items h = (Ok tt, h).
Proof.
  induction items as [|item rest IH]; [reflexivity|].
  cbn [renderStyleList]. unfold bind at 1.
  rewrite getBindingLiveState_liveStateOf. exact IH.
Qed.

Lemma refreshManagerView_run (selected : list jsstring) (h : Host) :
  refreshManagerView selected h = (refreshOutcome selected h, h).
Proof.
  unfold refreshManagerView. unfold bind at 1.
  rewrite renderEntryOptions_run.
  destruct (refreshOutcome selected h) as [[]|e]; [|reflexivity].
  unfold bind, getManagedRegexes, getTavernRegexes, getBindings, ret.
  cbv beta iota. apply renderStyleList_run.
Qed.

Lemma firstUnreadable_none (selected : list jsstring)
  (wbs : gmap jsstring (list WorldbookEntry)) :
  firstUnreadable selected wbs = None
  <-> forall worldbookName : jsstring,
        worldbookName ∈ selected -> worldbookName <> [] ->
        is_Some (wbs !! worldbookName).
Proof.
  induction selected as [|nm rest IH]; cbn [firstUnreadable].
  - split; [intros _ nm Hin; inversion Hin | reflexivity].
  - unfold str_eq. destruct (decide (nm = [])) as [->|Hne].
    + rewrite bool_decide_eq_true_2 by reflexivity. rewrite IH. split.
      * intros Hall nm Hin Hnm.
        apply elem_of_cons in Hin as [Heq|Hin]; [congruence | auto].
      * intros Hall nm Hin. apply Hall. right. exact Hin.
    + rewrite bool_decide_eq_false_2 by exact Hne.
      destruct (wbs !! nm) as [wb|] eqn:Hwb.
      * rewrite IH. split.
        -- intros Hall nm' Hin Hnm'.
           apply elem_of_cons in Hin as [Heq|Hin]; [|auto].
           subst nm'. exists wb. exact Hwb.
        -- intros Hall nm' Hin. apply Hall. right. exact Hin.
      * split; [discriminate|]. intros Hall.
        destruct (Hall nm) as [wb Hsome]; [left | exact Hne |].
        rewrite Hwb in Hsome. discriminate.
Qed.

Lemma firstUnreadable_some (selected : list jsstring)
  (wbs : gmap jsstring (list WorldbookEntry)) (nm : jsstring) :
  firstUnreadable selected wbs = Some nm ->
  nm ∈ selected /\ nm <> [] /\ wbs !! nm = None.
Proof.
  induction selected as [|nm' rest IH]; cbn [firstUnreadable];
    [discriminate|].
  unfold str_eq. destruct (decide (nm' = [])) as [->|Hne].
  - rewrite bool_decide_eq_true_2 by reflexivity. intros Hf.
    destruct (IH Hf) as (Hin & Hnm & Hwb). split; [right; exact Hin | auto].
  - rewrite bool_decide_eq_false_2 by exact Hne.
    destruct (wbs !! nm') as [wb|] eqn:Hwb.
    + intros Hf. destruct (IH Hf) as (Hin & Hnm & Hwb').
      split; [right; exact Hin | auto].
    + intros Hf. injection Hf as <-. split; [left | auto].
Qed.

Lemma refreshOutcome_ok (selected : list jsstring) (h : Host) :
  refreshOutcome selected h = Ok tt <-> allReadable selected h.
Proof.
  unfold refreshOutcome, allReadable. rewrite <- firstUnreadable_none.
  destruct (firstUnreadable selected (worldbooks h));
    split; try discriminate; reflexivity.
Qed.

Lemma refreshOutcome_throw (selected : list jsstring) (h : Host) (e : Exn) :
  refreshOutcome selected h = Throw e ->
  exists nm, e = HostError nm /\ nm ∈ selected /\ nm <> []
             /\ worldbooks h !! nm = None.
Proof.
  unfold refreshOutcome.
  destruct (firstUnreadable selected (worldbooks h)) as [nm|] eqn:Hf;
    [|discriminate].
  intros Heq. injection Heq as <-. exists nm.
  split; [reflexivity|]. exact (firstUnreadable_some _ _ _ Hf).
Qed.

(** A toggle changes no worldbook from readable to unreadable or back. *)
Lemma firstUnreadable_insert (selected : list jsstring)
  (wbs : gmap jsstring (list WorldbookEntry)) (nm : jsstring)
  (wb wb' : list WorldbookEntry) :
  wbs !! nm = Some wb ->
  firstUnreadable selected (<[nm := wb']> wbs) = firstUnreadable selected wbs.
Proof.
  intros Hwb. induction selected as [|nm' rest IH]; [reflexivity|].
  cbn [firstUnreadable]. rewrite IH.
  destruct (str_eq nm' []); [reflexivity|].
  destruct (decide (nm = nm')) as [<-|Hne].
  - rewrite lookup_insert_eq, Hwb. reflexivity.
  - rewrite lookup_insert_ne by exact Hne. reflexivity.
Qed.

Lemma refreshOutcome_setBindingEnabled (selected : list jsstring)
  (binding : StatusBarBinding) (enabled : bool) (h : Host) :
  refreshOutcome selected (snd (setBindingEnabled binding enabled h))
  = refreshOutcome selected h.
Proof.
  unfold refreshOutcome.
  destruct (worldbooks h !! Binding.worldbook_name binding) as [worldbook|]
    eqn:Hwb.
  - rewrite (setBindingEnabled_readable _ _ _ _ Hwb).
    cbn [snd toggledHost worldbooks].
    rewrite (firstUnreadable_insert _ _ _ _ _ Hwb). reflexivity.
  - rewrite (setBindingEnabled_unreadable _ _ _ Hwb). reflexivity.
Qed.

(** The host a handler leaves when it ends with a refresh of the view. *)
Lemma refreshed_snd {A : Type} (m : M A) (selected : list jsstring)
  (h : Host) :
  snd ((let! _ := m in refreshManagerView selected) h) = snd (m h).
Proof.
  unfold bind. destruct (m h) as [[a|e] h1]; [|reflexivity].
  rewrite refreshManagerView_run. reflexivity.
Qed.

(** The handlers, run. *)
Lemma onToggleBinding_run (id : jsstring) (selected : list jsstring)
  (h : Host) :
  onToggleBinding id selected h
  = match findBinding id (bindings h) with
    | None => (Ok tt, h)
    | Some binding =>
        let targetEnabled := negb (bothEnabled (liveStateOf binding h)) in
        let h1 :=
          match setBindingEnabled binding targetEnabled h with
          | (Ok _, h1) =>
              emit (Toasted (Toggled (Binding.label binding) targetEnabled))
                   h1
          | (Throw _, h1) => emit (Toasted ToggleFailed) h1
          end in
        (refreshOutcome selected h1, h1)
    end.
Proof.
  unfold onToggleBinding. unfold bind at 1. unfold getBindings.
  cbv beta iota.
  destruct (findBinding id (bindings h)) as [binding|]; [|reflexivity].
  unfold bind at 1. rewrite getBindingLiveState_liveStateOf. cbv beta iota.
  unfold bind at 1. unfold tryCatch, bind, toastr, bothEnabled. cbv zeta.
  destruct (setBindingEnabled binding _ h) as [[[]|e] h1];
    apply refreshManagerView_run.
Qed.

Lemma onDeleteBinding_run (id : jsstring) (selected : list jsstring)
  (h : Host) :
  let h1 :=
    emit (SettingsSaved
            (List.filter (fun item => negb (str_eq (Binding.id item) id))
                         (bindings h)))
         (set_bindings
            (List.filter (fun item => negb (str_eq (Binding.id item) id))
                         (bindings h)) h) in
  onDeleteBinding id selected h
  = match refreshOutcome selected h with
    | Ok _ => (Ok tt, emit (Toasted BindingDeleted) h1)
    | Throw e => (Throw e, h1)
    end.
Proof.
  intros h1. unfold onDeleteBinding.
  unfold bind at 1. unfold getBindings. cbv beta iota.
  unfold bind at 1. unfold putBindings. cbv beta iota.
  unfold bind at 1. unfold saveSettings. cbv beta iota.
  unfold bind. rewrite refreshManagerView_run.
  change (refreshOutcome selected (emit _ (set_bindings _ h)))
    with (refreshOutcome selected h).
  destruct (refreshOutcome selected h) as [[]|e]; reflexivity.
Qed.

Lemma onRenameStyle_run (id : jsstring) (renamed : option jsstring)
  (selected : list jsstring) (h : Host) :
  onRenameStyle id renamed selected h
  = match findBinding id (bindings h), renamed with
    | Some _, Some (c :: label) =>
        let h1 :=
          emit (SettingsSaved (relabel id (c :: label) (bindings h)))
               (set_bindings (relabel id (c :: label) (bindings h)) h) in
        match refreshOutcome selected h with
        | Ok _ => (Ok tt, emit (Toasted LabelUpdated) h1)
        | Throw e => (Throw e, h1)
        end
    | _, _ => (Ok tt, h)
    end.
Proof.
  unfold onRenameStyle. unfold bind at 1. unfold getBindings.
  cbv beta iota.
  destruct (findBinding id (bindings h)) as [b|];
    [|destruct renamed as [[|c label]|]; reflexivity].
  destruct renamed as [[|c label]|]; try reflexivity.
  unfold bind at 1. unfold putBindings. cbv beta iota.
  unfold bind at 1. unfold saveSettings. cbv beta iota.
  unfold bind. rewrite refreshManagerView_run. cbv zeta.
  change (refreshOutcome selected (emit _ (set_bindings _ h)))
    with (refreshOutcome selected h).
  destruct (refreshOutcome selected h) as [[]|e]; reflexivity.
Qed.

Lemma onDeleteBinding_bindings (id : jsstring) (selected : list jsstring)
  (h : Host) :
  bindings (snd (onDeleteBinding id selected h))
  = List.filter (fun item => negb (str_eq (Binding.id item) id)) (bindings h).
Proof.
  rewrite onDeleteBinding_run.
  destruct (refreshOutcome selected h) as [[]|e]; reflexivity.
Qed.

Lemma onRenameStyle_bindings (id : jsstring) (renamed : option jsstring)
  (selected : list jsstring) (h : Host) :
  List.map tupleOf (bindings (snd (onRenameStyle id renamed selected h)))
  = List.map tupleOf (bindings h).
Proof.
  rewrite onRenameStyle_run.
  destruct (findBinding id (bindings h)); [|reflexivity].
  destruct renamed as [[|c label]|]; try reflexivity.
  cbv zeta. destruct (refreshOutcome selected h) as [[]|e];
    apply relabel_tuples.
Qed.

Lemma onToggleBinding_bindings (id : jsstring) (selected : list jsstring)
  (h : Host) :
  bindings (snd (onToggleBinding id selected h)) = bindings h.
Proof.
  rewrite onToggleBinding_run.
  destruct (findBinding id (bindings h)) as [binding|]; [|reflexivity].
  cbv zeta. cbn [snd].
  set (targetEnabled := negb _).
  pose proof (setBindingEnabled_bindings binding targetEnabled h) as Hb.
  destruct (setBindingEnabled binding targetEnabled h) as [[[]|e] h1];
    exact Hb.
Qed.

Lemma importRegexFromFile_bindings (files : list File) (h : Host) :
  bindings (snd (importRegexFromFile files h)) = bindings h.
Proof.
  destruct files as [|file rest]; [reflexivity|].
  destruct (file_text file) as [content|] eqn:Htext.
  2:{ unfold importRegexFromFile. rewrite Htext. reflexivity. }
  destruct (importRawTavernRegex (file_name file) content (tavern_regexes h))
    as [[|] store] eqn:Hraw.
  - rewrite (importRegexFromFile_accepted _ _ _ _ _ Htext Hraw). reflexivity.
  - rewrite (importRegexFromFile_refused _ _ _ _ _ Htext Hraw). reflexivity.
Qed.

(** Every operation of the panel preserves the registry invariant. *)
Lemma perform_tupleUnique (op : Operation) (h : Host) :
  tupleUnique (bindings h) -> tupleUnique (bindings (snd (perform op h))).
Proof.
  intros Hu.
  destruct op as [sels rids selected | id selected | id selected
                 | id renamed selected | files selected]; unfold perform.
  - unfold onCreateBinding. rewrite refreshed_snd.
    destruct (createBindingFromSelection_appends sels rids h)
      as (added & Hb & _ & _ & Hfresh).
    rewrite Hb. apply freshTuples_unique; assumption.
  - rewrite onToggleBinding_bindings. exact Hu.
  - rewrite onDeleteBinding_bindings. apply tupleUnique_filter. exact Hu.
  - unfold tupleUnique. rewrite onRenameStyle_bindings. exact Hu.
  - unfold onRegexFile. rewrite refreshed_snd.
    rewrite importRegexFromFile_bindings. exact Hu.
Qed.

(** Creating from one worldbook selection and one rule selection, when the
    entry resolves to [entry] and the rule to the managed rule [regex]. *)
Lemma createBindingFromSelection_single (wbItem : WorldbookSelection)
  (regexIdItem : jsstring) (entries : list WorldbookEntry)
  (entry : WorldbookEntry) (regex : TavernRegex) (h : Host) :
  worldbookName wbItem <> [] ->
  isInteger (entryUid wbItem) = true ->
  regexIdItem <> [] ->
  worldbooks h !! worldbookName wbItem = Some entries ->
  List.find (fun entryItem => num_eq_js (Entry.uid entryItem) (entryUid wbItem))
            entries = Some entry ->
  List.find (fun regexItem => str_eq (Regex.id regexItem) regexIdItem)
            (List.filter isManaged (tavern_regexes h)) = Some regex ->
  createBindingFromSelection [wbItem] [regexIdItem] h
  = match List.find (isDuplicate wbItem regexIdItem) (bindings h) with
    | Some _ => (Ok tt, emit (Toasted NoBindingCreated) h)
    | None =>
        let b := newBinding (uuidv4 (uuid_counter h)) wbItem entry regex in
        (Ok tt,
         emit (Toasted (BindingsCreated 1))
           (emit (SettingsSaved (bindings h ++ [b])) (pushed b h)))
    end.
Proof.
  intros Hname Hint Hrid Hwb Hentry Hregex.
  assert (negb (str_eq (worldbookName wbItem) [])
          && isInteger (entryUid wbItem) = true) as Hvalid.
  { unfold str_eq. rewrite (bool_decide_eq_false_2 _ Hname), Hint.
    reflexivity. }
  assert (negb (Nat.eqb (length regexIdItem) 0) = true) as Hvalid'.
  { destruct regexIdItem; [congruence | reflexivity]. }
  rewrite createBindingFromSelection_run.
  cbn [List.filter]. rewrite Hvalid, Hvalid'. cbn [length Nat.eqb orb].
  rewrite createForWorldbooks_cons, Hwb, Hentry, createForRegexes_cons, Hregex.
  destruct (List.find (isDuplicate wbItem regexIdItem) (bindings h));
    reflexivity.
Qed.

(** C3. Every operation preserves the uniqueness of the tuple
    ([worldbook_name], [worldbook_entry_uid], [regex_id]) across the
    registry.  A creation only appends bindings, with pairwise different
    tuples none of which was in the registry, so a combination whose tuple
    exists already is skipped; and creating the binding of one resolvable
    entry and one managed rule twice reports one created binding (and
    saves) the first time and none the second time. *)
Theorem registry_tuple_unique_preserved :
  (forall (op : Operation) (h : Host),
      tupleUnique (bindings h) ->
      tupleUnique (bindings (snd (perform op h))))
  /\ (forall worldbookSelections regexSelections (h : Host),
        exists added,
          bindings (snd (createBindingFromSelection worldbookSelections
                                                    regexSelections h))
          = bindings h ++ added
          /\ NoDup (List.map tupleOf added)
          /\ forall b, b ∈ added ->
                       tupleOf b ∉ List.map tupleOf (bindings h))
  /\ (forall (wbName : jsstring) (z : Z) (rid : jsstring)
             (entries : list WorldbookEntry) (entry : WorldbookEntry)
             (regex : TavernRegex) (h : Host),
        wbName <> [] -> rid <> [] ->
        worldbooks h !! wbName = Some entries ->
        entry ∈ entries -> Entry.uid entry = z ->
        regex ∈ tavern_regexes h -> Regex.id regex = rid ->
        isManaged regex = true ->
        (forall b, b ∈ bindings h -> tupleOf b <> (wbName, z, rid)) ->
        let create :=
          createBindingFromSelection [mkSelection wbName (Integer z)] [rid] in
        let h1 := snd (create h) in
        let h2 := snd (create h1) in
        (exists b, bindings h1 = bindings h ++ [b]
                   /\ tupleOf b = (wbName, z, rid))
        /\ events h1 = events h ++ [SettingsSaved (bindings h1);
                                    Toasted (BindingsCreated 1)]
        /\ bindings h2 = bindings h1
        /\ events h2 = events h1 ++ [Toasted NoBindingCreated]).
Proof.
  split; [exact perform_tupleUnique|]. split.
  - intros sels rids h.
    destruct (createBindingFromSelection_appends sels rids h)
      as (added & Hb & _ & _ & Hnodup & Hfresh).
    exists added. auto.
  - intros wbName z rid entries entry regex h Hname Hrid Hwb Hentry Huid
           Hregex Hid Hmanaged Hnew create h1 h2.
    set (wbItem := mkSelection wbName (Integer z)) in *.
    destruct (find_exists (fun entryItem =>
                 num_eq_js (Entry.uid entryItem) (entryUid wbItem))
                entries entry Hentry) as [entry' Hfind].
    { simpl. unfold num_eq. apply Z.eqb_eq. exact Huid. }
    destruct (find_exists (fun regexItem => str_eq (Regex.id regexItem) rid)
                (List.filter isManaged (tavern_regexes h)) regex)
      as [regex' Hfind'].
    { apply list_elem_of_In. apply filter_In.
      split; [apply list_elem_of_In; exact Hregex | exact Hmanaged]. }
    { apply bool_decide_eq_true_2. exact Hid. }
    pose proof (find_some_elem _ _ _ Hfind) as [_ Huid'].
    apply num_eq_js_Integer in Huid'. simpl in Huid'.
    injection Huid' as Huid'.
    pose proof (find_some_elem _ _ _ Hfind') as [_ Hid'].
    apply bool_decide_eq_true_1 in Hid'.
    set (b := newBinding (uuidv4 (uuid_counter h)) wbItem entry' regex').
    assert (tupleOf b = (wbName, z, rid)) as Htuple.
    { unfold b, tupleOf, newBinding. simpl. congruence. }
    assert (create h
            = (Ok tt, emit (Toasted (BindingsCreated 1))
                        (emit (SettingsSaved (bindings h ++ [b]))
                              (pushed b h)))) as Hrun1.
    { unfold create.
      rewrite (createBindingFromSelection_single wbItem rid entries entry'
                 regex' h Hname eq_refl Hrid Hwb Hfind Hfind').
      assert (List.find (isDuplicate wbItem rid) (bindings h) = None) as ->;
        [|reflexivity].
      apply find_none_iff. intros b' Hb'.
      destruct (isDuplicate wbItem rid b') eqn:Hdup; [|reflexivity].
      apply (isDuplicate_tuple wbItem z rid b' eq_refl) in Hdup.
      destruct (Hnew b' Hb' Hdup). }
    assert (h1 = emit (Toasted (BindingsCreated 1))
                   (emit (SettingsSaved (bindings h ++ [b])) (pushed b h)))
      as Hh1.
    { unfold h1. rewrite Hrun1. reflexivity. }
    assert (create h1 = (Ok tt, emit (Toasted NoBindingCreated) h1)) as Hrun2.
    { unfold create.
      rewrite (createBindingFromSelection_single wbItem rid entries entry'
                 regex' h1 Hname eq_refl Hrid).
      - destruct (find_exists (isDuplicate wbItem rid) (bindings h1) b)
          as [dup ->]; [| |reflexivity].
        + rewrite Hh1. simpl. apply elem_of_app. right. left.
        + apply (isDuplicate_tuple wbItem z rid b eq_refl). exact Htuple.
      - rewrite Hh1. exact Hwb.
      - exact Hfind.
      - rewrite Hh1. exact Hfind'. }
    assert (h2 = emit (Toasted NoBindingCreated) h1) as Hh2.
    { unfold h2. rewrite Hrun2. reflexivity. }
    split; [|split; [|split]].
    + exists b. rewrite Hh1. auto.
    + rewrite Hh1. simpl. rewrite <- app_assoc. reflexivity.
    + rewrite Hh2. reflexivity.
    + rewrite Hh2. reflexivity.
Qed.

End RegistryProperties.

(* ===================================================================== *)
(** ** The properties at the sample hosts *)
(* ===================================================================== *)

(** A name without the prefix gets it. *)
Lemma ensureRegexPrefix_policy_witness :
  ensureRegexPrefix (lit "Foo") = REGEX_PREFIX ++ lit "Foo".
Proof.
  destruct ensureRegexPrefix_policy as (_ & Hother & _).
  apply Hother. intros t Heq. vm_compute in Heq. discriminate Heq.
Defined.

(** The live state of the sample binding: its entry is disabled, its rule
    enabled. *)
Lemma getBindingLiveState_never_throws_witness :
  exists live,
    getBindingLiveState Sample.binding Sample.host = (Ok live, Sample.host)
    /\ worldbook_enabled live = Some false
    /\ regex_enabled live = Some true.
Proof.
  destruct (getBindingLiveState_never_throws Sample.binding Sample.host)
    as (live & Hrun & _ & _ & Hentry & _ & Hregex).
  exists live. split; [exact Hrun|]. split.
  - apply (Hentry [Sample.otherEntry] Sample.entry []).
    + reflexivity.
    + intros earlier Hin. apply list_elem_of_singleton in Hin. subst earlier.
      simpl. lia.
    + reflexivity.
  - apply (Hregex [Sample.managedRule] Sample.driftedRule []).
    + reflexivity.
    + intros earlier Hin. apply list_elem_of_singleton in Hin. subst earlier.
      vm_compute. discriminate.
    + reflexivity.
Defined.

(** Enabling a binding whose rule is enabled already and has lost its
    prefix: the rule gets the prefix back. *)
Lemma setBindingEnabled_repairs_matched_rule_witness :
  tavern_regexes (snd (setBindingEnabled Sample.binding true Sample.host)) !! 1
  = Some (Regex.mk (lit "r0") (REGEX_PREFIX ++ lit "Bar") true (lit "<b/>")).
Proof.
  destruct (setBindingEnabled_repairs_matched_rule
              Sample.binding true Sample.host true)
    as (_ & _ & Hrule & _).
  - vm_compute. reflexivity.
  - exact (Hrule 1 Sample.driftedRule eq_refl eq_refl).
Defined.

(** The other entry, the other rule and the registry are untouched. *)
Lemma setBindingEnabled_frame_witness :
  let h' := snd (setBindingEnabled Sample.binding true Sample.host) in
  bindings h' = [Sample.binding]
  /\ tavern_regexes h' !! 0 = Some Sample.managedRule
  /\ exists worldbook',
       worldbooks h' !! lit "wb" = Some worldbook'
       /\ worldbook' !! 0 = Some Sample.otherEntry.
Proof.
  destruct (setBindingEnabled_frame Sample.binding true Sample.host)
    as (Hb & _ & _ & Hentries & _ & Hrules).
  split; [exact Hb|]. split.
  - apply (Hrules 0 Sample.managedRule eq_refl).
    vm_compute. discriminate.
  - destruct (Hentries (lit "wb") [Sample.otherEntry; Sample.entry] eq_refl)
      as (worldbook' & Hlookup & _ & Hsame).
    exists worldbook'. split; [exact Hlookup|].
    apply (Hsame 0 Sample.otherEntry eq_refl). simpl. lia.
Defined.

(** The sample payload has the second shape. *)
Lemma parseImportedRegexList_first_shape_witness :
  parseImportedRegexList Sample.payload
  = [Sample.descriptor (lit "r1") (lit "Foo")].
Proof.
  apply (proj2 (parseImportedRegexList_first_shape Sample.payload _)).
  apply ShapeField. reflexivity.
Defined.

(** The refused file. *)
Lemma importRegexFromFile_refused_changes_nothing_witness :
  let h' := snd (importRegexFromFile (H := Sample.api) [Sample.badFile]
                                     Sample.host) in
  events h' = [Toasted ImportFailed]
  /\ bindings h' = [Sample.binding]
  /\ tavern_regexes h' = [Sample.managedRule; Sample.driftedRule].
Proof.
  destruct (importRegexFromFile_refused_changes_nothing
              (H := Sample.api) Sample.badFile [] (lit "{}")
              [Sample.managedRule; Sample.driftedRule] Sample.host
              eq_refl eq_refl)
    as (He & Hr & Hb & _).
  split; [exact He|]. split; [exact Hb | exact Hr].
Defined.

(** The accepted file.  The host stores the two rules it brings as
    "Untitled" and "Second"; the payload names one rule, "Foo": the first
    new rule is named after the payload, the second, the names being
    exhausted, after itself, and the rules that were there keep their
    names. *)
Lemma importRegexFromFile_retags_new_rules_witness :
  let h' := snd (importRegexFromFile (H := Scenario.api) [Sample.goodFile]
                                     Sample.host) in
  importedNamesOf (H := Scenario.api) (lit "{}") = [lit "Foo"]
  /\ tavern_regexes h' !! 1 = Some Sample.driftedRule
  /\ tavern_regexes h' !! 2
     = Some (Regex.mk (lit "r1") (REGEX_PREFIX ++ lit "Foo") false
                      (lit "<div/>"))
  /\ tavern_regexes h' !! 3
     = Some (Regex.mk (lit "r2") (REGEX_PREFIX ++ lit "Second") true [])
  /\ Regex.script_name <$> tavern_regexes h' !! 2
     = Some (REGEX_PREFIX ++ lit "Foo").
Proof.
  destruct (importRegexFromFile_retags_new_rules
              (H := Scenario.api) Sample.goodFile [] (lit "{}")
              [Sample.managedRule; Sample.driftedRule;
               Scenario.untitledRule; Scenario.secondRule]
              Sample.host eq_refl eq_refl)
    as (_ & Hold & Hnew & Hnames & _ & Hfoo).
  assert (forall id, id = lit "r1" \/ id = lit "r2" ->
            id ∉ List.map Regex.id (tavern_regexes Sample.host)) as Hfresh.
  { intros id Hid Hin. vm_compute in Hin.
    apply elem_of_cons in Hin as [Hin|Hin];
      [destruct Hid as [-> | ->]; discriminate Hin|].
    apply elem_of_cons in Hin as [Hin|Hin];
      [destruct Hid as [-> | ->]; discriminate Hin|].
    inversion Hin. }
  split; [|split; [|split; [|split]]].
  - apply (Hnames Sample.payload eq_refl).
    intros descriptor Hin. apply list_elem_of_singleton in Hin as ->.
    reflexivity.
  - apply (Hold 1 Sample.driftedRule eq_refl). right. left.
  - apply (Hnew 2 Scenario.untitledRule eq_refl). apply Hfresh. left.
    reflexivity.
  - apply (Hnew 3 Scenario.secondRule eq_refl). apply Hfresh. right.
    reflexivity.
  - apply (Hfoo eq_refl 2 Scenario.untitledRule eq_refl); [|reflexivity].
    apply Hfresh. left. reflexivity.
Defined.

(** One rule was imported; two managed rules are reported. *)
Lemma importRegexFromFile_reports_managed_count_witness :
  last (events (snd (importRegexFromFile (H := Sample.api) [Sample.goodFile]
                                         Sample.host)))
  = Some (Toasted (Imported 2)).
Proof.
  destruct (importRegexFromFile_reports_managed_count
              (H := Sample.api) Sample.goodFile [] (lit "{}")
              [Sample.managedRule; Sample.driftedRule; Sample.importedRule]
              Sample.host eq_refl eq_refl)
    as (_ & Hlast & _).
  exact Hlast.
Defined.

(** Creating the same binding twice on the empty registry. *)
Lemma registry_tuple_unique_preserved_witness :
  let create :=
    createBindingFromSelection (H := Sample.api)
      [mkSelection (lit "wb") (Integer 7)] [lit "r9"] in
  let h1 := snd (create Sample.emptyRegistry) in
  let h2 := snd (create h1) in
  events h1 = [SettingsSaved (bindings h1); Toasted (BindingsCreated 1)]
  /\ length (bindings h1) = 1
  /\ bindings h2 = bindings h1
  /\ events h2 = events h1 ++ [Toasted NoBindingCreated].
Proof.
  destruct (registry_tuple_unique_preserved (H := Sample.api))
    as (_ & _ & Htwice).
  destruct (Htwice (lit "wb") 7%Z (lit "r9")
              [Sample.otherEntry; Sample.entry] Sample.entry
              Sample.managedRule Sample.emptyRegistry)
    as ((b & Hb & _) & He1 & Hb2 & He2).
  - vm_compute. discriminate.
  - vm_compute. discriminate.
  - reflexivity.
  - right. left.
  - reflexivity.
  - left.
  - reflexivity.
  - reflexivity.
  - intros b Hin. inversion Hin.
  - split; [exact He1|]. split; [rewrite Hb; reflexivity|].
    split; [exact Hb2 | exact He2].
Defined.

(* ===================================================================== *)
(** ** Strings and names: further properties *)
(* ===================================================================== *)

Lemma trimStart_split (s : jsstring) : exists pre, s = pre ++ trimStart s.
Proof.
  induction s as [|a s [pre IH]]; simpl; [exists []; reflexivity|].
  destruct (isWhiteSpace a).
  - exists (a :: pre). simpl. rewrite <- IH. reflexivity.
  - exists []. reflexivity.
Qed.

Lemma trimStart_id (s : jsstring) :
  (forall c rest, s = c :: rest -> isWhiteSpace c = false) ->
  trimStart s = s.
Proof.
  destruct s as [|a s]; simpl; [reflexivity|].
  intros Hhead. rewrite (Hhead a s eq_refl). reflexivity.
Qed.

Lemma trimEnd_last (s : jsstring) (c : N) (front : jsstring) :
  trimEnd s = front ++ [c] -> isWhiteSpace c = false.
Proof.
  unfold trimEnd. intros Heq. apply (f_equal (@rev N)) in Heq.
  rewrite rev_involutive, rev_app_distr in Heq. simpl in Heq.
  exact (trimStart_head _ _ _ Heq).
Qed.

Lemma trimEnd_prefix (s : jsstring) : exists post, s = trimEnd s ++ post.
Proof.
  destruct (trimStart_split (rev s)) as [pre Hs].
  exists (rev pre). unfold trimEnd.
  apply (f_equal (@rev N)) in Hs.
  rewrite rev_involutive, rev_app_distr in Hs. exact Hs.
Qed.

Lemma trimEnd_id (s : jsstring) :
  (forall c front, s = front ++ [c] -> isWhiteSpace c = false) ->
  trimEnd s = s.
Proof.
  unfold trimEnd. intros Hlast.
  rewrite trimStart_id; [apply rev_involutive|].
  intros c rest Hr. apply (Hlast c (rev rest)).
  apply (f_equal (@rev N)) in Hr. rewrite rev_involutive in Hr. exact Hr.
Qed.

Lemma trim_trimmed (s : jsstring) : trimmedString (trim s).
Proof.
  split.
  - intros c rest Heq. unfold trim in Heq.
    destruct (trimEnd_prefix (trimStart s)) as [post Hp].
    rewrite Heq in Hp. simpl in Hp. exact (trimStart_head _ _ _ Hp).
  - intros c front Heq. exact (trimEnd_last _ _ _ Heq).
Qed.

Lemma trim_id (s : jsstring) : trimmedString s -> trim s = s.
Proof.
  intros [Hhead Hlast]. unfold trim.
  rewrite (trimStart_id s Hhead). apply trimEnd_id. exact Hlast.
Qed.

(** X1. A managed name always starts with the prefix, and two names are
    given the same managed name only when they are equal or one of them is
    the prefix followed by the other, unprefixed, one. *)
Theorem ensureRegexPrefix_same_name :
  (forall s, startsWith (ensureRegexPrefix s) REGEX_PREFIX = true)
  /\ (forall a b,
        ensureRegexPrefix a = ensureRegexPrefix b <->
        a = b
        \/ (startsWith b REGEX_PREFIX = false /\ a = REGEX_PREFIX ++ b)
        \/ (startsWith a REGEX_PREFIX = false /\ b = REGEX_PREFIX ++ a)).
Proof.
  split; [exact ensureRegexPrefix_managed|].
  intros a b. split.
  - unfold ensureRegexPrefix.
    destruct (startsWith a REGEX_PREFIX) eqn:Ea;
      destruct (startsWith b REGEX_PREFIX) eqn:Eb; intros Heq.
    + left. exact Heq.
    + right. left. auto.
    + right. right. auto.
    + left. exact (app_inv_head _ _ _ Heq).
  - intros [-> | [[Eb ->] | [Ea ->]]]; [reflexivity| |].
    + unfold ensureRegexPrefix. rewrite startsWith_app, Eb. reflexivity.
    + unfold ensureRegexPrefix. rewrite startsWith_app, Ea. reflexivity.
Qed.

Lemma dropFenceTag_tag (tag rest : jsstring) :
  Forall (fun c => isFenceTagChar c = true) tag ->
  dropFenceTag (tag ++ 0x0A%N :: rest) = 0x0A%N :: rest.
Proof.
  induction 1 as [|c tag Hc _ IH]; simpl; [reflexivity|].
  rewrite Hc. exact IH.
Qed.

Lemma stripCodeFence_trimmed (text : jsstring) :
  trimmedString (stripCodeFence text).
Proof.
  unfold stripCodeFence.
  destruct (startsWith (trim text) FENCE); [|apply trim_trimmed].
  destruct (dropFenceTag (drop 3 (trim text))) as [|c rest];
    [apply trim_trimmed|].
  destruct c as [|p]; [apply trim_trimmed|].
  do 4 (destruct p as [p|p|]; try apply trim_trimmed).
  destruct (endsWith rest (0x0A%N :: FENCE)); apply trim_trimmed.
Qed.

(** X2. [stripCodeFence]: a text that, trimmed, does not start with a
    fence is only trimmed; a body wrapped in a fence with any language tag
    comes back, trimmed; and the result never begins or ends with white
    space. *)
Theorem stripCodeFence_unwraps :
  (forall text,
      startsWith (trim text) FENCE = false -> stripCodeFence text = trim text)
  /\ (forall tag body,
        Forall (fun c => isFenceTagChar c = true) tag ->
        stripCodeFence
          (FENCE ++ tag ++ [0x0A%N] ++ body ++ [0x0A%N] ++ FENCE)
        = trim body)
  /\ (forall text, trimmedString (stripCodeFence text)).
Proof.
  split; [|split].
  - intros text Hno. unfold stripCodeFence. rewrite Hno. reflexivity.
  - intros tag body Htag.
    set (text := FENCE ++ tag ++ [0x0A%N] ++ body ++ [0x0A%N] ++ FENCE).
    assert (trim text = text) as Htrim.
    { apply trim_id. split.
      - intros c rest Heq. unfold text in Heq. simpl in Heq.
        injection Heq as <- _. reflexivity.
      - intros c front Heq.
        assert (text = (FENCE ++ tag ++ [0x0A%N] ++ body
                          ++ [0x0A; 0x60; 0x60]%N) ++ [0x60%N]) as Hsplit.
        { unfold text, FENCE. rewrite <- !app_assoc. reflexivity. }
        rewrite Hsplit in Heq. apply app_inj_tail in Heq as [_ <-].
        reflexivity. }
    unfold stripCodeFence. rewrite Htrim.
    unfold text at 1. rewrite startsWith_app.
    assert (drop 3 text = tag ++ 0x0A%N :: body ++ [0x0A%N] ++ FENCE) as ->
      by reflexivity.
    rewrite (dropFenceTag_tag tag _ Htag).
    assert (endsWith (body ++ [0x0A%N] ++ FENCE) (0x0A%N :: FENCE) = true)
      as ->.
    { unfold endsWith. rewrite rev_app_distr. apply startsWith_app. }
    rewrite length_app. simpl length.
    replace (length body + 4 - 4) with (length body) by lia.
    rewrite take_app_length. reflexivity.
  - exact stripCodeFence_trimmed.
Qed.

Lemma openRegexPreview_run (binding : StatusBarBinding) (h : Host) :
  openRegexPreview binding h
  = (Ok match List.find (regexMatches binding) (tavern_regexes h) with
        | None => PreviewMissing
        | Some regex =>
            if Nat.eqb (length (stripCodeFence (Regex.replace_string regex))) 0
            then PreviewEmpty
            else PreviewHtml (stripCodeFence (Regex.replace_string regex))
        end, h).
Proof.
  unfold openRegexPreview, bind, getRegexById, getTavernRegexes, bind, ret,
    regexMatches.
  destruct (List.find _ (tavern_regexes h)) as [regex|]; [|reflexivity].
  destruct (Nat.eqb _ 0); reflexivity.
Qed.

(** X3. The preview never alters the host; it reports a missing rule
    exactly when no rule has the binding's id; and the HTML it shows is
    never empty and never begins or ends with white space. *)
Theorem openRegexPreview_shows (binding : StatusBarBinding) (h : Host) :
  snd (openRegexPreview binding h) = h
  /\ (fst (openRegexPreview binding h) = Ok PreviewMissing <->
      forall regex, regex ∈ tavern_regexes h ->
                    Regex.id regex <> Binding.regex_id binding)
  /\ (forall html,
        fst (openRegexPreview binding h) = Ok (PreviewHtml html) ->
        html <> [] /\ trimmedString html).
Proof.
  rewrite openRegexPreview_run. simpl.
  split; [reflexivity|].
  destruct (List.find (regexMatches binding) (tavern_regexes h))
    as [regex|] eqn:Hfind.
  - pose proof (stripCodeFence_trimmed (Regex.replace_string regex)) as Htr.
    apply find_some_elem in Hfind as [Hin Hm].
    apply bool_decide_eq_true_1 in Hm.
    split.
    + split.
      * destruct (Nat.eqb _ 0); discriminate.
      * intros Hnone. destruct (Hnone regex Hin Hm).
    + intros html Heq.
      destruct (stripCodeFence (Regex.replace_string regex)) as [|c rest];
        simpl in Heq; [discriminate|].
      injection Heq as <-. split; [discriminate | exact Htr].
  - split.
    + split; [|reflexivity]. intros _ regex Hin Hid.
      rewrite find_none_iff in Hfind. specialize (Hfind regex Hin).
      unfold regexMatches, str_eq in Hfind.
      apply bool_decide_eq_false_1 in Hfind. auto.
    + intros html Heq. discriminate.
Qed.

(* ===================================================================== *)
(** ** Name inference: further properties *)
(* ===================================================================== *)

Section NameInference.
Context `{HostApi}.

Lemma coalesce_nullish (a b : jsvalue) :
  a = None \/ a = Some JNull -> coalesce a b = b.
Proof. intros [-> | ->]; reflexivity. Qed.

Lemma coalesce_value (v : JSON) (b : jsvalue) :
  v <> JNull -> coalesce (Some v) b = Some v.
Proof. destruct v; intros Hv; try reflexivity. congruence. Qed.

Lemma descriptorName_trimmed (item : JSON) :
  trimmedString (descriptorName item).
Proof.
  unfold descriptorName.
  destruct (nameValue item) as [[ | b | n | s | items | props ]|];
    try apply trim_trimmed.
  split; intros c rest Heq; [discriminate|].
  destruct rest; discriminate.
Qed.

Lemma getRegexDisplayName_trimmed (item : JSON) (raw : jsstring) :
  getRegexDisplayName item = Ok raw -> trimmedString raw.
Proof.
  rewrite getRegexDisplayName_spec.
  destruct (nameReadable item); [|discriminate].
  intros Heq. injection Heq as <-. apply descriptorName_trimmed.
Qed.

Lemma nameReadable_false (item : JSON) :
  nameReadable item = false
  <-> item = JNull
      \/ exists v, nameValue item = Some v /\ stringThrows v = true.
Proof.
  destruct item as [ | b | n | s | items | props ];
    try (split; [discriminate | intros [Hn | (v & Hv & _)]; discriminate]).
  - split; [left; reflexivity | reflexivity].
  - unfold nameReadable.
    destruct (nameValue (JObj props)) as [v|].
    + rewrite negb_false_iff. split.
      * intros Hv. right. exists v. auto.
      * intros [Hn | (v' & Hv' & Hthrows)]; [discriminate|]. congruence.
    + split; [discriminate|].
      intros [Hn | (v' & Hv' & _)]; discriminate.
Qed.

(** X4. [getRegexDisplayName] throws, a [TypeError], exactly on [null]
    and on a descriptor whose name value does not convert to a string.  On
    an object it takes the first of [script_name], [scriptName], [name],
    [title] that is present and not [null], later fields being ignored
    even when that one is empty, and returns its text, trimmed, or throws
    when it has none; it returns the empty string when no field is there;
    what it returns never begins or ends with white space. *)
Theorem getRegexDisplayName_priority :
  (forall item,
      getRegexDisplayName item = Throw TypeError
      <-> item = JNull
          \/ exists v, nameValue item = Some v /\ stringThrows v = true)
  /\ (forall item e, getRegexDisplayName item = Throw e -> e = TypeError)
  /\ (forall props before k after v,
        NAME_KEYS = before ++ k :: after ->
        (forall k', k' ∈ before ->
           alist_get k' props = None \/ alist_get k' props = Some JNull) ->
        alist_get k props = Some v -> v <> JNull ->
        getRegexDisplayName (JObj props)
        = match String_ v with
          | Ok text => Ok (trim text)
          | Throw e => Throw e
          end)
  /\ (forall props,
        (forall k, k ∈ NAME_KEYS ->
           alist_get k props = None \/ alist_get k props = Some JNull) ->
        getRegexDisplayName (JObj props) = Ok [])
  /\ (forall item raw,
        getRegexDisplayName item = Ok raw -> trimmedString raw).
Proof.
  split; [|split; [|split; [|split]]].
  - intros item. rewrite <- nameReadable_false, getRegexDisplayName_spec.
    destruct (nameReadable item); split; try discriminate; reflexivity.
  - intros item e. rewrite getRegexDisplayName_spec.
    destruct (nameReadable item); [discriminate|]. congruence.
  - intros props before k after v Hkeys Hbefore Hk Hv.
    unfold getRegexDisplayName. cbn [optChain].
    destruct before as [|k1 [|k2 [|k3 [|k4 more]]]];
      unfold NAME_KEYS in Hkeys; simplify_eq/=.
    + rewrite Hk, coalesce_value by exact Hv. reflexivity.
    + rewrite (coalesce_nullish (alist_get (lit "script_name") props))
        by (apply Hbefore; left).
      rewrite Hk, coalesce_value by exact Hv. reflexivity.
    + rewrite (coalesce_nullish (alist_get (lit "script_name") props))
        by (apply Hbefore; left).
      rewrite (coalesce_nullish (alist_get (lit "scriptName") props))
        by (apply Hbefore; right; left).
      rewrite Hk, coalesce_value by exact Hv. reflexivity.
    + rewrite (coalesce_nullish (alist_get (lit "script_name") props))
        by (apply Hbefore; left).
      rewrite (coalesce_nullish (alist_get (lit "scriptName") props))
        by (apply Hbefore; right; left).
      rewrite (coalesce_nullish (alist_get (lit "name") props))
        by (apply Hbefore; right; right; left).
      rewrite Hk, coalesce_value by exact Hv. reflexivity.
    + destruct more; discriminate.
  - intros props Hall.
    unfold getRegexDisplayName. cbn [optChain].
    rewrite (coalesce_nullish (alist_get (lit "script_name") props))
      by (apply Hall; left).
    rewrite (coalesce_nullish (alist_get (lit "scriptName") props))
      by (apply Hall; right; left).
    rewrite (coalesce_nullish (alist_get (lit "name") props))
      by (apply Hall; right; right; left).
    rewrite (coalesce_nullish (alist_get (lit "title") props))
      by (apply Hall; right; right; right; left).
    reflexivity.
  - exact getRegexDisplayName_trimmed.
Qed.

Lemma mapDisplayNames_null (items : list JSON) :
  JNull ∈ items -> exists e, mapDisplayNames items = Throw e.
Proof.
  induction items as [|item items IH]; intros Hin; [inversion Hin|].
  apply elem_of_cons in Hin as [<-|Hin].
  - exists TypeError. reflexivity.
  - destruct (IH Hin) as [e He]. simpl.
    destruct (getRegexDisplayName item) as [raw|e']; [|eauto].
    rewrite He. eauto.
Qed.

Lemma mapDisplayNames_ok (items : list JSON) (names : list jsstring) :
  mapDisplayNames items = Ok names ->
  length names = length items /\ Forall trimmedString names.
Proof.
  revert names. induction items as [|item items IH]; intros names; simpl.
  - intros Heq. injection Heq as <-. split; [reflexivity|constructor].
  - destruct (getRegexDisplayName item) as [raw|e] eqn:Hraw; [|discriminate].
    destruct (mapDisplayNames items) as [names'|e]; [|discriminate].
    intros Heq. injection Heq as <-.
    destruct (IH names' eq_refl) as [Hlen Hall]. split.
    + simpl. rewrite Hlen. reflexivity.
    + constructor; [exact (getRegexDisplayName_trimmed _ _ Hraw) | exact Hall].
Qed.

(** X5. The inferred names: none when the file is not JSON; none at all
    when one of the descriptors is [null]; otherwise at most one per
    descriptor, each of them non-empty and without white space at either
    end. *)
Theorem importedNamesOf_names (content : jsstring) :
  (JSON_parse content = None -> importedNamesOf content = [])
  /\ (forall parsed,
        JSON_parse content = Some parsed ->
        JNull ∈ parseImportedRegexList parsed ->
        importedNamesOf content = [])
  /\ (forall parsed,
        JSON_parse content = Some parsed ->
        length (importedNamesOf content)
        <= length (parseImportedRegexList parsed))
  /\ (forall name,
        name ∈ importedNamesOf content -> name <> [] /\ trimmedString name).
Proof.
  unfold importedNamesOf. split; [|split; [|split]].
  - intros ->. reflexivity.
  - intros parsed -> Hnull.
    destruct (mapDisplayNames_null _ Hnull) as [e ->]. reflexivity.
  - intros parsed ->.
    destruct (mapDisplayNames (parseImportedRegexList parsed))
      as [names|e] eqn:Hmap; [|simpl; lia].
    apply mapDisplayNames_ok in Hmap as [<- _]. apply filter_length_le.
  - intros name Hin.
    destruct (JSON_parse content) as [parsed|]; [|inversion Hin].
    destruct (mapDisplayNames (parseImportedRegexList parsed))
      as [names|e] eqn:Hmap; [|inversion Hin].
    apply mapDisplayNames_ok in Hmap as [_ Hall].
    apply list_elem_of_In, filter_In in Hin as [Hin Hlen].
    split.
    + intros ->. discriminate.
    + rewrite Forall_forall in Hall. apply Hall, list_elem_of_In. exact Hin.
Qed.

End NameInference.

(* ===================================================================== *)
(** ** Dual-resource toggle: further properties *)
(* ===================================================================== *)

Lemma find_map_same {A : Type} (p : A -> bool) (g : A -> A) (l : list A) :
  (forall a, p (g a) = p a) ->
  List.find p (List.map g l) = option_map g (List.find p l).
Proof.
  intros Hp. induction l as [|a l IH]; simpl; [reflexivity|].
  rewrite Hp. destruct (p a); [reflexivity | exact IH].
Qed.

Lemma existsb_map_same {A : Type} (p : A -> bool) (g : A -> A) (l : list A) :
  (forall a, p (g a) = p a) ->
  existsb p (List.map g l) = existsb p l.
Proof.
  intros Hp. induction l as [|a l IH]; simpl; [reflexivity|].
  rewrite Hp, IH. reflexivity.
Qed.

Lemma find_existsb {A : Type} (p : A -> bool) (l : list A) :
  existsb p l = match List.find p l with Some _ => true | None => false end.
Proof.
  induction l as [|a l IH]; simpl; [reflexivity|].
  destruct (p a); [reflexivity | exact IH].
Qed.

Lemma map_id_on {A : Type} (g : A -> A) (l : list A) :
  (forall a, a ∈ l -> g a = a) -> List.map g l = l.
Proof.
  induction l as [|a l IH]; intros Hg; simpl; [reflexivity|].
  rewrite (Hg a) by left. rewrite IH; [reflexivity|].
  intros b Hb. apply Hg. right. exact Hb.
Qed.

Lemma ensureRegexPrefix_idem (s : jsstring) :
  ensureRegexPrefix (ensureRegexPrefix s) = ensureRegexPrefix s.
Proof.
  unfold ensureRegexPrefix at 1. rewrite ensureRegexPrefix_managed.
  reflexivity.
Qed.

Lemma entryMatches_toggled (binding : StatusBarBinding) (enabled : bool)
  (entry : WorldbookEntry) :
  entryMatches binding (toggledEntry binding enabled entry)
  = entryMatches binding entry.
Proof.
  unfold toggledEntry, toggleEntry.
  destruct (entryMatches binding entry) eqn:Em; simpl; [|exact Em].
  exact Em.
Qed.

Lemma regexMatches_toggled (binding : StatusBarBinding) (enabled : bool)
  (regex : TavernRegex) :
  regexMatches binding (toggledRegex binding enabled regex)
  = regexMatches binding regex.
Proof.
  unfold toggledRegex, toggleRegex.
  destruct (regexMatches binding regex) eqn:Em; simpl; [|exact Em].
  exact Em.
Qed.

Lemma toggledEntry_idem (binding : StatusBarBinding) (enabled : bool)
  (entry : WorldbookEntry) :
  toggledEntry binding enabled (toggledEntry binding enabled entry)
  = toggledEntry binding enabled entry.
Proof.
  unfold toggledEntry at 1. unfold toggleEntry.
  rewrite entryMatches_toggled.
  unfold toggledEntry, toggleEntry.
  destruct (entryMatches binding entry); reflexivity.
Qed.

Lemma toggledRegex_idem (binding : StatusBarBinding) (enabled : bool)
  (regex : TavernRegex) :
  toggledRegex binding enabled (toggledRegex binding enabled regex)
  = toggledRegex binding enabled regex.
Proof.
  unfold toggledRegex at 1. unfold toggleRegex.
  rewrite regexMatches_toggled.
  unfold toggledRegex, toggleRegex.
  destruct (regexMatches binding regex); simpl; [|reflexivity].
  unfold regexWith. simpl. rewrite ensureRegexPrefix_idem. reflexivity.
Qed.

Lemma toggledEntry_enabled (binding : StatusBarBinding) (enabled : bool)
  (entry : WorldbookEntry) :
  entryMatches binding entry = true ->
  Entry.enabled (toggledEntry binding enabled entry) = enabled.
Proof.
  intros Hm. unfold toggledEntry, toggleEntry. rewrite Hm. reflexivity.
Qed.

Lemma toggledRegex_enabled (binding : StatusBarBinding) (enabled : bool)
  (regex : TavernRegex) :
  regexMatches binding regex = true ->
  Regex.enabled (toggledRegex binding enabled regex) = enabled
  /\ isManaged (toggledRegex binding enabled regex) = true.
Proof.
  intros Hm. unfold toggledRegex, toggleRegex. rewrite Hm. simpl.
  split; [reflexivity|]. apply ensureRegexPrefix_managed.
Qed.

(** The live state read right after both updates went through. *)
Lemma getBindingLiveState_toggledHost (binding : StatusBarBinding)
  (enabled : bool) (worldbook : list WorldbookEntry) (h : Host) :
  getBindingLiveState binding (toggledHost binding enabled worldbook h)
  = (Ok {| worldbook_enabled :=
             if existsb (entryMatches binding) worldbook
             then Some enabled else None;
           regex_enabled :=
             if existsb (regexMatches binding) (tavern_regexes h)
             then Some enabled else None |},
     toggledHost binding enabled worldbook h).
Proof.
  rewrite getBindingLiveState_run. f_equal. f_equal.
  unfold toggledHost at 1 2. cbn [worldbooks tavern_regexes].
  rewrite lookup_insert_eq.
  rewrite (find_map_same _ _ _ (entryMatches_toggled binding enabled)).
  rewrite (find_map_same _ _ _ (regexMatches_toggled binding enabled)).
  rewrite !find_existsb. f_equal.
  - destruct (List.find (entryMatches binding) worldbook) as [entry|] eqn:Hf;
      [|reflexivity].
    apply find_some_elem in Hf as [_ Hm]. simpl.
    rewrite (toggledEntry_enabled _ _ _ Hm). reflexivity.
  - destruct (List.find (regexMatches binding) (tavern_regexes h))
      as [regex|] eqn:Hf; [|reflexivity].
    apply find_some_elem in Hf as [_ Hm]. simpl.
    destruct (toggledRegex_enabled binding enabled regex Hm) as [-> _].
    reflexivity.
Qed.

Lemma existsb_true_elem {A : Type} (p : A -> bool) (l : list A) :
  existsb p l = true <-> exists a, a ∈ l /\ p a = true.
Proof.
  rewrite existsb_exists. split; intros (a & Hin & Hp); exists a;
    (split; [apply list_elem_of_In; exact Hin | exact Hp]).
Qed.

(** X6. Reading the live state right after a toggle whose worldbook could
    be read: each side that has a matching resource reports the requested
    value, each side that has none reports [null], whether the toggle ended
    well or with [SyncError]. *)
Theorem setBindingEnabled_then_live (binding : StatusBarBinding)
  (enabled : bool) (h : Host) (worldbook : list WorldbookEntry) :
  worldbooks h !! Binding.worldbook_name binding = Some worldbook ->
  let h' := snd (setBindingEnabled binding enabled h) in
  exists live,
    getBindingLiveState binding h' = (Ok live, h')
    /\ ((exists entry, entry ∈ worldbook
                       /\ Entry.uid entry = Binding.worldbook_entry_uid binding)
        -> worldbook_enabled live = Some enabled)
    /\ ((forall entry, entry ∈ worldbook ->
                       Entry.uid entry <> Binding.worldbook_entry_uid binding)
        -> worldbook_enabled live = None)
    /\ ((exists regex, regex ∈ tavern_regexes h
                       /\ Regex.id regex = Binding.regex_id binding)
        -> regex_enabled live = Some enabled)
    /\ ((forall regex, regex ∈ tavern_regexes h ->
                       Regex.id regex <> Binding.regex_id binding)
        -> regex_enabled live = None).
Proof.
  intros Hwb h'. subst h'.
  rewrite (setBindingEnabled_readable _ _ _ _ Hwb). cbn [snd].
  eexists. split; [apply getBindingLiveState_toggledHost|]. cbn.
  split; [|split; [|split]].
  - intros (entry & Hin & Huid).
    assert (existsb (entryMatches binding) worldbook = true) as ->;
      [|reflexivity].
    apply existsb_true_elem. exists entry. split; [exact Hin|].
    apply Z.eqb_eq. exact Huid.
  - intros Hnone.
    assert (existsb (entryMatches binding) worldbook = false) as ->;
      [|reflexivity].
    apply existsb_false_iff. intros e He. apply entryMatches_false. auto.
  - intros (regex & Hin & Hid).
    assert (existsb (regexMatches binding) (tavern_regexes h) = true) as ->;
      [|reflexivity].
    apply existsb_true_elem. exists regex. split; [exact Hin|].
    apply bool_decide_eq_true_2. exact Hid.
  - intros Hnone.
    assert (existsb (regexMatches binding) (tavern_regexes h) = false) as ->;
      [|reflexivity].
    apply existsb_false_iff. intros r Hr. apply regexMatches_false. auto.
Qed.

(** X7. Toggling to the same value twice ends like toggling once: the
    same outcome, the same worldbooks, the same rules, the same registry. *)
Theorem setBindingEnabled_idempotent (binding : StatusBarBinding)
  (enabled : bool) (h : Host) :
  let once := setBindingEnabled binding enabled h in
  let twice := setBindingEnabled binding enabled (snd once) in
  fst twice = fst once
  /\ worldbooks (snd twice) = worldbooks (snd once)
  /\ tavern_regexes (snd twice) = tavern_regexes (snd once)
  /\ bindings (snd twice) = bindings (snd once).
Proof.
  intros once twice. subst once twice.
  destruct (worldbooks h !! Binding.worldbook_name binding) as [worldbook|]
    eqn:Hwb.
  - rewrite (setBindingEnabled_readable _ _ _ _ Hwb). cbn [snd fst].
    rewrite (setBindingEnabled_readable _ _ _
               (List.map (toggledEntry binding enabled) worldbook))
      by apply lookup_insert_eq.
    cbn [snd fst toggledHost worldbooks tavern_regexes bindings].
    rewrite (existsb_map_same _ _ _ (entryMatches_toggled binding enabled)).
    rewrite (existsb_map_same _ _ _ (regexMatches_toggled binding enabled)).
    split; [reflexivity|]. split; [|split; [|reflexivity]].
    + rewrite insert_insert_eq. f_equal.
      rewrite List.map_map. apply map_ext. apply toggledEntry_idem.
    + rewrite List.map_map. apply map_ext. apply toggledRegex_idem.
  - rewrite (setBindingEnabled_unreadable _ _ _ Hwb). cbn [snd fst].
    rewrite (setBindingEnabled_unreadable _ _ _ Hwb). auto.
Qed.

(** X8. A toggle that ends with [SyncError] has written both lists back,
    and has changed no worldbook, no rule and no binding. *)
Theorem setBindingEnabled_syncError_changes_nothing
  (binding : StatusBarBinding) (enabled : bool) (h : Host) :
  fst (setBindingEnabled binding enabled h) = Throw SyncError ->
  let h' := snd (setBindingEnabled binding enabled h) in
  worldbooks h' = worldbooks h
  /\ tavern_regexes h' = tavern_regexes h
  /\ bindings h' = bindings h
  /\ events h'
     = events h ++ [WorldbookReplaced (Binding.worldbook_name binding);
                    RegexesReplaced].
Proof.
  destruct (worldbooks h !! Binding.worldbook_name binding) as [worldbook|]
    eqn:Hwb.
  2:{ rewrite (setBindingEnabled_unreadable _ _ _ Hwb). discriminate. }
  rewrite (setBindingEnabled_readable _ _ _ _ Hwb). cbn [fst snd].
  destruct (existsb (entryMatches binding) worldbook) eqn:Ee;
    [discriminate|].
  destruct (existsb (regexMatches binding) (tavern_regexes h)) eqn:Er;
    [discriminate|].
  intros _.
  cbn [toggledHost worldbooks tavern_regexes bindings events].
  rewrite existsb_false_iff in Ee. rewrite existsb_false_iff in Er.
  assert (List.map (toggledEntry binding enabled) worldbook = worldbook)
    as ->.
  { apply map_id_on. intros e He. unfold toggledEntry, toggleEntry.
    rewrite (Ee e He). reflexivity. }
  assert (List.map (toggledRegex binding enabled) (tavern_regexes h)
          = tavern_regexes h) as ->.
  { apply map_id_on. intros r Hr. unfold toggledRegex, toggleRegex.
    rewrite (Er r Hr). reflexivity. }
  split; [apply insert_id; exact Hwb|].
  split; [reflexivity|]. split; [reflexivity|].
  rewrite <- app_assoc. reflexivity.
Qed.

(** X9. After a toggle whose worldbook could be read, every entry of that
    worldbook with the binding's uid and every rule with the binding's id
    has the requested value, and every such rule is in the managed subset,
    so it can be selected for new bindings again. *)
Theorem setBindingEnabled_heals (binding : StatusBarBinding)
  (enabled : bool) (h : Host) (worldbook : list WorldbookEntry) :
  worldbooks h !! Binding.worldbook_name binding = Some worldbook ->
  let h' := snd (setBindingEnabled binding enabled h) in
  (exists worldbook',
      worldbooks h' !! Binding.worldbook_name binding = Some worldbook'
      /\ forall entry, entry ∈ worldbook' ->
           Entry.uid entry = Binding.worldbook_entry_uid binding ->
           Entry.enabled entry = enabled)
  /\ (forall regex, regex ∈ tavern_regexes h' ->
        Regex.id regex = Binding.regex_id binding ->
        Regex.enabled regex = enabled
        /\ regex ∈ List.filter isManaged (tavern_regexes h')).
Proof.
  intros Hwb h'. subst h'.
  rewrite (setBindingEnabled_readable _ _ _ _ Hwb).
  cbn [snd toggledHost worldbooks tavern_regexes]. split.
  - eexists. split; [apply lookup_insert_eq|].
    intros entry Hin Huid.
    apply list_elem_of_In, in_map_iff in Hin as (e & <- & _).
    apply toggledEntry_enabled.
    rewrite <- (entryMatches_toggled binding enabled).
    apply Z.eqb_eq. exact Huid.
  - intros regex Hin Hid.
    pose proof Hin as Hin'.
    apply list_elem_of_In, in_map_iff in Hin as (r & <- & _).
    assert (regexMatches binding r = true) as Hm.
    { rewrite <- (regexMatches_toggled binding enabled).
      apply bool_decide_eq_true_2. exact Hid. }
    destruct (toggledRegex_enabled binding enabled r Hm) as [Hen Hman].
    split; [exact Hen|].
    apply list_elem_of_In, filter_In.
    split; [apply list_elem_of_In; exact Hin' | exact Hman].
Qed.

(* ===================================================================== *)
(** ** The panel's handlers: further properties *)
(* ===================================================================== *)

Lemma liveStateOf_toggledHost (binding : StatusBarBinding) (enabled : bool)
  (worldbook : list WorldbookEntry) (h : Host) :
  liveStateOf binding (toggledHost binding enabled worldbook h)
  = {| worldbook_enabled :=
         if existsb (entryMatches binding) worldbook
         then Some enabled else None;
       regex_enabled :=
         if existsb (regexMatches binding) (tavern_regexes h)
         then Some enabled else None |}.
Proof.
  pose proof (getBindingLiveState_toggledHost binding enabled worldbook h)
    as Hrun.
  rewrite getBindingLiveState_liveStateOf in Hrun.
  congruence.
Qed.

(** The refresh that ends the toggle handler sees the worldbooks the
    handler found. *)
Lemma refreshOutcome_toggled (selected : list jsstring)
  (binding : StatusBarBinding) (enabled : bool) (done failed : Event)
  (h : Host) :
  refreshOutcome selected
    match setBindingEnabled binding enabled h with
    | (Ok _, h1) => emit done h1
    | (Throw _, h1) => emit failed h1
    end
  = refreshOutcome selected h.
Proof.
  pose proof (refreshOutcome_setBindingEnabled selected binding enabled h)
    as Hsame.
  destruct (setBindingEnabled binding enabled h) as [[[]|e] h1];
    exact Hsame.
Qed.

Lemma refreshOutcome_cases (selected : list jsstring) (h : Host) :
  (allReadable selected h /\ refreshOutcome selected h = Ok tt)
  \/ (~ allReadable selected h
      /\ exists nm, refreshOutcome selected h = Throw (HostError nm)
                    /\ nm ∈ selected /\ nm <> []
                    /\ worldbooks h !! nm = None).
Proof.
  destruct (refreshOutcome selected h) as [[]|e] eqn:Hout.
  - left. split; [apply refreshOutcome_ok; exact Hout | reflexivity].
  - right. split.
    + intros Hall. apply refreshOutcome_ok in Hall. congruence.
    + destruct (refreshOutcome_throw _ _ _ Hout) as (nm & -> & Hrest).
      exists nm. auto.
Qed.

(** X10. The toggle handler lets no error of the toggle escape.  An
    unknown id does nothing at all.  For a known binding the handler ends
    well whenever every worldbook selected in the panel can be read, and
    what it throws otherwise is the error of the final refresh, for a
    selected worldbook that cannot be read.  When the binding's own
    worldbook cannot be read, the only effect is the failure message: no
    rule and no worldbook is touched, although the rule may be there. *)
Theorem onToggleBinding_catches_toggle_errors (id : jsstring)
  (selected : list jsstring) (h : Host) :
  (findBinding id (bindings h) = None ->
   onToggleBinding id selected h = (Ok tt, h))
  /\ (forall binding,
        findBinding id (bindings h) = Some binding ->
        (allReadable selected h ->
         fst (onToggleBinding id selected h) = Ok tt)
        /\ (forall e,
              fst (onToggleBinding id selected h) = Throw e ->
              exists nm : jsstring,
                e = HostError nm /\ nm ∈ selected /\ nm <> []
                /\ worldbooks h !! nm = None)
        /\ (worldbooks h !! Binding.worldbook_name binding = None ->
            snd (onToggleBinding id selected h)
            = emit (Toasted ToggleFailed) h)).
Proof.
  rewrite onToggleBinding_run. split.
  - intros ->. reflexivity.
  - intros binding ->. cbv zeta. cbn [fst snd].
    rewrite refreshOutcome_toggled. split; [|split].
    + intros Hall. apply refreshOutcome_ok. exact Hall.
    + intros e He. destruct (refreshOutcome_throw _ _ _ He) as (nm & Hrest).
      exists nm. exact Hrest.
    + intros Hwb.
      rewrite (setBindingEnabled_unreadable _ _ _ Hwb). reflexivity.
Qed.

(** X11. With the binding's worldbook readable, the toggle handler turns
    the pair on unless both sides are on, in which case it turns it off.
    When the entry and the rule both exist the displayed state (both
    enabled) is flipped; when one of them is missing the pair never shows
    as enabled, so the handler can only ever turn the other side on. *)
Theorem onToggleBinding_flips (id : jsstring) (selected : list jsstring)
  (h : Host) (binding : StatusBarBinding) (worldbook : list WorldbookEntry) :
  findBinding id (bindings h) = Some binding ->
  worldbooks h !! Binding.worldbook_name binding = Some worldbook ->
  let h' := snd (onToggleBinding id selected h) in
  let entryExists :=
    exists entry, entry ∈ worldbook
                  /\ Entry.uid entry = Binding.worldbook_entry_uid binding in
  let ruleExists :=
    exists regex, regex ∈ tavern_regexes h
                  /\ Regex.id regex = Binding.regex_id binding in
  getBindingLiveState binding h' = (Ok (liveStateOf binding h'), h')
  /\ (entryExists -> ruleExists ->
      bothEnabled (liveStateOf binding h')
      = negb (bothEnabled (liveStateOf binding h)))
  /\ (~ entryExists \/ ~ ruleExists ->
      bothEnabled (liveStateOf binding h) = false
      /\ bothEnabled (liveStateOf binding h') = false).
Proof.
  intros Hfind Hwb h' entryExists ruleExists.
  split; [apply getBindingLiveState_liveStateOf|].
  subst h'. rewrite onToggleBinding_run, Hfind. cbv zeta. cbn [snd].
  set (target := negb (bothEnabled (liveStateOf binding h))).
  rewrite (setBindingEnabled_readable _ _ _ _ Hwb).
  assert (entryExists <-> existsb (entryMatches binding) worldbook = true)
    as Hentry.
  { rewrite existsb_true_elem. unfold entryExists, entryMatches, num_eq.
    split; intros (e & Hin & He); exists e; (split; [exact Hin|]);
      apply Z.eqb_eq; exact He. }
  assert (ruleExists
          <-> existsb (regexMatches binding) (tavern_regexes h) = true)
    as Hrule.
  { rewrite existsb_true_elem. unfold ruleExists, regexMatches, str_eq.
    split; intros (r & Hin & Hr); exists r; (split; [exact Hin|]).
    - apply bool_decide_eq_true_2. exact Hr.
    - apply bool_decide_eq_true_1 in Hr. exact Hr. }
  assert (forall (c : bool) (done failed : Event) (h1 : Host),
             liveStateOf binding
               match (if c then Throw SyncError else Ok tt, h1) with
               | (Ok _, h2) => emit done h2
               | (Throw _, h2) => emit failed h2
               end
             = liveStateOf binding h1) as Hlive.
  { intros [] done failed h1; reflexivity. }
  rewrite Hlive, liveStateOf_toggledHost. split.
  - intros He Hr. apply Hentry in He. apply Hrule in Hr. rewrite He, Hr.
    unfold bothEnabled at 1. cbn [worldbook_enabled regex_enabled].
    subst target.
    destruct (bothEnabled (liveStateOf binding h)); reflexivity.
  - intros Hmissing.
    assert (bothEnabled (liveStateOf binding h) = false) as Hbefore.
    { unfold bothEnabled, liveStateOf. cbn [worldbook_enabled regex_enabled].
      rewrite Hwb.
      destruct Hmissing as [Hno | Hno].
      - rewrite Hentry in Hno. rewrite find_existsb in Hno.
        destruct (List.find (entryMatches binding) worldbook);
          [congruence|]. reflexivity.
      - rewrite Hrule in Hno. rewrite find_existsb in Hno.
        destruct (List.find (regexMatches binding) (tavern_regexes h));
          [congruence|]. apply andb_false_r. }
    split; [exact Hbefore|].
    unfold bothEnabled. cbn [worldbook_enabled regex_enabled].
    destruct Hmissing as [Hno | Hno].
    + rewrite Hentry in Hno.
      destruct (existsb (entryMatches binding) worldbook); [congruence|].
      reflexivity.
    + rewrite Hrule in Hno.
      destruct (existsb (regexMatches binding) (tavern_regexes h));
        [congruence|]. apply andb_false_r.
Qed.

Lemma filter_sublist {A : Type} (p : A -> bool) (l : list A) :
  sublist (List.filter p l) l.
Proof.
  induction l as [|a l IH]; simpl; [constructor|].
  destruct (p a); [apply sublist_skip | apply sublist_cons]; exact IH.
Qed.

(** X12. Deleting removes exactly the bindings with the given id and keeps
    the others in their order (the registry is as before when no binding
    had the id); it touches no worldbook and no rule; and it always saves.
    It then refreshes the view: when every worldbook selected in the panel
    can be read it ends well with the deletion message, and otherwise it
    throws the error of the refresh after the save, without the message. *)
Theorem onDeleteBinding_removes (id : jsstring) (selected : list jsstring)
  (h : Host) :
  let h' := snd (onDeleteBinding id selected h) in
  (forall b, b ∈ bindings h' <-> b ∈ bindings h /\ Binding.id b <> id)
  /\ sublist (bindings h') (bindings h)
  /\ ((forall b, b ∈ bindings h -> Binding.id b <> id) ->
      bindings h' = bindings h)
  /\ worldbooks h' = worldbooks h
  /\ tavern_regexes h' = tavern_regexes h
  /\ (allReadable selected h ->
      fst (onDeleteBinding id selected h) = Ok tt
      /\ events h' = events h ++ [SettingsSaved (bindings h');
                                  Toasted BindingDeleted])
  /\ (~ allReadable selected h ->
      (exists nm : jsstring,
          fst (onDeleteBinding id selected h) = Throw (HostError nm)
          /\ nm ∈ selected /\ nm <> [] /\ worldbooks h !! nm = None)
      /\ events h' = events h ++ [SettingsSaved (bindings h')]).
Proof.
  intros h'. subst h'. rewrite onDeleteBinding_bindings.
  split; [|split; [|split]].
  - intros b. rewrite list_elem_of_In, filter_In, <- list_elem_of_In.
    unfold str_eq. rewrite negb_true_iff, bool_decide_eq_false. reflexivity.
  - apply filter_sublist.
  - intros Hnone. apply forallb_filter_id. apply forallb_forall.
    intros b Hb. apply list_elem_of_In in Hb.
    unfold str_eq. rewrite negb_true_iff, bool_decide_eq_false. auto.
  - rewrite onDeleteBinding_run.
    destruct (refreshOutcome_cases selected h)
      as [[Hall Hout] | [Hnot (nm & Hout & Hin & Hnm & Hwb)]];
      rewrite Hout; cbn [fst snd].
    + split; [reflexivity|]. split; [reflexivity|]. split.
      * intros _. split; [reflexivity|].
        simpl. rewrite <- app_assoc. reflexivity.
      * intros Hno. contradiction.
    + split; [reflexivity|]. split; [reflexivity|]. split.
      * intros Hyes. contradiction.
      * intros _. split; [|reflexivity]. exists nm. auto.
Qed.

Lemma relabel_first (id renamed : jsstring)
  (pre post : list StatusBarBinding) (b : StatusBarBinding) :
  (forall b', b' ∈ pre -> Binding.id b' <> id) ->
  Binding.id b = id ->
  relabel id renamed (pre ++ b :: post) = pre ++ withLabel renamed b :: post.
Proof.
  intros Hpre Hb. induction pre as [|a pre IH]; simpl.
  - unfold str_eq. rewrite bool_decide_eq_true_2 by exact Hb. reflexivity.
  - unfold str_eq at 1.
    rewrite bool_decide_eq_false_2 by (apply Hpre; left).
    rewrite IH; [reflexivity|]. intros b' Hb'. apply Hpre. right. exact Hb'.
Qed.

(** X13. Renaming does nothing at all (no save, no message) when no
    binding has the id or when the prompt returned [null] or the empty
    string.  Otherwise the first binding with the id gets the new label,
    every other field and every other binding stays, no worldbook and no
    rule is touched, and the registry is saved.  The view is then
    refreshed: when every worldbook selected in the panel can be read the
    handler ends well with the message, and otherwise it throws the error
    of the refresh after the save, without the message. *)
Theorem onRenameStyle_relabels (id : jsstring) (selected : list jsstring)
  (h : Host) :
  (forall renamed,
      findBinding id (bindings h) = None \/ renamed = None \/ renamed = Some []
      -> onRenameStyle id renamed selected h = (Ok tt, h))
  /\ (forall pre b post c renamed,
        bindings h = pre ++ b :: post ->
        (forall b', b' ∈ pre -> Binding.id b' <> id) ->
        Binding.id b = id ->
        let r := onRenameStyle id (Some (c :: renamed)) selected h in
        let h' := snd r in
        bindings h' = pre ++ withLabel (c :: renamed) b :: post
        /\ worldbooks h' = worldbooks h
        /\ tavern_regexes h' = tavern_regexes h
        /\ (allReadable selected h ->
            fst r = Ok tt
            /\ events h' = events h ++ [SettingsSaved (bindings h');
                                        Toasted LabelUpdated])
        /\ (~ allReadable selected h ->
            (exists nm : jsstring,
                fst r = Throw (HostError nm)
                /\ nm ∈ selected /\ nm <> [] /\ worldbooks h !! nm = None)
            /\ events h' = events h ++ [SettingsSaved (bindings h')])).
Proof.
  split.
  - intros renamed Hcase. rewrite onRenameStyle_run.
    destruct (findBinding id (bindings h)) as [b|] eqn:Hfind;
      [|reflexivity].
    destruct Hcase as [Hnone | [-> | ->]]; [discriminate| |]; reflexivity.
  - intros pre b post c renamed Hbs Hpre Hb r h'. subst r h'.
    assert (findBinding id (bindings h) = Some b) as Hfind.
    { rewrite Hbs. unfold findBinding. apply find_first.
      - intros b' Hb'. apply bool_decide_eq_false_2. auto.
      - apply bool_decide_eq_true_2. exact Hb. }
    rewrite onRenameStyle_run, Hfind. cbv zeta.
    pose proof (relabel_first id (c :: renamed) pre post b Hpre Hb) as Hre.
    rewrite <- Hbs in Hre.
    destruct (refreshOutcome_cases selected h)
      as [[Hall Hout] | [Hnot (nm & Hout & Hin & Hnm & Hwb)]];
      rewrite Hout; cbn [fst snd].
    + split; [exact Hre|]. split; [reflexivity|]. split; [reflexivity|].
      split.
      * intros _. split; [reflexivity|].
        simpl. rewrite <- app_assoc. reflexivity.
      * intros Hno. contradiction.
    + split; [exact Hre|]. split; [reflexivity|]. split; [reflexivity|].
      split.
      * intros Hyes. contradiction.
      * intros _. split; [|reflexivity]. exists nm. auto.
Qed.

(* ===================================================================== *)
(** ** Creation: further properties *)
(* ===================================================================== *)

Lemma wellReferenced_same (h h' : Host) (b : StatusBarBinding) :
  worldbooks h' = worldbooks h -> tavern_regexes h' = tavern_regexes h ->
  wellReferenced h b -> wellReferenced h' b.
Proof.
  unfold wellReferenced. intros -> ->. auto.
Qed.

Section CreationProperties.
Context `{HostApi}.

(** What the inner loop appends: bindings of the selected entry and of
    selected managed rules, with consecutive generated ids. *)
Lemma createForRegexes_trace (wbItem : WorldbookSelection)
  (entries : list WorldbookEntry) (entry : WorldbookEntry)
  (managedRegexes : list TavernRegex) (regexSelections : list jsstring)
  (createdCount : nat) (h : Host) :
  worldbooks h !! worldbookName wbItem = Some entries ->
  entry ∈ entries ->
  (forall regex, regex ∈ managedRegexes ->
     regex ∈ tavern_regexes h /\ isManaged regex = true) ->
  let h' := snd (createForRegexes wbItem entry managedRegexes
                                  regexSelections createdCount h) in
  exists added,
    bindings h' = bindings h ++ added
    /\ uuid_counter h' = uuid_counter h + length added
    /\ worldbooks h' = worldbooks h
    /\ tavern_regexes h' = tavern_regexes h
    /\ List.map Binding.id added
       = List.map uuidv4 (seq (uuid_counter h) (length added))
    /\ Forall (fun b => Binding.worldbook_name b = worldbookName wbItem
                        /\ Binding.worldbook_entry_uid b = Entry.uid entry
                        /\ Binding.regex_id b ∈ regexSelections
                        /\ wellReferenced h b) added.
Proof.
  intros Hwb Hentry Hmanaged h'. subst h'.
  revert createdCount h Hwb Hmanaged.
  induction regexSelections as [|regexIdItem rest IH];
    intros createdCount h Hwb Hmanaged.
  - exists []. simpl. rewrite app_nil_r, Nat.add_0_r.
    repeat split; auto.
  - rewrite createForRegexes_cons.
    assert (forall added,
               Forall (fun b => Binding.worldbook_name b = worldbookName wbItem
                                /\ Binding.worldbook_entry_uid b
                                   = Entry.uid entry
                                /\ Binding.regex_id b ∈ rest
                                /\ wellReferenced h b) added ->
               Forall (fun b => Binding.worldbook_name b = worldbookName wbItem
                                /\ Binding.worldbook_entry_uid b
                                   = Entry.uid entry
                                /\ Binding.regex_id b ∈ regexIdItem :: rest
                                /\ wellReferenced h b) added) as Hweaken.
    { intros added Hall. eapply Forall_impl; [exact Hall|].
      intros b (H1 & H2 & H3 & H4).
      split; [exact H1|]. split; [exact H2|].
      split; [right; exact H3 | exact H4]. }
    destruct (List.find (fun regexItem => str_eq (Regex.id regexItem)
                                            regexIdItem) managedRegexes)
      as [regex|] eqn:Hregex.
    2:{ destruct (IH createdCount h Hwb Hmanaged)
          as (added & H1 & H2 & H3 & H4 & H5 & H6).
        exists added. repeat split; auto. }
    destruct (List.find (isDuplicate wbItem regexIdItem) (bindings h)).
    { destruct (IH createdCount h Hwb Hmanaged)
        as (added & H1 & H2 & H3 & H4 & H5 & H6).
      exists added. repeat split; auto. }
    set (b := newBinding (uuidv4 (uuid_counter h)) wbItem entry regex).
    destruct (IH (createdCount + 1) (pushed b h) Hwb Hmanaged)
      as (added & H1 & H2 & H3 & H4 & H5 & H6).
    apply find_some_elem in Hregex as [Hin Hid].
    apply bool_decide_eq_true_1 in Hid.
    exists (b :: added). split; [|split; [|split; [|split; [|split]]]].
    + rewrite H1. simpl. rewrite <- app_assoc. reflexivity.
    + rewrite H2. simpl. lia.
    + rewrite H3. reflexivity.
    + rewrite H4. reflexivity.
    + simpl. rewrite H5. reflexivity.
    + constructor.
      * split; [reflexivity|]. split; [reflexivity|]. split.
        { simpl. rewrite Hid. left. }
        split.
        { exists entries, entry. auto. }
        { exists regex. destruct (Hmanaged regex Hin). auto. }
      * apply Hweaken. eapply Forall_impl; [exact H6|].
        intros b' (G1 & G2 & G3 & G4).
        split; [exact G1|]. split; [exact G2|]. split; [exact G3|].
        revert G4. apply wellReferenced_same; reflexivity.
Qed.

(** What the outer loop appends, also when a worldbook read throws. *)
Lemma createForWorldbooks_trace (managedRegexes : list TavernRegex)
  (regexSelections : list jsstring)
  (worldbookSelections : list WorldbookSelection) (createdCount : nat)
  (h : Host) :
  (forall regex, regex ∈ managedRegexes ->
     regex ∈ tavern_regexes h /\ isManaged regex = true) ->
  let h' := snd (createForWorldbooks managedRegexes regexSelections
                                     worldbookSelections createdCount h) in
  exists added,
    bindings h' = bindings h ++ added
    /\ uuid_counter h' = uuid_counter h + length added
    /\ worldbooks h' = worldbooks h
    /\ tavern_regexes h' = tavern_regexes h
    /\ List.map Binding.id added
       = List.map uuidv4 (seq (uuid_counter h) (length added))
    /\ Forall (fun b =>
                 mkSelection (Binding.worldbook_name b)
                             (Integer (Binding.worldbook_entry_uid b))
                   ∈ worldbookSelections
                 /\ Binding.regex_id b ∈ regexSelections
                 /\ wellReferenced h b) added.
Proof.
  intros Hmanaged h'. subst h'. revert createdCount h Hmanaged.
  induction worldbookSelections as [|wbItem rest IH];
    intros createdCount h Hmanaged.
  - exists []. simpl. rewrite app_nil_r, Nat.add_0_r. repeat split; auto.
  - rewrite createForWorldbooks_cons.
    destruct (worldbooks h !! worldbookName wbItem) as [entries|] eqn:Hwb.
    2:{ exists []. simpl. rewrite app_nil_r, Nat.add_0_r.
        repeat split; auto. }
    assert (forall (h0 : Host) added,
               Forall (fun b =>
                         mkSelection (Binding.worldbook_name b)
                                     (Integer (Binding.worldbook_entry_uid b))
                           ∈ rest
                         /\ Binding.regex_id b ∈ regexSelections
                         /\ wellReferenced h0 b) added ->
               worldbooks h0 = worldbooks h ->
               tavern_regexes h0 = tavern_regexes h ->
               Forall (fun b =>
                         mkSelection (Binding.worldbook_name b)
                                     (Integer (Binding.worldbook_entry_uid b))
                           ∈ wbItem :: rest
                         /\ Binding.regex_id b ∈ regexSelections
                         /\ wellReferenced h b) added) as Hweaken.
    { intros h0 added Hall Hw Hr. eapply Forall_impl; [exact Hall|].
      intros b (H1 & H2 & H3). split; [right; exact H1|]. split; [exact H2|].
      revert H3. apply wellReferenced_same; auto. }
    destruct (List.find (fun entryItem => num_eq_js (Entry.uid entryItem)
                                            (entryUid wbItem)) entries)
      as [entry|] eqn:Hentry.
    2:{ destruct (IH createdCount h Hmanaged)
          as (added & H1 & H2 & H3 & H4 & H5 & H6).
        exists added. repeat split; auto. apply (Hweaken h); auto. }
    apply find_some_elem in Hentry as [Hin Huid].
    apply num_eq_js_Integer in Huid.
    destruct (createForRegexes_trace wbItem entries entry managedRegexes
                regexSelections createdCount h Hwb Hin Hmanaged)
      as (added1 & A1 & A2 & A3 & A4 & A5 & A6).
    destruct (createForRegexes_appends wbItem entry managedRegexes
                regexSelections createdCount h Huid) as (added0 & Hok & _).
    destruct (createForRegexes wbItem entry managedRegexes regexSelections
                               createdCount h) as [r1 h1].
    simpl in Hok, A1, A2, A3, A4. subst r1.
    assert (forall regex, regex ∈ managedRegexes ->
              regex ∈ tavern_regexes h1 /\ isManaged regex = true) as Hm1.
    { rewrite A4. exact Hmanaged. }
    destruct (IH (createdCount + length added0) h1 Hm1)
      as (added2 & B1 & B2 & B3 & B4 & B5 & B6).
    exists (added1 ++ added2).
    split; [|split; [|split; [|split; [|split]]]].
    + rewrite B1, A1, <- app_assoc. reflexivity.
    + rewrite B2, A2, length_app. lia.
    + rewrite B3, A3. reflexivity.
    + rewrite B4, A4. reflexivity.
    + rewrite map_app, length_app, seq_app, map_app, A5, B5, A2.
      reflexivity.
    + apply Forall_app. split.
      * eapply Forall_impl; [exact A6|]. intros b (G1 & G2 & G3 & G4).
        split; [|auto].
        assert (mkSelection (Binding.worldbook_name b)
                            (Integer (Binding.worldbook_entry_uid b))
                = wbItem) as ->; [|left].
        destruct wbItem as [nm uid0]. simpl in *. congruence.
      * apply (Hweaken h1); auto.
Qed.

(** What a creation appends. *)
Lemma createBindingFromSelection_trace
  (worldbookSelections : list WorldbookSelection)
  (regexSelections : list jsstring) (h : Host) :
  let h' := snd (createBindingFromSelection worldbookSelections
                                            regexSelections h) in
  exists added,
    bindings h' = bindings h ++ added
    /\ uuid_counter h' = uuid_counter h + length added
    /\ worldbooks h' = worldbooks h
    /\ tavern_regexes h' = tavern_regexes h
    /\ List.map Binding.id added
       = List.map uuidv4 (seq (uuid_counter h) (length added))
    /\ Forall (fun b =>
                 mkSelection (Binding.worldbook_name b)
                             (Integer (Binding.worldbook_entry_uid b))
                   ∈ worldbookSelections
                 /\ Binding.worldbook_name b <> []
                 /\ Binding.regex_id b ∈ regexSelections
                 /\ Binding.regex_id b <> []
                 /\ wellReferenced h' b) added.
Proof.
  intros h'. subst h'. rewrite createBindingFromSelection_run.
  destruct (Nat.eqb _ 0 || Nat.eqb _ 0).
  { exists []. simpl. rewrite app_nil_r, Nat.add_0_r. repeat split; auto. }
  match goal with
  | |- context [createForWorldbooks ?m ?r ?w 0 h] =>
      destruct (createForWorldbooks_trace m r w 0 h)
        as (added & H1 & H2 & H3 & H4 & H5 & H6);
      [ intros regex Hin; apply list_elem_of_In, filter_In in Hin as [Hin Hm];
        split; [apply list_elem_of_In; exact Hin | exact Hm]
      | destruct (createForWorldbooks m r w 0 h) as [[n|e] h1] ]
  end.
  all: simpl in H1, H2, H3, H4.
  all: assert (Forall (fun b =>
                 mkSelection (Binding.worldbook_name b)
                             (Integer (Binding.worldbook_entry_uid b))
                   ∈ worldbookSelections
                 /\ Binding.worldbook_name b <> []
                 /\ Binding.regex_id b ∈ regexSelections
                 /\ Binding.regex_id b <> []
                 /\ wellReferenced h1 b) added) as Hall
    by (eapply Forall_impl; [exact H6|]; intros b (G1 & G2 & G3);
        apply list_elem_of_In, filter_In in G1 as [G1 Gv];
        apply list_elem_of_In, filter_In in G2 as [G2 Gr];
        simpl in Gv; apply andb_prop in Gv as [Gv _];
        unfold str_eq in Gv;
        rewrite negb_true_iff, bool_decide_eq_false in Gv;
        (split; [apply list_elem_of_In; exact G1|]);
        (split; [exact Gv|]);
        (split; [apply list_elem_of_In; exact G2|]);
        (split; [intros Heq; rewrite Heq in Gr; discriminate|]);
        revert G3; apply wellReferenced_same; auto).
  - exists added. destruct (Nat.eqb n 0); simpl; repeat split; auto.
  - exists added. simpl. repeat split; auto.
Qed.

(** A binding that refers to an entry and a rule of the host can be
    toggled, and both sides of its live state resolve. *)
Lemma wellReferenced_resolves (h : Host) (b : StatusBarBinding)
  (enabled : bool) :
  wellReferenced h b ->
  fst (setBindingEnabled b enabled h) = Ok tt
  /\ is_Some (worldbook_enabled (liveStateOf b h))
  /\ is_Some (regex_enabled (liveStateOf b h)).
Proof.
  intros [(entries & entry & Hwb & Hin & Huid) (regex & Hr & _ & Hid & _)].
  assert (existsb (entryMatches b) entries = true) as He.
  { apply existsb_true_elem. exists entry. split; [exact Hin|].
    apply Z.eqb_eq. exact Huid. }
  assert (existsb (regexMatches b) (tavern_regexes h) = true) as Hx.
  { apply existsb_true_elem. exists regex. split; [exact Hr|].
    apply bool_decide_eq_true_2. exact Hid. }
  split; [|split].
  - rewrite (setBindingEnabled_readable _ _ _ _ Hwb). simpl.
    rewrite He. reflexivity.
  - unfold liveStateOf. simpl. rewrite Hwb.
    rewrite find_existsb in He.
    destruct (List.find (entryMatches b) entries); [eexists; reflexivity|].
    discriminate.
  - unfold liveStateOf. simpl.
    rewrite find_existsb in Hx.
    destruct (List.find (regexMatches b) (tavern_regexes h));
      [eexists; reflexivity|].
    discriminate.
Qed.

(** X14. Every binding a creation adds comes from the selection (its
    worldbook and entry uid were selected together, its rule id was
    selected, neither name is empty) and refers, in the host the creation
    leaves, to an entry of that worldbook and to a rule of the managed
    subset whose name it carries. *)
Theorem createBindingFromSelection_references
  (worldbookSelections : list WorldbookSelection)
  (regexSelections : list jsstring) (h : Host) :
  let h' := snd (createBindingFromSelection worldbookSelections
                                            regexSelections h) in
  exists added,
    bindings h' = bindings h ++ added
    /\ forall b, b ∈ added ->
         mkSelection (Binding.worldbook_name b)
                     (Integer (Binding.worldbook_entry_uid b))
           ∈ worldbookSelections
         /\ Binding.worldbook_name b <> []
         /\ Binding.regex_id b ∈ regexSelections
         /\ Binding.regex_id b <> []
         /\ wellReferenced h' b.
Proof.
  intros h'.
  destruct (createBindingFromSelection_trace worldbookSelections
              regexSelections h) as (added & Hb & _ & _ & _ & _ & Hall).
  exists added. split; [exact Hb|].
  rewrite Forall_forall in Hall. exact Hall.
Qed.

(** X15. A binding that a creation has just added can be toggled either
    way without error, and both sides of its live state resolve. *)
Theorem createBindingFromSelection_then_toggle
  (worldbookSelections : list WorldbookSelection)
  (regexSelections : list jsstring) (h : Host) :
  let h' := snd (createBindingFromSelection worldbookSelections
                                            regexSelections h) in
  exists added,
    bindings h' = bindings h ++ added
    /\ forall b enabled, b ∈ added ->
         fst (setBindingEnabled b enabled h') = Ok tt
         /\ exists entryEnabled regexEnabled,
              getBindingLiveState b h'
              = (Ok {| worldbook_enabled := Some entryEnabled;
                       regex_enabled := Some regexEnabled |}, h').
Proof.
  intros h'.
  destruct (createBindingFromSelection_trace worldbookSelections
              regexSelections h) as (added & Hb & _ & _ & _ & _ & Hall).
  exists added. split; [exact Hb|].
  rewrite Forall_forall in Hall. intros b enabled Hin.
  destruct (Hall b Hin) as (_ & _ & _ & _ & Href).
  destruct (wellReferenced_resolves _ b enabled Href)
    as (Hok & [we Hwe] & [re Hre]).
  split; [exact Hok|]. exists we, re.
  rewrite getBindingLiveState_liveStateOf. f_equal. f_equal.
  destruct (liveStateOf b _) as [w r]. simpl in *. congruence.
Qed.

(** X16. What a creation reports.  When it throws (a selected worldbook
    cannot be read) nothing is saved and nothing is shown.  When it
    returns, the registry is saved exactly when it grew, and the number
    shown is the number of bindings appended. *)
Theorem createBindingFromSelection_reports
  (worldbookSelections : list WorldbookSelection)
  (regexSelections : list jsstring) (h : Host) :
  let r := createBindingFromSelection worldbookSelections regexSelections h in
  let h' := snd r in
  let n := length (bindings h') - length (bindings h) in
  (forall e, fst r = Throw e -> events h' = events h)
  /\ (fst r = Ok tt -> n = 0 ->
      bindings h' = bindings h
      /\ (events h' = events h ++ [Toasted SelectionIncomplete]
          \/ events h' = events h ++ [Toasted NoBindingCreated]))
  /\ (fst r = Ok tt -> n <> 0 ->
      events h' = events h ++ [SettingsSaved (bindings h');
                               Toasted (BindingsCreated n)]).
Proof.
  intros r h' n. subst r h' n. rewrite createBindingFromSelection_run.
  destruct (Nat.eqb _ 0 || Nat.eqb _ 0).
  { simpl. rewrite Nat.sub_diag.
    split; [discriminate|]. split; [auto|]. intros _ Hn. congruence. }
  match goal with
  | |- context [createForWorldbooks ?m ?rs ?w 0 h] =>
      destruct (createForWorldbooks_appends m rs w 0 h)
        as (added & Hcount & (Hb & _ & _ & He) & _);
      destruct (createForWorldbooks m rs w 0 h) as [[k|e] h1]
  end; simpl in Hcount, Hb, He.
  - specialize (Hcount k eq_refl). simpl in Hcount. subst k.
    assert (length (bindings h1) - length (bindings h) = length added)
      as Hlen.
    { rewrite Hb, length_app. lia. }
    destruct added as [|b added]; simpl.
    + rewrite Hb, app_nil_r, Nat.sub_diag, He.
      split; [discriminate|]. split; [auto|]. intros _ Hn. congruence.
    + rewrite Hlen, He. simpl.
      split; [discriminate|]. split; [intros _ Hn; discriminate|].
      intros _ _. rewrite <- app_assoc. reflexivity.
  - simpl. split; [intros _ _; exact He|].
    split; intros Hok; discriminate.
Qed.

(** X17. A creation needs a complete worldbook selection and a rule
    selection: when every worldbook selection lacks its name or its entry
    uid, or every rule selection is empty (no selection at all included),
    the only effect is the warning. *)
Theorem createBindingFromSelection_incomplete
  (worldbookSelections : list WorldbookSelection)
  (regexSelections : list jsstring) (h : Host) :
  (forall item, item ∈ worldbookSelections ->
     worldbookName item = [] \/ entryUid item = NonInteger)
  \/ (forall item, item ∈ regexSelections -> item = []) ->
  createBindingFromSelection worldbookSelections regexSelections h
  = (Ok tt, emit (Toasted SelectionIncomplete) h).
Proof.
  intros Hcase. rewrite createBindingFromSelection_run. cbv zeta.
  assert (forall {A} (p : A -> bool) (l : list A),
             (forall a, a ∈ l -> p a = false) -> List.filter p l = [])
    as Hfilter.
  { intros A p l Hp. induction l as [|a l IH]; simpl; [reflexivity|].
    rewrite (Hp a) by left. apply IH. intros a' Ha'. apply Hp. right.
    exact Ha'. }
  destruct Hcase as [Hwb | Hrx].
  - rewrite (Hfilter _ _ worldbookSelections); [reflexivity|].
    intros item Hin. destruct (Hwb item Hin) as [-> | ->].
    + reflexivity.
    + apply andb_false_r.
  - rewrite (Hfilter _ _ regexSelections); [|].
    + simpl. rewrite orb_true_r. reflexivity.
    + intros item Hin. rewrite (Hrx item Hin). reflexivity.
Qed.

(** A creation keeps the ids of the registry pairwise different and
    generated, when the generator never repeats itself. *)
Lemma createBindingFromSelection_ids
  (worldbookSelections : list WorldbookSelection)
  (regexSelections : list jsstring) (h : Host) :
  (forall m n, uuidv4 m = uuidv4 n -> m = n) ->
  idsGenerated h ->
  idsGenerated (snd (createBindingFromSelection worldbookSelections
                                                regexSelections h)).
Proof.
  intros Hinj [Hnodup Hgen].
  destruct (createBindingFromSelection_trace worldbookSelections
              regexSelections h) as (added & Hb & Hc & _ & _ & Hids & _).
  unfold idsGenerated. rewrite Hb, Hc, map_app, Hids. split.
  - apply NoDup_app. split; [exact Hnodup|]. split.
    + intros id Hold Hnew.
      rewrite Forall_forall in Hgen. destruct (Hgen id Hold) as (k & Hk & ->).
      apply list_elem_of_In, in_map_iff in Hnew as (j & Hj & Hin).
      apply in_seq in Hin. apply Hinj in Hj. lia.
    + assert (Inj (=) (=) uuidv4) as Hinj' by (intros m n; apply Hinj).
      apply (NoDup_fmap_2 uuidv4).
      apply NoDup_ListNoDup, seq_NoDup.
  - apply Forall_app. split.
    + eapply Forall_impl; [exact Hgen|].
      intros id (k & Hk & ->). exists k. split; [lia | reflexivity].
    + apply Forall_forall. intros id Hin.
      apply list_elem_of_In, in_map_iff in Hin as (j & <- & Hin).
      apply in_seq in Hin. exists j. split; [lia | reflexivity].
Qed.

Lemma relabel_ids (id renamed : jsstring) (bs : list StatusBarBinding) :
  List.map Binding.id (relabel id renamed bs) = List.map Binding.id bs.
Proof.
  induction bs as [|b bs IH]; simpl; [reflexivity|].
  destruct (str_eq (Binding.id b) id); simpl; [reflexivity|].
  rewrite IH. reflexivity.
Qed.

Lemma perform_uuid_counter (op : Operation) (h : Host) :
  match op with
  | Create _ _ _ => True
  | _ => uuid_counter (snd (perform op h)) = uuid_counter h
  end.
Proof.
  destruct op as [sels rids selected | id selected | id selected
                  | id renamed selected | files selected];
    unfold perform; [exact I| | | |].
  - rewrite onToggleBinding_run.
    destruct (findBinding id (bindings h)) as [binding|]; [|reflexivity].
    cbv zeta. cbn [snd].
    destruct (worldbooks h !! Binding.worldbook_name binding) as [wb|] eqn:Hwb.
    + rewrite (setBindingEnabled_readable _ _ _ _ Hwb).
      destruct (negb _ && negb _); reflexivity.
    + rewrite (setBindingEnabled_unreadable _ _ _ Hwb). reflexivity.
  - rewrite onDeleteBinding_run.
    destruct (refreshOutcome selected h) as [[]|e]; reflexivity.
  - rewrite onRenameStyle_run.
    destruct (findBinding id (bindings h)); [|reflexivity].
    destruct renamed as [[|c renamed]|]; try reflexivity.
    cbv zeta. destruct (refreshOutcome selected h) as [[]|e]; reflexivity.
  - unfold onRegexFile. rewrite refreshed_snd.
    destruct files as [|file rest]; [reflexivity|].
    destruct (file_text file) as [content|] eqn:Htext.
    2:{ unfold importRegexFromFile. rewrite Htext. reflexivity. }
    destruct (importRawTavernRegex (file_name file) content (tavern_regexes h))
      as [[|] store] eqn:Hraw.
    + rewrite (importRegexFromFile_accepted _ _ _ _ _ Htext Hraw).
      reflexivity.
    + rewrite (importRegexFromFile_refused _ _ _ _ _ Htext Hraw).
      reflexivity.
Qed.

Lemma perform_idsGenerated (op : Operation) (h : Host) :
  (forall m n, uuidv4 m = uuidv4 n -> m = n) ->
  idsGenerated h -> idsGenerated (snd (perform op h)).
Proof.
  intros Hinj Hids.
  pose proof (perform_uuid_counter op h) as Hc.
  destruct op as [sels rids selected | id selected | id selected
                  | id renamed selected | files selected].
  - unfold perform, onCreateBinding. rewrite refreshed_snd.
    apply createBindingFromSelection_ids; assumption.
  - unfold idsGenerated. rewrite Hc. unfold perform.
    rewrite onToggleBinding_bindings. exact Hids.
  - unfold idsGenerated. rewrite Hc. unfold perform.
    rewrite onDeleteBinding_bindings. destruct Hids as [Hnodup Hgen].
    set (p := fun item => negb (str_eq (Binding.id item) id)).
    assert (sublist (List.map Binding.id (List.filter p (bindings h)))
                    (List.map Binding.id (bindings h))) as Hsub.
    { apply (fmap_sublist Binding.id). apply filter_sublist. }
    split.
    + exact (sublist_NoDup _ _ Hnodup Hsub).
    + rewrite Forall_forall in Hgen. apply Forall_forall.
      intros i Hi. apply Hgen. exact (elem_of_sublist _ _ _ Hi Hsub).
  - unfold idsGenerated. rewrite Hc. unfold perform.
    assert (List.map Binding.id
              (bindings (snd (onRenameStyle id renamed selected h)))
            = List.map Binding.id (bindings h)) as ->; [|exact Hids].
    rewrite onRenameStyle_run.
    destruct (findBinding id (bindings h)); [|reflexivity].
    destruct renamed as [[|c renamed]|]; try reflexivity.
    cbv zeta. destruct (refreshOutcome selected h) as [[]|e];
      apply relabel_ids.
  - unfold idsGenerated. rewrite Hc. unfold perform, onRegexFile.
    rewrite refreshed_snd, importRegexFromFile_bindings. exact Hids.
Qed.

(** X18. With a generator that never repeats itself, whatever the user
    does from a registry in good order (the empty one, for instance), the
    ids of the bindings stay pairwise different and no two bindings refer
    to the same entry and rule. *)
Theorem performAll_registry_in_order (ops : list Operation) (h : Host) :
  (forall m n, uuidv4 m = uuidv4 n -> m = n) ->
  idsGenerated h -> tupleUnique (bindings h) ->
  let h' := performAll ops h in
  idsGenerated h'
  /\ NoDup (List.map Binding.id (bindings h'))
  /\ tupleUnique (bindings h').
Proof.
  intros Hinj. revert h.
  induction ops as [|op ops IH]; intros h Hids Htuples; simpl.
  - split; [exact Hids|]. split; [exact (proj1 Hids) | exact Htuples].
  - apply IH.
    + apply perform_idsGenerated; assumption.
    + apply perform_tupleUnique. exact Htuples.
Qed.

End CreationProperties.

(* ===================================================================== *)
(** ** Import and settings: further properties *)
(* ===================================================================== *)

Section ImportFurther.
Context `{HostApi}.

(** X19. The import never throws, never touches a worldbook or the
    registry, and looks at the first file only.  Without a file it does
    nothing; when the file cannot be read its only effect is the message,
    the host's ingestion not being called. *)
Theorem importRegexFromFile_robust (files : list File) (h : Host) :
  fst (importRegexFromFile files h) = Ok tt
  /\ worldbooks (snd (importRegexFromFile files h)) = worldbooks h
  /\ bindings (snd (importRegexFromFile files h)) = bindings h
  /\ (files = [] -> importRegexFromFile files h = (Ok tt, h))
  /\ (forall file rest,
        files = file :: rest ->
        importRegexFromFile files h = importRegexFromFile [file] h)
  /\ (forall file rest,
        files = file :: rest -> file_text file = None ->
        importRegexFromFile files h
        = (Ok tt, emit (Toasted ReadFileFailed) h)).
Proof.
  split; [|split; [|split; [|split; [|split]]]].
  - destruct files as [|file rest]; [reflexivity|].
    destruct (file_text file) as [content|] eqn:Htext.
    2:{ unfold importRegexFromFile. rewrite Htext. reflexivity. }
    destruct (importRawTavernRegex (file_name file) content (tavern_regexes h))
      as [[|] store] eqn:Hraw.
    + rewrite (importRegexFromFile_accepted _ _ _ _ _ Htext Hraw).
      reflexivity.
    + rewrite (importRegexFromFile_refused _ _ _ _ _ Htext Hraw).
      reflexivity.
  - destruct files as [|file rest]; [reflexivity|].
    destruct (file_text file) as [content|] eqn:Htext.
    2:{ unfold importRegexFromFile. rewrite Htext. reflexivity. }
    destruct (importRawTavernRegex (file_name file) content (tavern_regexes h))
      as [[|] store] eqn:Hraw.
    + rewrite (importRegexFromFile_accepted _ _ _ _ _ Htext Hraw).
      reflexivity.
    + rewrite (importRegexFromFile_refused _ _ _ _ _ Htext Hraw).
      reflexivity.
  - apply importRegexFromFile_bindings.
  - intros ->. reflexivity.
  - intros file rest ->. reflexivity.
  - intros file rest -> Htext. unfold importRegexFromFile.
    rewrite Htext. reflexivity.
Qed.

(** X20. A successful import changes nothing but names: at every position
    the rule keeps its id, its [enabled] value and its [replace_string];
    a rule that was in the snapshot keeps its name too, and every other
    rule ends in the managed subset.  When the ingestion brought no new
    id, the rule list is as the ingestion left it. *)
Theorem importRegexFromFile_only_renames (file : File) (rest : list File)
  (content : jsstring) (store : list TavernRegex) (h : Host) :
  file_text file = Some content ->
  importRawTavernRegex (file_name file) content (tavern_regexes h)
    = (true, store) ->
  let before := tavern_regexes h in
  let h' := snd (importRegexFromFile (file :: rest) h) in
  (forall (i : nat) item,
      store !! i = Some item ->
      exists item',
        tavern_regexes h' !! i = Some item'
        /\ Regex.id item' = Regex.id item
        /\ Regex.enabled item' = Regex.enabled item
        /\ Regex.replace_string item' = Regex.replace_string item
        /\ (Regex.id item ∈ List.map Regex.id before -> item' = item)
        /\ (Regex.id item ∉ List.map Regex.id before ->
            isManaged item' = true))
  /\ ((forall item, item ∈ store ->
         Regex.id item ∈ List.map Regex.id before) ->
      tavern_regexes h' = store).
Proof.
  intros Htext Hraw before h'. subst before h'.
  rewrite (importRegexFromFile_accepted _ _ _ _ _ Htext Hraw). simpl.
  split.
  - intros i item Hi.
    rewrite (retagNew_lookup _ _ _ _ _ _ Hi). unfold isNewRule.
    destruct (bool_decide (Regex.id item ∈ List.map Regex.id (tavern_regexes h)))
      eqn:Hold; simpl.
    + exists item. repeat split; auto.
      intros Hnew. apply bool_decide_eq_true_1 in Hold. contradiction.
    + eexists. split; [reflexivity|]. simpl. repeat split; auto.
      * intros Hin. apply bool_decide_eq_false_1 in Hold. contradiction.
      * intros _. apply ensureRegexPrefix_managed.
  - intros Hall. apply list_eq. intros i.
    destruct (store !! i) as [item|] eqn:Hi.
    + rewrite (retagNew_lookup _ _ _ _ _ _ Hi). unfold isNewRule.
      rewrite bool_decide_eq_true_2; [reflexivity|].
      apply Hall. exact (list_elem_of_lookup_2 _ _ _ Hi).
    + apply lookup_ge_None. rewrite map_st_length.
      apply lookup_ge_None. exact Hi.
Qed.

End ImportFurther.

(** X21. The settings store: loading after saving returns what was saved;
    loading never fails, yields the empty registry when the settings are
    absent or their [bindings] is no array, and leaves a store that holds
    exactly the array it returned, so that loading again changes nothing. *)
Theorem settings_round_trip :
  (forall bs s, fst (Settings.loadSettings (Settings.saveSettings bs s)) = bs)
  /\ (forall s,
        snd (Settings.loadSettings s)
        = Some (Settings.BindingsArray (fst (Settings.loadSettings s))))
  /\ (forall s,
        Settings.loadSettings (snd (Settings.loadSettings s))
        = Settings.loadSettings s)
  /\ (forall s,
        s = None \/ s = Some Settings.BindingsOther ->
        fst (Settings.loadSettings s) = [])
  /\ (forall bs s,
        Settings.saveSettings bs (snd (Settings.loadSettings s))
        = Settings.saveSettings bs s).
Proof.
  split; [|split; [|split; [|split]]].
  - intros bs [[bs0|]|]; reflexivity.
  - intros [[bs0|]|]; reflexivity.
  - intros [[bs0|]|]; reflexivity.
  - intros s [-> | ->]; reflexivity.
  - intros bs [[bs0|]|]; reflexivity.
Qed.

(* ===================================================================== *)
(** ** The further properties at the sample hosts *)
(* ===================================================================== *)

Lemma ensureRegexPrefix_same_name_witness :
  ensureRegexPrefix (REGEX_PREFIX ++ lit "Hp") = ensureRegexPrefix (lit "Hp").
Proof.
  apply (proj2 ensureRegexPrefix_same_name).
  right. left. split; reflexivity.
Defined.

Lemma stripCodeFence_unwraps_witness :
  stripCodeFence Scenario.fenced = lit "<b>hi</b>".
Proof.
  destruct stripCodeFence_unwraps as (_ & Hfenced & _).
  apply (Hfenced (lit "html") (lit "<b>hi</b>")).
  repeat (constructor; [reflexivity|]). constructor.
Defined.

Lemma openRegexPreview_shows_witness :
  lit "<b/>" <> [] /\ trimmedString (lit "<b/>").
Proof.
  destruct (openRegexPreview_shows Sample.binding Sample.host)
    as (_ & _ & Hhtml).
  apply Hhtml. reflexivity.
Defined.

Lemma getRegexDisplayName_priority_witness :
  getRegexDisplayName (H := Sample.api) Scenario.paddedDescriptor
  = Ok (lit "Bar")
  /\ getRegexDisplayName (H := Sample.api) Scenario.unprintableDescriptor
     = Throw TypeError.
Proof.
  destruct (getRegexDisplayName_priority (H := Sample.api))
    as (Hthrows & _ & Hprio & _).
  split.
  - apply (Hprio _ [lit "script_name"; lit "scriptName"] (lit "name")
                 [lit "title"] (JStr (lit " Bar "))).
    + reflexivity.
    + intros k' Hin. apply elem_of_cons in Hin as [-> | Hin].
      * right. reflexivity.
      * apply list_elem_of_singleton in Hin as ->. left. reflexivity.
    + reflexivity.
    + discriminate.
  - apply Hthrows. right.
    exists (JObj [(lit "toString", JNum 1)]). split; reflexivity.
Defined.

Lemma importedNamesOf_names_witness :
  lit "Foo" <> [] /\ trimmedString (lit "Foo").
Proof.
  destruct (importedNamesOf_names (H := Sample.api) (lit "{}"))
    as (_ & _ & _ & Hnames).
  apply Hnames. vm_compute. left.
Defined.

Lemma setBindingEnabled_then_live_witness :
  let h' := snd (setBindingEnabled Sample.binding true Sample.host) in
  exists live,
    getBindingLiveState Sample.binding h' = (Ok live, h')
    /\ worldbook_enabled live = Some true
    /\ regex_enabled live = Some true.
Proof.
  destruct (setBindingEnabled_then_live Sample.binding true Sample.host
              [Sample.otherEntry; Sample.entry] eq_refl)
    as (live & Hrun & Hentry & _ & Hrule & _).
  exists live. split; [exact Hrun|]. split.
  - apply Hentry. exists Sample.entry. split; [right; left | reflexivity].
  - apply Hrule. exists Sample.driftedRule.
    split; [right; left | reflexivity].
Defined.

Lemma setBindingEnabled_syncError_changes_nothing_witness :
  let h' := snd (setBindingEnabled Scenario.orphan true Sample.host) in
  worldbooks h' = worldbooks Sample.host
  /\ tavern_regexes h' = tavern_regexes Sample.host.
Proof.
  destruct (setBindingEnabled_syncError_changes_nothing
              Scenario.orphan true Sample.host)
    as (Hw & Hr & _).
  - vm_compute. reflexivity.
  - split; [exact Hw | exact Hr].
Defined.

Lemma setBindingEnabled_heals_witness :
  Regex.mk (lit "r0") (REGEX_PREFIX ++ lit "Bar") false (lit "<b/>")
    ∈ List.filter isManaged
        (tavern_regexes (snd (setBindingEnabled Sample.binding false
                                                Sample.host))).
Proof.
  destruct (setBindingEnabled_heals Sample.binding false Sample.host
              [Sample.otherEntry; Sample.entry] eq_refl)
    as (_ & Hrules).
  apply Hrules; [|reflexivity].
  vm_compute. right. left.
Defined.

Lemma onToggleBinding_catches_toggle_errors_witness :
  (fst (onToggleBinding (lit "b1") [[]] Sample.hostWithoutWorldbook) = Ok tt
   /\ snd (onToggleBinding (lit "b1") [[]] Sample.hostWithoutWorldbook)
      = emit (Toasted ToggleFailed) Sample.hostWithoutWorldbook)
  /\ exists nm : jsstring,
       HostError (lit "wb") = HostError nm
       /\ nm ∈ [[]; lit "wb"] /\ nm <> []
       /\ worldbooks Sample.hostWithoutWorldbook !! nm = None.
Proof.
  split.
  - destruct (onToggleBinding_catches_toggle_errors (lit "b1") [[]]
                Sample.hostWithoutWorldbook) as (_ & Hknown).
    destruct (Hknown Sample.binding eq_refl) as (Hends & _ & Hfailed).
    split; [apply Hends | apply Hfailed; reflexivity].
    intros nm Hin Hnm. apply list_elem_of_singleton in Hin. contradiction.
  - destruct (onToggleBinding_catches_toggle_errors (lit "b1")
                [[]; lit "wb"] Sample.hostWithoutWorldbook) as (_ & Hknown).
    destruct (Hknown Sample.binding eq_refl) as (_ & Hthrown & _).
    apply Hthrown. reflexivity.
Defined.

Lemma onToggleBinding_flips_witness :
  bothEnabled (liveStateOf Sample.binding
                 (snd (onToggleBinding (lit "b1") [lit "wb"] Sample.host)))
  = true.
Proof.
  pose proof (onToggleBinding_flips (lit "b1") [lit "wb"] Sample.host
                Sample.binding [Sample.otherEntry; Sample.entry]
                eq_refl eq_refl) as Hall.
  cbv zeta in Hall. destruct Hall as (_ & Hflip & _).
  etransitivity; [apply Hflip | reflexivity].
  - exists Sample.entry. split; [right; left | reflexivity].
  - exists Sample.driftedRule. split; [right; left | reflexivity].
Defined.

Lemma onDeleteBinding_removes_witness :
  (let h' := snd (onDeleteBinding (lit "b1") [lit "wb"]
                                  Scenario.twoBindings) in
   Scenario.orphan ∈ bindings h'
   /\ fst (onDeleteBinding (lit "b1") [lit "wb"] Scenario.twoBindings)
      = Ok tt
   /\ events h' = [SettingsSaved (bindings h'); Toasted BindingDeleted])
  /\ (let h' := snd (onDeleteBinding (lit "b1") [lit "gone"]
                                     Scenario.twoBindings) in
      events h' = [SettingsSaved (bindings h')]).
Proof.
  split.
  - destruct (onDeleteBinding_removes (lit "b1") [lit "wb"]
                Scenario.twoBindings) as (Hin & _ & _ & _ & _ & Hends & _).
    cbv zeta. split; [|apply Hends].
    + apply Hin. split; [right; left|]. vm_compute. discriminate.
    + intros nm Hnm _. apply list_elem_of_singleton in Hnm. subst nm.
      exists [Sample.otherEntry; Sample.entry]. reflexivity.
  - destruct (onDeleteBinding_removes (lit "b1") [lit "gone"]
                Scenario.twoBindings) as (_ & _ & _ & _ & _ & _ & Hthrows).
    cbv zeta. apply Hthrows.
    intros Hall. destruct (Hall (lit "gone")) as [entries Hentries].
    + left.
    + discriminate.
    + vm_compute in Hentries. discriminate.
Defined.

Lemma onRenameStyle_relabels_witness :
  (let r := onRenameStyle (lit "b2") (Some (lit "New")) [lit "wb"; []]
                          Scenario.twoBindings in
   bindings (snd r)
   = [Sample.binding; withLabel (lit "New") Scenario.orphan]
   /\ fst r = Ok tt
   /\ events (snd r) = [SettingsSaved (bindings (snd r));
                        Toasted LabelUpdated])
  /\ (let r := onRenameStyle (lit "b2") (Some (lit "New")) [lit "gone"]
                             Scenario.twoBindings in
      events (snd r) = [SettingsSaved (bindings (snd r))]).
Proof.
  assert (forall b', b' ∈ [Sample.binding] -> Binding.id b' <> lit "b2")
    as Hpre.
  { intros b' Hin. apply list_elem_of_singleton in Hin. subst b'.
    vm_compute. discriminate. }
  split.
  - destruct (onRenameStyle_relabels (lit "b2") [lit "wb"; []]
                Scenario.twoBindings) as (_ & Hrename).
    destruct (Hrename [Sample.binding] Scenario.orphan [] 78%N (lit "ew")
                eq_refl Hpre eq_refl) as (Hb & _ & _ & Hends & _).
    cbv zeta. split; [exact Hb|]. apply Hends.
    intros nm Hnm Hne. apply elem_of_cons in Hnm as [Hnm|Hnm]; subst.
    + exists [Sample.otherEntry; Sample.entry]. reflexivity.
    + apply list_elem_of_singleton in Hnm. contradiction.
  - destruct (onRenameStyle_relabels (lit "b2") [lit "gone"]
                Scenario.twoBindings) as (_ & Hrename).
    destruct (Hrename [Sample.binding] Scenario.orphan [] 78%N (lit "ew")
                eq_refl Hpre eq_refl) as (_ & _ & _ & _ & Hthrows).
    cbv zeta. apply Hthrows.
    intros Hall. destruct (Hall (lit "gone")) as [entries Hentries].
    + left.
    + discriminate.
    + vm_compute in Hentries. discriminate.
Defined.

Lemma createBindingFromSelection_references_witness :
  wellReferenced Scenario.created Scenario.createdBinding.
Proof.
  pose proof (createBindingFromSelection_references (H := Sample.api)
                [Scenario.selection] [lit "r9"] Sample.emptyRegistry) as Hall.
  cbv zeta in Hall. destruct Hall as (added & Hb & Hall).
  assert (added = [Scenario.createdBinding]) as ->.
  { vm_compute in Hb. rewrite <- Hb. reflexivity. }
  apply (Hall Scenario.createdBinding). left.
Defined.

Lemma createBindingFromSelection_then_toggle_witness :
  fst (setBindingEnabled Scenario.createdBinding false Scenario.created)
  = Ok tt.
Proof.
  pose proof (createBindingFromSelection_then_toggle (H := Sample.api)
                [Scenario.selection] [lit "r9"] Sample.emptyRegistry) as Hall.
  cbv zeta in Hall. destruct Hall as (added & Hb & Hall).
  assert (added = [Scenario.createdBinding]) as ->.
  { vm_compute in Hb. rewrite <- Hb. reflexivity. }
  apply (Hall Scenario.createdBinding false). left.
Defined.

Lemma createBindingFromSelection_reports_witness :
  events Scenario.created
  = [SettingsSaved (bindings Scenario.created); Toasted (BindingsCreated 1)].
Proof.
  pose proof (createBindingFromSelection_reports (H := Sample.api)
                [Scenario.selection] [lit "r9"] Sample.emptyRegistry) as Hall.
  cbv zeta in Hall. destruct Hall as (_ & _ & Hgrew).
  apply Hgrew; [reflexivity|]. vm_compute. discriminate.
Defined.

Lemma createBindingFromSelection_incomplete_witness :
  createBindingFromSelection (H := Sample.api)
    [mkSelection [] (Integer 7); mkSelection (lit "wb") NonInteger]
    [lit "r9"] Sample.host
  = (Ok tt, emit (Toasted SelectionIncomplete) Sample.host)
  /\ createBindingFromSelection (H := Sample.api)
       [Scenario.selection] [[]] Sample.host
     = (Ok tt, emit (Toasted SelectionIncomplete) Sample.host).
Proof.
  split; apply createBindingFromSelection_incomplete.
  - left. intros item Hin. apply elem_of_cons in Hin as [Hin|Hin].
    + left. rewrite Hin. reflexivity.
    + apply list_elem_of_singleton in Hin. right. rewrite Hin. reflexivity.
  - right. intros item Hin. apply list_elem_of_singleton in Hin. exact Hin.
Defined.

Lemma performAll_registry_in_order_witness :
  let h' :=
    performAll (H := Sample.api)
      [Create [Scenario.selection] [lit "r9"] [lit "wb"];
       Create [Scenario.selection] [lit "r9"; lit "r0"] [lit "gone"];
       Toggle (lit "id-" ++ [0%N]) [lit "wb"];
       Rename (lit "id-" ++ [1%N]) (Some (lit "New")) [];
       Delete (lit "nope") [lit "wb"]]
      Sample.emptyRegistry in
  NoDup (List.map Binding.id (bindings h')) /\ tupleUnique (bindings h').
Proof.
  pose proof (performAll_registry_in_order (H := Sample.api)
                [Create [Scenario.selection] [lit "r9"] [lit "wb"];
                 Create [Scenario.selection] [lit "r9"; lit "r0"]
                        [lit "gone"];
                 Toggle (lit "id-" ++ [0%N]) [lit "wb"];
                 Rename (lit "id-" ++ [1%N]) (Some (lit "New")) [];
                 Delete (lit "nope") [lit "wb"]]
                Sample.emptyRegistry) as Hall.
  cbv zeta in Hall. destruct Hall as (_ & Hids & Htuples).
  - intros m n Heq. simpl in Heq. injection Heq as Heq.
    apply Nat2N.inj. exact Heq.
  - split; constructor.
  - constructor.
  - split; [exact Hids | exact Htuples].
Defined.

Lemma importRegexFromFile_robust_witness :
  importRegexFromFile (H := Sample.api) [mkFile (lit "x.json") None]
                      Sample.host
  = (Ok tt, emit (Toasted ReadFileFailed) Sample.host).
Proof.
  destruct (importRegexFromFile_robust (H := Sample.api)
              [mkFile (lit "x.json") None] Sample.host)
    as (_ & _ & _ & _ & _ & Hunreadable).
  apply (Hunreadable _ [] eq_refl eq_refl).
Defined.

Lemma importRegexFromFile_only_renames_witness :
  let h' := snd (importRegexFromFile (H := Sample.api) [Sample.goodFile]
                                     Sample.host) in
  exists item',
    tavern_regexes h' !! 2 = Some item'
    /\ Regex.id item' = lit "r1"
    /\ isManaged item' = true.
Proof.
  pose proof (importRegexFromFile_only_renames (H := Sample.api)
                Sample.goodFile [] (lit "{}")
                [Sample.managedRule; Sample.driftedRule; Sample.importedRule]
                Sample.host eq_refl eq_refl) as Hall.
  cbv zeta in Hall. destruct Hall as (Hpos & _).
  destruct (Hpos 2 Sample.importedRule eq_refl)
    as (item' & Hlookup & Hid & _ & _ & _ & Hmanaged).
  exists item'. split; [exact Hlookup|]. split; [exact Hid|].
  apply Hmanaged. intros Hin. vm_compute in Hin.
  apply elem_of_cons in Hin as [Hin|Hin]; [discriminate Hin|].
  apply elem_of_cons in Hin as [Hin|Hin]; [discriminate Hin|].
  inversion Hin.
Defined.

Lemma settings_round_trip_witness :
  fst (Settings.loadSettings (Some Settings.BindingsOther)) = [].
Proof.
  destruct settings_round_trip as (_ & _ & _ & Hempty & _).
  apply Hempty. right. reflexivity.
Defined.
